(** * Atria entities: a shallow embedding of [atria/core/entities.py]

    The development follows the source file top to bottom: Python values
    and dictionaries, attribute descriptors and data blobs, the entity
    manager, the per-class state created by the metaclass, entity
    construction, identifier generation, find / load / save / clone.

    Python dictionaries keep insertion order and the code iterates over
    them, so they are association lists with unique keys; objects with
    identity (entities, classes, stores) live in finite maps indexed by
    their address. *)

From Stdlib Require Import ZArith String Ascii List Bool Lia Sorted.
From Stdlib Require Import FunctionalExtensionality DecimalString.
From Stdlib Require Import DecimalZ DecimalPos QArith Qround.
From stdpp Require Import base option list gmap strings.

#[local] Set Warnings "-register-all".
#[local] Set Warnings "-clear-no-such-hyp".

Local Open Scope Z_scope.
Local Open Scope string_scope.
Local Open Scope list_scope.

(** ** Python values held by attributes, keys and tags *)

Inductive value :=
| Unset                (* the [Unset] class object, "never assigned" *)
| VNone                (* Python's [None] *)
| VInt (z : Z)
| VStr (s : string).

(** The type, where a binder called [value] hides it. *)
Abbreviation py_value := value (only parsing).

#[global] Instance value_eq_dec : EqDecision value.
Proof. solve_decision. Defined.

#[global] Instance value_countable : Countable value.
Proof.
  refine (inj_countable'
    (fun v => match v with
              | Unset => inl (inl tt) | VNone => inl (inr tt)
              | VInt z => inr (inl z) | VStr s => inr (inr s)
              end)
    (fun x => match x with
              | inl (inl _) => Unset | inl (inr _) => VNone
              | inr (inl z) => VInt z | inr (inr s) => VStr s
              end) _).
  intros []; reflexivity.
Defined.

(** ** Insertion-ordered dictionaries *)

Section Dict.
Context {K V : Type} `{EqDecision K}.

Definition dict := list (K * V).

Fixpoint dict_get (k : K) (d : dict) : option V :=
  match d with
  | [] => None
  | (k', v) :: d' => if decide (k = k') then Some v else dict_get k d'
  end.

Definition dict_has (k : K) (d : dict) : bool :=
  match dict_get k d with Some _ => true | None => false end.

(** [d[k] = v]: an existing key keeps its position, a new key is
    appended. *)
Fixpoint dict_set (k : K) (v : V) (d : dict) : dict :=
  match d with
  | [] => [(k, v)]
  | (k', v') :: d' =>
      if decide (k = k') then (k, v) :: d' else (k', v') :: dict_set k v d'
  end.

(** [del d[k]] *)
Fixpoint dict_del (k : K) (d : dict) : dict :=
  match d with
  | [] => []
  | (k', v') :: d' =>
      if decide (k = k') then dict_del k d' else (k', v') :: dict_del k d'
  end.

(** [d1.update(d2)] *)
Definition dict_update (d1 d2 : dict) : dict :=
  fold_left (fun acc kv => dict_set (fst kv) (snd kv) acc) d2 d1.

Definition dict_keys (d : dict) : list K := map fst d.
Definition dict_values (d : dict) : list V := map snd d.
End Dict.

Arguments dict : clear implicits.

(** ** Exceptions and results *)

Inductive exn :=
| TypeError | KeyError | ValueError | AttributeError | AlreadyExists
| AssertionError.

#[global] Instance exn_eq_dec : EqDecision exn.
Proof. solve_decision. Defined.

Inductive result (A : Type) :=
| Ok (a : A)
| Raise (e : exn).
Arguments Ok {A} a.
Arguments Raise {A} e.

(** ** Serialized data: what [serialize] builds and a store holds *)

Inductive data :=
| DVal (v : value)
| DFlags (fs : list string)
| DDict (d : list (string * data)).

Definition record := dict string data.

(** ** class Attribute

    Attribute classes are templates and are never instantiated; one is
    the record of its class attributes and class methods.  The hooks
    receive the entity only to read its fields, so the entity is passed
    as its attribute reader ([getattr]).  [_changed] does nothing in
    [Attribute] and has no counterpart here. *)

Definition entity_view := string -> option value.

Record Attribute := {
  attr_default : value;
  read_only : bool;
  _validate : value -> entity_view -> result value;
  _finalize : value -> entity_view -> value;
  _serialize : value -> value;
  _deserialize : value -> value
}.

Definition base_attribute : Attribute :=
  {| attr_default := Unset;
     read_only := false;
     _validate := fun v _ => Ok v;
     _finalize := fun v _ => v;
     _serialize := fun v => v;
     _deserialize := fun v => v |}.

(** [EntityVersion], registered on [Entity] as "version". *)
Definition EntityVersion : Attribute :=
  {| attr_default := VInt 1;
     read_only := false;
     _validate := fun v _ =>
       match v with VInt _ => Ok v | _ => Raise TypeError end;
     _finalize := fun v _ => v;
     _serialize := fun v => v;
     _deserialize := fun v => v |}.

(** ** class DataBlob

    A blob class is its two class-level dictionaries; an instance holds
    the attribute table it reads through [self._attrs], its own values
    and its own sub-blob instances. *)

Inductive blob_class :=
| BlobClass (bc_attrs : dict string Attribute)
            (bc_blobs : list (string * blob_class)).

Inductive blob :=
| Blob (b_attrs : dict string Attribute)
       (b_values : dict string value)
       (b_blobs : list (string * blob)).

Definition b_attrs (b : blob) := let 'Blob a _ _ := b in a.
Definition b_values (b : blob) := let 'Blob _ v _ := b in v.
Definition b_blobs (b : blob) := let 'Blob _ _ s := b in s.

(** The loop of [DataBlob.__init__] over [self._attrs.items()]. *)
Definition default_values (attrs : dict string Attribute) : dict string value :=
  map (fun kv => (fst kv, attr_default (snd kv))) attrs.

(** [DataBlob.__init__]: [blob_class(entity)]. *)
Fixpoint instantiate (bc : blob_class) : blob :=
  match bc with
  | BlobClass attrs blobs =>
      Blob attrs (default_values attrs)
           ((fix inst_all (l : list (string * blob_class)) :=
               match l with
               | [] => []
               | (k, c) :: l' => (k, instantiate c) :: inst_all l'
               end) blobs)
  end.

Definition instantiate_all (l : list (string * blob_class)) :
  list (string * blob) :=
  map (fun kc => (fst kc, instantiate (snd kc))) l.

(** [DataBlob._get_attr_val]: [self._attr_values.get(name)]. *)
Definition _get_attr_val (name : string) (b : blob) : value :=
  match dict_get name (b_values b) with Some v => v | None => VNone end.

(** One step of the second loop of [DataBlob.serialize]. *)
Definition serialize_attr (values : dict string value)
    (acc : result record) (ka : string * Attribute) : result record :=
  match acc with
  | Raise e => Raise e
  | Ok d =>
      let key := fst ka in
      if dict_has key d then Raise KeyError
      else
        let value := match dict_get key values with
                     | Some v => v | None => VNone end in
        let value := match value with
                     | Unset => Unset
                     | _ => _serialize (snd ka) value
                     end in
        Ok (dict_set key (DVal value) d)
  end.

(** [DataBlob.serialize] *)
Fixpoint serialize (b : blob) : result record :=
  match b with
  | Blob attrs values blobs =>
      let subs :=
        (fix ser_all (l : list (string * blob)) (acc : result record) :=
           match l with
           | [] => acc
           | (k, sb) :: l' =>
               match acc with
               | Raise e => Raise e
               | Ok d =>
                   match serialize sb with
                   | Raise e => Raise e
                   | Ok sd => ser_all l' (Ok (dict_set k (DDict sd) d))
                   end
               end
           end) blobs (Ok []) in
      fold_left (serialize_attr values) attrs subs
  end.

(** ** Classes

    [_store_key] is either one attribute name or a triple of a name, a
    getter and a setter.  The getter reads the entity's fields; the
    setter of the triple assigns fields one after the other (as
    [Room.set_coord_from_str] does), so it is the list of assignments it
    makes. *)

Inductive store_key :=
| KeyName (name : string)
| KeyTriple (name : string)
            (getter : entity_view -> result value)
            (setter : value -> result (list (string * value))).

(** A class object: its address, [__name__], whether it is a subclass of
    [Entity], the class attributes [_uid_code], [_store_key] and [_store]
    as they resolve on it, and [__bases__]. *)
Inductive pyclass :=
| PyClass (c_id : nat) (c_name : string) (c_is_entity : bool)
          (c_uid_code : string) (c_store_key : store_key)
          (c_store : option nat) (c_bases : list pyclass).

Definition c_id (c : pyclass) := let 'PyClass i _ _ _ _ _ _ := c in i.
Definition c_name (c : pyclass) := let 'PyClass _ n _ _ _ _ _ := c in n.
Definition c_is_entity (c : pyclass) := let 'PyClass _ _ b _ _ _ _ := c in b.
Definition c_uid_code (c : pyclass) := let 'PyClass _ _ _ u _ _ _ := c in u.
Definition c_store_key (c : pyclass) := let 'PyClass _ _ _ _ k _ _ := c in k.
Definition c_store (c : pyclass) := let 'PyClass _ _ _ _ _ s _ := c in s.
Definition c_bases (c : pyclass) := let 'PyClass _ _ _ _ _ _ l := c in l.

(** [Entity.get_key_name] *)
Definition get_key_name (cls : pyclass) : string :=
  match c_store_key cls with
  | KeyTriple name _ _ => name
  | KeyName name => name
  end.

(** ** pylru.lrucache: most recently used entry first *)

Record lrucache := { lru_size : nat; lru_items : list (value * nat) }.

Definition lru_new (size : nat) : lrucache :=
  {| lru_size := size; lru_items := [] |}.

(** [key in cache] does not touch the order. *)
Definition lru_contains (k : value) (c : lrucache) : bool :=
  dict_has k (lru_items c).

Definition lru_peek (k : value) (c : lrucache) : option nat :=
  dict_get k (lru_items c).

(** [cache[key] = value]: the entry becomes the most recent one and the
    least recent one is dropped when the cache is over its size. *)
Definition lru_set (k : value) (r : nat) (c : lrucache) : lrucache :=
  {| lru_size := lru_size c;
     lru_items := take (lru_size c) ((k, r) :: dict_del k (lru_items c)) |}.

(** [del cache[key]] *)
Definition lru_del (k : value) (c : lrucache) : lrucache :=
  {| lru_size := lru_size c; lru_items := dict_del k (lru_items c) |}.

(** [cache[key]] also makes the entry the most recent one. *)
Definition lru_touch (k : value) (c : lrucache) : lrucache :=
  match lru_peek k c with
  | Some r => lru_set k r c
  | None => c
  end.

(** ** Entities and the state of the process *)

(** What registration leaves in a class's [__dict__]. *)
Inductive member :=
| PAttr (a : Attribute)     (* property made by [register_attr] *)
| PBlob                     (* property made by [register_blob] *)
| POther.

Record entity := {
  e_class : pyclass;
  e_values : dict string value;          (* _base_blob._attr_values *)
  e_blobs : list (string * blob);        (* _base_blob._blobs *)
  _dirty : bool;
  _savable : bool;
  _uid : value;
  active : bool;
  flags : list string;
  tags : dict string value
}.

(** The class-level state the metaclasses create for an entity class.
    [_instances] is a [WeakValueDictionary]: it holds an entity for as
    long as something else refers to it.  The heap of the model never
    gives an object up, so every entity counts as referred to and its
    entry stays. *)
Record class_state := {
  cs_attrs : dict string Attribute;      (* cls._base_blob._attrs *)
  cs_blobs : dict string blob_class;     (* cls._base_blob._blobs *)
  cs_dict : dict string member;          (* names set on the class *)
  _instances : dict value nat;
  _caches : dict string lrucache
}.

(** Modelled from the spec: the store adapter ([DataStore] is not among
    the sources).  It exposes [has], [get], [put], [delete] and [keys]
    over records addressed by key. *)
Definition store := dict value record.

Definition store_has (k : value) (s : store) : bool := dict_has k s.
Definition store_get (k : value) (s : store) : option record := dict_get k s.
Definition store_put (k : value) (d : record) (s : store) : store :=
  dict_set k d s.
Definition store_delete (k : value) (s : store) : store := dict_del k s.
Definition store_keys (s : store) : list value := dict_keys s.

Definition with_attrs (cs : class_state) (a : dict string Attribute)
  : class_state :=
  {| cs_attrs := a; cs_blobs := cs_blobs cs; cs_dict := cs_dict cs;
     _instances := _instances cs; _caches := _caches cs |}.

Definition with_instances (cs : class_state) (i : dict value nat)
  : class_state :=
  {| cs_attrs := cs_attrs cs; cs_blobs := cs_blobs cs; cs_dict := cs_dict cs;
     _instances := i; _caches := _caches cs |}.

Definition with_caches (cs : class_state) (c : dict string lrucache)
  : class_state :=
  {| cs_attrs := cs_attrs cs; cs_blobs := cs_blobs cs; cs_dict := cs_dict cs;
     _instances := _instances cs; _caches := c |}.

Record world := {
  heap : list entity;                    (* objects, by address *)
  classes : gmap nat class_state;
  stores : gmap nat store;
  uid_timecode : Q;                      (* Entity.__uid_timecode *)
  timers_time : Q                        (* TIMERS.time, in seconds *)
}.

(** [_EntityMeta.__init__]: empty tables and one cache for the key name
    ([register_cache] with its default size). *)
Definition new_class_state (cls : pyclass) : class_state :=
  {| cs_attrs := []; cs_blobs := []; cs_dict := [];
     _instances := [];
     _caches := [(get_key_name cls, lru_new 512)] |}.

Definition class_state_of (w : world) (cls : pyclass) : class_state :=
  default (new_class_state cls) (classes w !! c_id cls).

Definition store_of (w : world) (sid : nat) : store :=
  default [] (stores w !! sid).

Definition set_heap (h : list entity) (w : world) : world :=
  {| heap := h; classes := classes w; stores := stores w;
     uid_timecode := uid_timecode w; timers_time := timers_time w |}.

Definition set_class_state (cls : pyclass) (cs : class_state) (w : world)
  : world :=
  {| heap := heap w; classes := <[c_id cls := cs]> (classes w);
     stores := stores w;
     uid_timecode := uid_timecode w; timers_time := timers_time w |}.

Definition set_store (sid : nat) (s : store) (w : world) : world :=
  {| heap := heap w; classes := classes w;
     stores := <[sid := s]> (stores w);
     uid_timecode := uid_timecode w; timers_time := timers_time w |}.

Definition set_uid_timecode (t : Q) (w : world) : world :=
  {| heap := heap w; classes := classes w; stores := stores w;
     uid_timecode := t; timers_time := timers_time w |}.

(** The clock moves on its own between calls. *)
Definition set_time (t : Q) (w : world) : world :=
  {| heap := heap w; classes := classes w; stores := stores w;
     uid_timecode := uid_timecode w; timers_time := t |}.

(** ** Computations: state that survives a raised exception *)

Definition Py (A : Type) : Type := world -> result A * world.

#[global] Instance Py_ret : MRet Py := fun A a w => (Ok a, w).
#[global] Instance Py_bind : MBind Py := fun A B f m w =>
  match m w with
  | (Ok a, w') => f a w'
  | (Raise e, w') => (Raise e, w')
  end.

Definition raise {A} (e : exn) : Py A := fun w => (Raise e, w).
Definition get_world : Py world := fun w => (Ok w, w).
Definition modify (f : world -> world) : Py unit := fun w => (Ok tt, f w).
Definition lift {A} (x : result A) : Py A := fun w => (x, w).

Definition get_entity (r : nat) : Py entity := fun w =>
  match heap w !! r with
  | Some e => (Ok e, w)
  | None => (Raise AttributeError, w)
  end.

(** A mutation of the object at address [r], in place. *)
Definition update_entity (r : nat) (f : entity -> entity) : Py unit :=
  fun w =>
    match heap w !! r with
    | Some e => (Ok tt, set_heap (<[r := f e]> (heap w)) w)
    | None => (Raise AttributeError, w)
    end.

(** A mutation of the class-level tables of [cls], in place. *)
Definition update_class (cls : pyclass) (f : class_state -> class_state)
  : Py unit :=
  modify (fun w => set_class_state cls (f (class_state_of w cls)) w).

Definition with_fields (e : entity) (values : dict string value)
    (blobs : list (string * blob)) : entity :=
  {| e_class := e_class e; e_values := values; e_blobs := blobs;
     _dirty := _dirty e; _savable := _savable e; _uid := _uid e;
     active := active e; flags := flags e; tags := tags e |}.

Definition with_blob (e : entity) (b : blob) : entity :=
  with_fields e (b_values b) (b_blobs b).

Definition with_dirty (e : entity) (d : bool) : entity :=
  {| e_class := e_class e; e_values := e_values e; e_blobs := e_blobs e;
     _dirty := d; _savable := _savable e; _uid := _uid e;
     active := active e; flags := flags e; tags := tags e |}.

Definition with_uid (e : entity) (u : value) : entity :=
  {| e_class := e_class e; e_values := e_values e; e_blobs := e_blobs e;
     _dirty := _dirty e; _savable := _savable e; _uid := u;
     active := active e; flags := flags e; tags := tags e |}.

(** Modelled from the spec: the [HasFlags] and [HasTags] mixins are not
    among the sources.  [flags] is a set of names and [tags] a mapping;
    a change of either calls [_flags_changed] / [_tags_changed], which
    [Entity] defines as [self.dirty()]. *)
Definition with_tags (e : entity) (t : dict string value) : entity :=
  {| e_class := e_class e; e_values := e_values e; e_blobs := e_blobs e;
     _dirty := true; _savable := _savable e; _uid := _uid e;
     active := active e; flags := flags e; tags := t |}.

Definition with_flags (e : entity) (f : list string) : entity :=
  {| e_class := e_class e; e_values := e_values e; e_blobs := e_blobs e;
     _dirty := true; _savable := _savable e; _uid := _uid e;
     active := active e; flags := f; tags := tags e |}.

Definition flags_add (new old : list string) : list string :=
  fold_left (fun (acc : list string) f =>
               if decide (f ∈ acc) then acc else (acc ++ [f])%list)
            new old.

(** ** Attribute access on classes and instances *)

(** The names the body of [class Entity] and its metaclass bind on the
    class, with the [flags] and [tags] of its mixins; [active],
    [_dirty], [_savable] and [_uid] are set on the instance by
    [__init__] and are not among them. *)
Definition entity_members : list string :=
  ["_base_blob"; "_instances"; "_caches"; "_store"; "_store_key";
   "_uid_code"; "_Entity__uid_timecode"; "__init__"; "__repr__";
   "uid"; "key"; "is_dirty"; "is_savable"; "get_key_name";
   "_flags_changed"; "_tags_changed"; "dirty"; "serialize"; "deserialize";
   "make_uid"; "exists"; "find"; "all"; "load"; "save"; "revert"; "clone";
   "delete"; "flags"; "tags"; "register_blob"; "register_attr";
   "register_cache"].

(** Lookup of a registered name on a class and then on its bases. *)
Fixpoint class_member (w : world) (name : string) (cls : pyclass)
  : option member :=
  match cls with
  | PyClass cid _ _ _ _ _ bases =>
      match dict_get name (cs_dict (class_state_of w cls)) with
      | Some m => Some m
      | None =>
          (fix in_bases (l : list pyclass) :=
             match l with
             | [] => None
             | b :: l' =>
                 match class_member w name b with
                 | Some m => Some m
                 | None => in_bases l'
                 end
             end) bases
      end
  end.

(** [hasattr(cls, name)] for an entity class. *)
Definition class_hasattr (w : world) (cls : pyclass) (name : string) : bool :=
  bool_decide (name ∈ entity_members)
  || match class_member w name cls with Some _ => true | None => false end.

(** [getattr(entity, name)] for the identifier and the registered fields
    (the property [register_attr] installs reads the base blob); other
    names are outside the model and read as an [AttributeError]. *)
Definition getattr_field (w : world) (e : entity) : entity_view :=
  fun name =>
    if decide (name = "uid") then Some (_uid e)
    else match class_member w name (e_class e) with
         | Some (PAttr _) =>
             Some (match dict_get name (e_values e) with
                   | Some v => v | None => VNone end)
         | _ => None
         end.

(** The property [Entity.key] *)
Definition entity_key (w : world) (e : entity) : result value :=
  match c_store_key (e_class e) with
  | KeyTriple _ getter _ => getter (getattr_field w e)
  | KeyName name =>
      match getattr_field w e name with
      | Some v => Ok v
      | None => Raise AttributeError
      end
  end.

Definition key_of (r : nat) : Py value :=
  e ← get_entity r; w ← get_world; lift (entity_key w e).

(** The entity's base blob: its [_attrs] is the dictionary of the class,
    shared by every instance and by the class itself. *)
Definition base_blob (w : world) (e : entity) : blob :=
  Blob (cs_attrs (class_state_of w (e_class e))) (e_values e) (e_blobs e).

(** The sub-blob reached from a blob through the given names. *)
Fixpoint blob_at (path : list string) (b : blob) : option blob :=
  match path with
  | [] => Some b
  | k :: p =>
      match dict_get k (b_blobs b) with
      | Some sb => blob_at p sb
      | None => None
      end
  end.

(** [self._attr_values[name] = value] on the sub-blob at [path]. *)
Fixpoint blob_write (path : list string) (name : string) (v : value)
    (b : blob) : blob :=
  match path with
  | [] => Blob (b_attrs b) (dict_set name v (b_values b)) (b_blobs b)
  | k :: p =>
      match dict_get k (b_blobs b) with
      | Some sb =>
          Blob (b_attrs b) (b_values b)
               (dict_set k (blob_write p name v sb) (b_blobs b))
      | None => b
      end
  end.

Definition self_blob (r : nat) (path : list string) : Py blob :=
  e ← get_entity r; w ← get_world;
  match blob_at path (base_blob w e) with
  | Some b => mret b
  | None => raise AttributeError
  end.

(** [entity.dirty()] *)
Definition dirty (r : nat) : Py unit :=
  update_entity r (fun e => with_dirty e true).

(** The cache relocation of [_set_attr_val]:
    [if old_key in cache: del cache[old_key]] and then
    [cache[entity.key] = entity]. *)
Definition relocate_cache (r : nat) (old_key new_key : value)
    (cache : lrucache) : lrucache :=
  lru_set new_key r
          (if lru_contains old_key cache then lru_del old_key cache
           else cache).

Definition relocate (r : nat) (old_key new_key : value) : Py unit :=
  e ← get_entity r;
  let key_name := get_key_name (e_class e) in
  update_class (e_class e) (fun cs =>
    match dict_get key_name (_caches cs) with
    | None => cs
    | Some cache =>
        with_caches cs (dict_set key_name
                                 (relocate_cache r old_key new_key cache)
                                 (_caches cs))
    end).

(** The value [_set_attr_val] commits: [Unset] as it is, any other
    value validated unless [validate] is off and finalized unless [raw]
    is on. *)
Definition checked_value (attr : Attribute) (value : value)
    (validate raw : bool) (entity : entity_view) : result py_value :=
  match value with
  | Unset => Ok Unset
  | _ =>
      match (if validate then _validate attr value entity else Ok value) with
      | Raise e => Raise e
      | Ok value => Ok (if raw then value else _finalize attr value entity)
      end
  end.

(** [DataBlob._set_attr_val], called on the sub-blob at [path] of the
    entity at address [r]. *)
Definition _set_attr_val (r : nat) (path : list string) (name : string)
    (value : value) (validate raw : bool) : Py unit :=
  self ← self_blob r path;
  attr ← match dict_get name (b_attrs self) with
         | Some a => mret a
         | None => raise KeyError
         end;
  entity ← get_entity r; w ← get_world;
  value ← lift (checked_value attr value validate raw
                              (getattr_field w entity));
  old_key ← key_of r;
  update_entity r (fun e =>
    with_blob e (blob_write path name value (base_blob w e)));;
  new_key ← key_of r;
  (if decide (new_key = old_key) then mret tt
   else
     update_entity r (fun e =>
       with_tags e (dict_set "_old_key" old_key (tags e)));;
     relocate r old_key new_key);;
  dirty r.

(** One iteration of the loop of [DataBlob.deserialize], on the sub-blob
    at [path]; a record is taken to be well typed (a value for a field,
    a mapping for a sub-blob), anything else raises. *)
Fixpoint deserialize_item (r : nat) (path : list string) (key : string)
    (dv : data) {struct dv} : Py unit :=
  self ← self_blob r path;
  match dict_get key (b_attrs self) with
  | Some attr =>
      match dv with
      | DVal value =>
          let value := match value with
                       | Unset => Unset
                       | _ => _deserialize attr value
                       end in
          _set_attr_val r path key value false true
      | _ => raise TypeError
      end
  | None =>
      if dict_has key (b_blobs self) then
        match dv with
        | DDict sd =>
            (fix items (l : list (string * data)) : Py unit :=
               match l with
               | [] => mret tt
               | (k, x) :: l' =>
                   deserialize_item r (path ++ [key])%list k x;; items l'
               end) sd
        | _ => raise TypeError
        end
      else mret tt        (* log.warn: unused data *)
  end.

(** [DataBlob.deserialize] *)
Fixpoint deserialize (r : nat) (path : list string) (d : record) : Py unit :=
  match d with
  | [] => mret tt
  | (k, x) :: d' => deserialize_item r path k x;; deserialize r path d'
  end.

(** [DataBlob._update], called on the base blob of the entity at [r]:
    [self._attrs] is the class's own dictionary and is updated in
    place. *)
Definition _update (r : nat) (other : blob) : Py unit :=
  e ← get_entity r;
  update_entity r (fun e =>
    with_fields e (e_values e) (dict_update (e_blobs e) (b_blobs other)));;
  update_class (e_class e) (fun cs =>
    with_attrs cs (dict_update (cs_attrs cs) (b_attrs other)));;
  update_entity r (fun e =>
    with_fields e (dict_update (e_values e) (b_values other)) (e_blobs e)).

(** ** Identifiers *)

Definition _uid_timecode_multiplier : Z := 10000.
Definition _uid_timecode_charset : string :=
  "0123456789aAbBcCdDeEfFgGhHijJkKLmMnNopPqQrRstTuUvVwWxXyYzZ".

Fixpoint base_n_digits (fuel : nat) (base n : Z) : list Z :=
  match fuel with
  | O => []
  | S fuel' =>
      if (n <? base)%Z then [n]
      else (base_n_digits fuel' base (n / base) ++ [n mod base])%list
  end.

(** Modelled from the spec: [utils.funcs.int_to_base_n] is not among the
    sources.  The timecode is rendered in the base given by the length
    of the alphabet, most significant digit first. *)
Definition int_to_base_n (n : Z) (charset : string) : string :=
  let cs := list_ascii_of_string charset in
  string_of_list_ascii
    (map (fun d => nth (Z.to_nat d) cs "0"%char)
         (base_n_digits (S (Z.to_nat (Z.log2 n)))
                        (Z.of_nat (length cs)) n)).

(** The counter update of [Entity.make_uid]; the clock reads seconds
    with a fraction, so the product and the counter need not be
    whole. *)
Definition next_timecode (now counter : Q) : Q :=
  let big_time := (now * inject_Z _uid_timecode_multiplier)%Q in
  if negb (Qle_bool big_time counter) then big_time else (counter + 1)%Q.

(** Modelled from the spec: [utils.funcs.int_to_base_n] is not among the
    sources; it renders an integer, and of a counter that is not whole
    it renders the whole part, as [int] takes it. *)
Definition whole_part (t : Q) : Z := Z.quot (Qnum t) (Z.pos (Qden t)).

(** [Entity.make_uid]; the clock [TIMERS.time] is read in seconds, not
    rounded. *)
Definition make_uid (cls : pyclass) : Py value :=
  w ← get_world;
  let timecode := next_timecode (timers_time w) (uid_timecode w) in
  modify (set_uid_timecode timecode);;
  mret (VStr (c_uid_code cls +:+ "-"
              +:+ int_to_base_n (whole_part timecode) _uid_timecode_charset)).

(** ** class Entity *)

(** [Entity.serialize] *)
Definition entity_serialize (r : nat) : Py record :=
  e ← get_entity r; w ← get_world;
  d ← lift (serialize (base_blob w e));
  let d := dict_set "uid" (DVal (_uid e)) d in
  let d := dict_set "flags" (DFlags (flags e)) d in
  mret (dict_set "tags"
          (DDict (map (fun kv => (fst kv, DVal (snd kv))) (tags e))) d).

(** The tags of a record; each one holds a plain value. *)
Fixpoint tags_of_data (d : list (string * data))
  : result (dict string value) :=
  match d with
  | [] => Ok []
  | (k, DVal v) :: d' =>
      match tags_of_data d' with
      | Ok t => Ok ((k, v) :: t)
      | Raise e => Raise e
      end
  | _ => Raise TypeError
  end.

(** [Entity.deserialize] *)
Definition entity_deserialize (r : nat) (d : record) : Py unit :=
  d ← match dict_get "uid" d with
      | None => mret d
      | Some (DVal u) =>
          update_entity r (fun e => with_uid e u);;
          mret (dict_del "uid" d)
      | Some _ => raise TypeError
      end;
  d ← match dict_get "flags" d with
      | None => mret d
      | Some (DFlags fs) =>
          update_entity r (fun e => with_flags e (flags_add fs (flags e)));;
          mret (dict_del "flags" d)
      | Some _ => raise TypeError
      end;
  d ← match dict_get "tags" d with
      | None => mret d
      | Some (DDict td) =>
          t ← lift (tags_of_data td);
          update_entity r (fun e => with_tags e []);;
          update_entity r (fun e => with_tags e (dict_update (tags e) t));;
          mret (dict_del "tags" d)
      | Some _ => raise TypeError
      end;
  deserialize r [] d.

(** [cls._base_blob(self)]: a new instance of the class's base blob. *)
Definition base_blob_new (w : world) (cls : pyclass) : blob :=
  let cs := class_state_of w cls in
  Blob (cs_attrs cs) (default_values (cs_attrs cs))
       (instantiate_all (cs_blobs cs)).

(** [_build_base_blob] of [Entity.__init__]: the bases first, then the
    class itself unless it was merged already. *)
Fixpoint _build_base_blob (r : nat) (cls : pyclass) (checked : gset nat)
  : Py (gset nat) :=
  match cls with
  | PyClass cid _ is_entity _ _ _ bases =>
      checked ←
        (fix over_bases (l : list pyclass) (checked : gset nat) :=
           match l with
           | [] => mret checked
           | base :: l' =>
               checked ← _build_base_blob r base checked;
               over_bases l' checked
           end) bases checked;
      if is_entity && negb (bool_decide (cid ∈ checked)) then
        w ← get_world;
        _update r (base_blob_new w cls);;
        mret ({[cid]} ∪ checked)
      else mret checked
  end.

Definition alloc (e : entity) : Py nat := fun w =>
  (Ok (length (heap w)), set_heap (heap w ++ [e])%list w).

Definition set_instances (cls : pyclass) (f : dict value nat -> dict value nat)
  : Py unit :=
  update_class cls (fun cs => with_instances cs (f (_instances cs))).

(** A mutation of the cache object registered under [key_name]. *)
Definition update_cache (cls : pyclass) (key_name : string)
    (f : lrucache -> lrucache) : Py unit :=
  update_class cls (fun cs =>
    match dict_get key_name (_caches cs) with
    | None => cs
    | Some cache => with_caches cs (dict_set key_name (f cache) (_caches cs))
    end).

(** [cls._caches.get(cls.get_key_name())] *)
Definition key_cache (w : world) (cls : pyclass) : option lrucache :=
  dict_get (get_key_name cls) (_caches (class_state_of w cls)).

(** [Entity.__init__], after the object is allocated: the schema is
    merged, the data read and an identifier made if none came with the
    data. *)
Definition construct (r : nat) (cls : pyclass) (d : option record)
  : Py unit :=
  _build_base_blob r cls ∅;;
  match d with
  | Some d => entity_deserialize r d
  | None => mret tt
  end;;
  e ← get_entity r;
  if decide (_uid e = VNone)
  then uid ← make_uid cls; update_entity r (fun e => with_uid e uid)
  else mret tt.

(** The end of [Entity.__init__]: the instance table and the key cache. *)
Definition register_instance (r : nat) (cls : pyclass) : Py unit :=
  e ← get_entity r;
  set_instances cls (dict_set (_uid e) r);;
  w ← get_world;
  match key_cache w cls with
  | None => mret tt
  | Some cache =>
      key ← key_of r;
      if lru_contains key cache then mret tt
      else
        key ← key_of r;
        update_cache cls (get_key_name cls) (lru_set key r)
  end.

(** [Entity.__init__]: [cls(data, active, savable)] returns the address
    of the new entity. *)
Definition Entity_init (cls : pyclass) (d : option record)
    (act savable : bool) : Py nat :=
  w ← get_world;
  let b0 := base_blob_new w cls in
  r ← alloc {| e_class := cls; e_values := b_values b0;
               e_blobs := b_blobs b0; _dirty := false;
               _savable := savable; _uid := VNone; active := act;
               flags := []; tags := [] |};
  construct r cls d;;
  register_instance r cls;;
  mret r.

(** [setattr(entity, name, value)] for a registered field: the property
    setter made by [register_attr], which ignores writes to a read-only
    attribute.  [uid] is a property without a setter. *)
Definition entity_setattr (r : nat) (name : string) (v : value) : Py unit :=
  e ← get_entity r; w ← get_world;
  match class_member w name (e_class e) with
  | Some (PAttr a) =>
      if read_only a then mret tt else _set_attr_val r [] name v true false
  | _ => raise AttributeError
  end.

(** The setter of the property [Entity.key] *)
Definition set_key (r : nat) (new_key : value) : Py unit :=
  e ← get_entity r;
  match c_store_key (e_class e) with
  | KeyTriple _ _ setter =>
      l ← lift (setter new_key);
      (fix assign (l : list (string * value)) : Py unit :=
         match l with
         | [] => mret tt
         | (n, v) :: l' => entity_setattr r n v;; assign l'
         end) l
  | KeyName name => entity_setattr r name new_key
  end.

Definition update_store (sid : nat) (f : store -> store) : Py unit :=
  modify (fun w => set_store sid (f (store_of w sid)) w).

(** [Entity.save] *)
Definition save (r : nat) : Py unit :=
  e ← get_entity r;
  match c_store (e_class e) with
  | None => mret tt                    (* log.warn: not savable *)
  | Some sid =>
      if negb (_savable e) then mret tt
      else
        match dict_get "_old_key" (tags e) with
        | Some old_key =>
            w ← get_world;
            (if store_has old_key (store_of w sid)
             then update_store sid (store_delete old_key)
             else mret tt);;
            update_entity r (fun e =>
              with_tags e (dict_del "_old_key" (tags e)))
        | None => mret tt
        end;;
        d ← entity_serialize r;
        key ← key_of r;
        update_store sid (store_put key d);;
        update_entity r (fun e => with_dirty e false)
  end.

(** ** Entity.find *)

(** The [match] argument: [all] or [any]. *)
Inductive match_policy := MatchAll | MatchAny.

Definition apply_match (m : match_policy) (bs : list bool) : bool :=
  match m with
  | MatchAll => forallb id bs
  | MatchAny => existsb id bs
  end.

(** The unpacking loop [attr, value, *attr_value_pairs = ...]. *)
Fixpoint unpack_pairs (args : list value) : result (list (value * value)) :=
  match args with
  | [] => Ok []
  | [_] => Raise ValueError
  | a :: v :: rest =>
      match unpack_pairs rest with
      | Ok ps => Ok ((a, v) :: ps)
      | Raise e => Raise e
      end
  end.

(** [getattr(entity, _attr)] in [find]: the key, the identifier or a
    registered field. *)
Definition getattr (w : world) (e : entity) (a : value) : result value :=
  match a with
  | VStr name =>
      if decide (name = "key") then entity_key w e
      else match getattr_field w e name with
           | Some v => Ok v
           | None => Raise AttributeError
           end
  | _ => Raise TypeError
  end.

(** [[getattr(entity, _attr) == _value for _attr, _value in pairs]] *)
Fixpoint entity_matches (w : world) (e : entity) (pairs : list (value * value))
  : result (list bool) :=
  match pairs with
  | [] => Ok []
  | (a, v) :: ps =>
      match getattr w e a with
      | Raise ex => Raise ex
      | Ok x =>
          match entity_matches w e ps with
          | Raise ex => Raise ex
          | Ok bs => Ok (bool_decide (x = v) :: bs)
          end
      end
  end.

(** [data.get(_attr) == _value] *)
Definition data_get_eq (d : record) (a v : value) : bool :=
  match a with
  | VStr name =>
      match dict_get name d with
      | None => bool_decide (VNone = v)
      | Some (DVal x) => bool_decide (x = v)
      | Some _ => false
      end
  | _ => bool_decide (VNone = v)
  end.

Definition data_matches (d : record) (pairs : list (value * value))
  : list bool :=
  map (fun av => data_get_eq d (fst av) (snd av)) pairs.

(** [n and len(found) >= n] *)
Definition limit_met (n : Z) (found : gset nat) : bool :=
  negb (n =? 0)%Z && (n <=? Z.of_nat (size found))%Z.

(** The loop over [cls._instances.values()]; the boolean of the result
    is false once the loop has left through [break]. *)
Fixpoint scan_instances (w : world) (pairs : list (value * value))
    (m : match_policy) (n : Z) (refs : list nat)
    (found : gset nat) (checked_keys : gset value)
  : result (gset nat * gset value) :=
  match refs with
  | [] => Ok (found, checked_keys)
  | r :: refs' =>
      match heap w !! r with
      | None => Raise AttributeError
      | Some e =>
          match entity_matches w e pairs with
          | Raise ex => Raise ex
          | Ok matches =>
              let found' := if apply_match m matches
                            then {[r]} ∪ found else found in
              if apply_match m matches && limit_met n found'
              then Ok (found', checked_keys)
              else
                match entity_key w e with
                | Raise ex => Raise ex
                | Ok k =>
                    scan_instances w pairs m n refs' found'
                                   ({[k]} ∪ checked_keys)
                end
          end
      end
  end.

Definition set_dirty_flag (r : nat) (d : bool) : Py unit :=
  update_entity r (fun e => with_dirty e d).

(** The loop over [cls._store.keys()]. *)
Fixpoint scan_store (cls : pyclass) (sid : nat) (pairs : list (value * value))
    (m : match_policy) (n : Z) (keys : list value)
    (found : gset nat) (checked_keys : gset value) : Py (gset nat) :=
  match keys with
  | [] => mret found
  | key :: keys' =>
      if bool_decide (key ∈ checked_keys)
      then scan_store cls sid pairs m n keys' found checked_keys
      else
        w ← get_world;
        match store_get key (store_of w sid) with
        | Some ((_ :: _) as d) =>
            if apply_match m (data_matches d pairs) then
              r ← Entity_init cls (Some d) false true;
              set_dirty_flag r false;;
              let found' := {[r]} ∪ found in
              if limit_met n found' then mret found'
              else scan_store cls sid pairs m n keys' found' checked_keys
            else scan_store cls sid pairs m n keys' found checked_keys
        | _ => scan_store cls sid pairs m n keys' found checked_keys
        end
  end.

Inductive find_result :=
| FoundOne (r : option nat)        (* [n == 1] *)
| FoundList (l : list nat).

(** [Entity.find]: the positional arguments, then [cache], [store],
    [match] and [n]. *)
Definition find (cls : pyclass) (args : list value) (cache store : bool)
    (m : match_policy) (n : Z) : Py find_result :=
  pairs ← lift (unpack_pairs args);
  w ← get_world;
  '(found, checked_keys) ←
     (if cache
      then lift (scan_instances w pairs m n
                   (dict_values (_instances (class_state_of w cls))) ∅ ∅)
      else mret (∅, ∅));
  found ←
    (if store && ((n =? 0)%Z || (Z.of_nat (size found) <? n)%Z)
     then match c_store cls with
          | None => raise AttributeError
          | Some sid =>
              scan_store cls sid pairs m n
                         (store_keys (store_of w sid)) found checked_keys
          end
     else mret found);
  if (n =? 1)%Z
  then mret (FoundOne (head (elements found)))
  else mret (FoundList (elements found)).

(** ** Entity.load *)

(** The [default] argument: an exception class or any other value. *)
Inductive load_default := DefaultExn (e : exn) | DefaultValue (v : value).

Inductive loaded := LoadedEntity (r : nat) | LoadedDefault (v : value).

(** The first instance whose key is [key], in registry order. *)
Fixpoint first_with_key (w : world) (key : value) (refs : list nat)
  : result (option nat) :=
  match refs with
  | [] => Ok None
  | r :: refs' =>
      match heap w !! r with
      | None => Raise AttributeError
      | Some e =>
          match entity_key w e with
          | Raise ex => Raise ex
          | Ok k => if decide (k = key) then Ok (Some r)
                    else first_with_key w key refs'
          end
      end
  end.

(** The store part of [_find] in [load]. *)
Definition load_from_store (cls : pyclass) (key : value) : Py (option nat) :=
  match c_store cls with
  | None => mret None
  | Some sid =>
      w ← get_world;
      match store_get key (store_of w sid) with
      | Some ((_ :: _) as d) =>
          r ← Entity_init cls (Some d) false true;
          set_dirty_flag r false;;
          mret (Some r)
      | _ => mret None
      end
  end.

(** [_find] of [Entity.load] *)
Definition load_find (cls : pyclass) (key : value) (from_cache : bool)
  : Py (option nat) :=
  if from_cache then
    w ← get_world;
    let key_name := get_key_name cls in
    let instances := _instances (class_state_of w cls) in
    match (if decide (key_name = "uid") then dict_get key instances
           else None) with
    | Some r => mret (Some r)
    | None =>
        match (match key_cache w cls with
               | Some cache =>
                   match lru_peek key cache with
                   | Some r => Some (r, cache)
                   | None => None
                   end
               | None => None
               end) with
        | Some (r, cache) =>
            update_cache cls key_name (lru_touch key);;
            mret (Some r)
        | None =>
            hit ← (if decide (key_name = "uid") then mret None
                   else lift (first_with_key w key (dict_values instances)));
            match hit with
            | Some r => mret (Some r)
            | None => load_from_store cls key
            end
        end
    end
  else load_from_store cls key.

(** [Entity.load(key, from_cache, default)] *)
Definition load (cls : pyclass) (key : value) (from_cache : bool)
    (default : load_default) : Py loaded :=
  found ← load_find cls key from_cache;
  match found with
  | Some r =>
      w ← get_world;
      match key_cache w cls with
      | Some cache =>
          if lru_contains key cache then mret tt
          else update_cache cls (get_key_name cls) (lru_set key r)
      | None => mret tt
      end;;
      mret (LoadedEntity r)
  | None =>
      match default with
      | DefaultExn e => raise e
      | DefaultValue v => mret (LoadedDefault v)
      end
  end.

(** ** Entity.clone *)
Definition clone (r : nat) (new_key : value) : Py nat :=
  e ← get_entity r;
  match c_store (e_class e) with
  | None => raise TypeError
  | Some sid =>
      w ← get_world;
      if store_has new_key (store_of w sid) then raise KeyError
      else
        d ← entity_serialize r;
        let d := dict_del "uid" d in
        new_entity ← Entity_init (e_class e) (Some d) false true;
        set_key new_entity new_key;;
        mret new_entity
  end.

(** ** class EntityManager and the registration decorators *)

(** [EntityManager.register]; the manager is its [_entities] table. *)
Definition register (entities : dict string pyclass) (entity : pyclass)
  : result (dict string pyclass) :=
  if negb (c_is_entity entity) then Raise TypeError
  else
    let name := c_name entity in
    if dict_has name entities then Raise AlreadyExists
    else if existsb (fun registered_entity =>
                       bool_decide (c_uid_code entity
                                    = c_uid_code registered_entity))
                    (dict_values entities)
    then Raise KeyError
    else Ok (dict_set name entity entities).

Definition with_registration (cs : class_state)
    (attrs : dict string Attribute) (blobs : dict string blob_class)
    (names : dict string member) : class_state :=
  {| cs_attrs := attrs; cs_blobs := blobs; cs_dict := names;
     _instances := _instances cs; _caches := _caches cs |}.

(** [_EntityMeta.register_attr(name)(attr_class)] *)
Definition register_attr (cls : pyclass) (name : string) (attr_class : Attribute)
  : Py unit :=
  w ← get_world;
  if class_hasattr w cls name then raise AlreadyExists
  else
    update_class cls (fun cs =>
      with_registration cs (dict_set name attr_class (cs_attrs cs))
                        (cs_blobs cs)
                        (dict_set name (PAttr attr_class) (cs_dict cs))).

(** [_EntityMeta.register_blob(name)(blob_class)] *)
Definition register_blob (cls : pyclass) (name : string) (bc : blob_class)
  : Py unit :=
  w ← get_world;
  if class_hasattr w cls name then raise AlreadyExists
  else
    update_class cls (fun cs =>
      with_registration cs (cs_attrs cs)
                        (dict_set name bc (cs_blobs cs))
                        (dict_set name PBlob (cs_dict cs))).

(** A run of identifier requests: before each one the clock shows some
    reading; each request is recorded as the counter it left and the
    identifier it returned. *)
Fixpoint make_uids (calls : list (Q * pyclass)) : Py (list (Q * value)) :=
  match calls with
  | [] => mret []
  | (now, cls) :: rest =>
      modify (set_time now);;
      uid ← make_uid cls;
      w ← get_world;
      out ← make_uids rest;
      mret ((uid_timecode w, uid) :: out)
  end.


(** The state a committed write leaves: the entity [e1], which holds
    the new value already, is marked dirty; when its key moved from
    [old_key] to [new_key] it is tagged and its cache entry relocated. *)
Definition committed (r : nat) (old_key new_key : value) (e1 : entity)
    (w : world) : world :=
  if decide (new_key = old_key)
  then set_heap (<[r := with_dirty e1 true]> (heap w)) w
  else
    let key_name := get_key_name (e_class e1) in
    let cs := class_state_of w (e_class e1) in
    set_heap
      (<[r := with_dirty
                (with_tags e1 (dict_set "_old_key" old_key (tags e1)))
                true]> (heap w))
      (set_class_state (e_class e1)
         match dict_get key_name (_caches cs) with
         | None => cs
         | Some cache =>
             with_caches cs
               (dict_set key_name (relocate_cache r old_key new_key cache)
                         (_caches cs))
         end w).

(** ** The classes of the repository and of the examples *)

Definition object_ : pyclass := PyClass 0 "object" false "" (KeyName "") None [].
Definition HasFlags : pyclass :=
  PyClass 1 "HasFlags" false "" (KeyName "") None [object_].
Definition HasTags : pyclass :=
  PyClass 2 "HasTags" false "" (KeyName "") None [object_].
Definition HasWeaks : pyclass :=
  PyClass 3 "HasWeaks" false "" (KeyName "") None [object_].

(** [class Entity(HasFlags, HasTags, HasWeaks)] *)
Definition Entity : pyclass :=
  PyClass 4 "Entity" true "E" (KeyName "uid") None
          [HasFlags; HasTags; HasWeaks].

(** [SomeEntity] of [tests/core/test_entities.py]: stored, keyed by its
    identifier. *)
Definition SomeEntity : pyclass :=
  PyClass 5 "SomeEntity" true "S" (KeyName "uid") (Some 0%nat) [Entity].

(** An entity class stored under one of its fields, ["name"]. *)
Definition Named : pyclass :=
  PyClass 6 "Named" true "N" (KeyName "name") (Some 1%nat) [Entity].

(** A class and a subclass of it, for schema merging. *)
Definition Parent : pyclass :=
  PyClass 7 "Parent" true "P" (KeyName "uid") None [Entity].
Definition Child : pyclass :=
  PyClass 8 "Child" true "C" (KeyName "uid") None [Parent].

(** [str.format] of a value. *)
Definition format_value (v : value) : string :=
  match v with
  | VInt z => NilZero.string_of_int (Z.to_int z)
  | VStr s => s
  | VNone => "None"
  | Unset => "Unset"
  end.

(** [s.split(c)] *)
Fixpoint split_on (c : ascii) (s : string) : list string :=
  match s with
  | EmptyString => [EmptyString]
  | String a s' =>
      if Ascii.eqb a c then EmptyString :: split_on c s'
      else match split_on c s' with
           | [] => [String a EmptyString]
           | p :: ps => String a p :: ps
           end
  end.

(** The characters [int] and [str.strip] take for blanks, among the
    ASCII ones: tab to carriage return, the four separators and the
    space. *)
Definition is_space (c : ascii) : bool :=
  match c with
  | "009" | "010" | "011" | "012" | "013"
  | "028" | "029" | "030" | "031" | " " => true
  | _ => false
  end%char.

(** [s.lstrip()] *)
Fixpoint lstrip (s : string) : string :=
  match s with
  | EmptyString => EmptyString
  | String c s' => if is_space c then lstrip s' else s
  end.

(** [s.rstrip()] *)
Fixpoint rstrip (s : string) : string :=
  match s with
  | EmptyString => EmptyString
  | String c s' =>
      match rstrip s' with
      | EmptyString => if is_space c then EmptyString else String c EmptyString
      | t => String c t
      end
  end.

(** The decimal digits. *)
Definition is_digit (c : ascii) : bool :=
  match c with
  | "0" | "1" | "2" | "3" | "4" | "5" | "6" | "7" | "8" | "9" => true
  | _ => false
  end%char.

(** The digits of a numeral in which single underscores may stand
    between digits; [after_digit] tells whether the character before
    was a digit. *)
Fixpoint digit_groups (s : string) (after_digit : bool) : option string :=
  match s with
  | EmptyString => if after_digit then Some EmptyString else None
  | String c s' =>
      if is_digit c then
        match digit_groups s' true with
        | Some ds => Some (String c ds)
        | None => None
        end
      else if Ascii.eqb c "_" && after_digit then digit_groups s' false
      else None
  end.

(** The sign a numeral may start with. *)
Definition sign_split (t : string) : bool * string :=
  match t with
  | String "-" b => (true, b)
  | String "+" b => (false, b)
  | _ => (false, t)
  end.

(** [int(s)] for a string: blanks around the numeral are dropped, a
    sign may come first, and the digits are decimal. *)
Definition parse_int (s : string) : result value :=
  let '(negative, body) := sign_split (rstrip (lstrip s)) in
  match digit_groups body false with
  | Some ds =>
      match NilEmpty.uint_of_string ds with
      | Some u =>
          Ok (VInt (Z.of_int (if negative then Decimal.Neg u
                              else Decimal.Pos u)))
      | None => Raise ValueError
      end
  | None => Raise ValueError
  end.

(** [Room.get_coord_str] of [atria/core/world.py] *)
Definition get_coord_str (self : entity_view) : result value :=
  match self "x", self "y", self "z" with
  | Some x, Some y, Some z =>
      if bool_decide (x = Unset) || bool_decide (y = Unset)
         || bool_decide (z = Unset)
      then Ok Unset
      else Ok (VStr (format_value x +:+ "," +:+ format_value y
                     +:+ "," +:+ format_value z))
  | _, _, _ => Raise AttributeError
  end.

(** [Room.set_coord_from_str]:
    [self.x, self.y, self.z = map(int, coord_str.split(","))]. *)
Definition set_coord_from_str (coord_str : value)
  : result (list (string * value)) :=
  match coord_str with
  | VStr s =>
      match map parse_int (split_on "," s) with
      | [Ok x; Ok y; Ok z] => Ok [("x", x); ("y", y); ("z", z)]
      | _ => Raise ValueError
      end
  | _ => Raise AttributeError
  end.

(** [CoordAttribute] of [atria/core/world.py], with [min] and [max]
    left at [None]. *)
Definition CoordAttribute : Attribute :=
  {| attr_default := Unset;
     read_only := false;
     _validate := fun v _ =>
       match v with VInt _ => Ok v | _ => Raise ValueError end;
     _finalize := fun v _ => v;
     _serialize := fun v => v;
     _deserialize := fun v => v |}.

(** An entity class keyed as [Room] is, by the triple over its three
    coordinates. *)
Definition Grid : pyclass :=
  PyClass 9 "Grid" true "G"
          (KeyTriple "coords" get_coord_str set_coord_from_str)
          (Some 2%nat) [Entity].

(** A plain text field. *)
Definition NameAttribute : Attribute :=
  {| attr_default := Unset;
     read_only := false;
     _validate := fun v _ =>
       match v with VStr _ => Ok v | _ => Raise ValueError end;
     _finalize := fun v _ => v;
     _serialize := fun v => v;
     _deserialize := fun v => v |}.

(** A field with the default hooks and the given default value. *)
Definition plain_attribute (d : value) : Attribute :=
  {| attr_default := d;
     read_only := false;
     _validate := fun v _ => Ok v;
     _finalize := fun v _ => v;
     _serialize := fun v => v;
     _deserialize := fun v => v |}.

Definition empty_world : world :=
  {| heap := []; classes := ∅; stores := ∅;
     uid_timecode := 0%Q; timers_time := 0%Q |}.

(** The state a computation leaves, and what it returns. *)
Definition state_after {A} (m : Py A) (w : world) : world := snd (m w).
Definition result_of {A} (m : Py A) (w : world) : result A := fst (m w).

(** The process once [entities.py] is imported: [Entity] has its
    ["version"] field. *)
Definition booted : world :=
  state_after (register_attr Entity "version" EntityVersion) empty_world.

(** The entity at an address (a blank one where there is none). *)
Definition entity_at (w : world) (r : nat) : entity :=
  default {| e_class := object_; e_values := []; e_blobs := [];
             _dirty := false; _savable := false; _uid := VNone;
             active := false; flags := []; tags := [] |}
          (heap w !! r).

(** One [Named] entity, named "A" and saved. *)
Definition named_world : world :=
  state_after (register_attr Named "name" NameAttribute;;
               r ← Entity_init Named None false true;
               set_key r (VStr "A");;
               save r) booted.

(** One [SomeEntity], saved. *)
Definition some_world : world :=
  state_after (r ← Entity_init SomeEntity None false true; save r) booted.

(** [Child] registers a field and a sub-blob before [Parent] registers
    a field and a sub-blob of the same names. *)
Definition merge_world : world :=
  state_after
    (register_attr Child "f" (plain_attribute (VInt 2));;
     register_attr Parent "f" (plain_attribute (VInt 1));;
     register_blob Child "g"
       (BlobClass [("v", plain_attribute (VInt 2))] []);;
     register_blob Parent "g"
       (BlobClass [("v", plain_attribute (VInt 1))] []))
    booted.

(** [Named] with its field registered and no instance yet. *)
Definition named_class_world : world :=
  state_after (register_attr Named "name" NameAttribute) booted.

(** A field held as a number and stored one higher, with the default
    [deserialize]: a descriptor whose hooks are not each other's
    inverse. *)
Definition ShiftedAttribute : Attribute :=
  {| attr_default := VInt 1;
     read_only := false;
     _validate := fun v _ => Ok v;
     _finalize := fun v _ => v;
     _serialize := fun v =>
       match v with VInt z => VInt (z + 1) | _ => v end;
     _deserialize := fun v => v |}.

Definition Counter : pyclass :=
  PyClass 10 "Counter" true "C" (KeyName "uid") None [Entity].

(** [Counter] with its field registered and no instance yet. *)
Definition counter_world : world :=
  state_after (register_attr Counter "n" ShiftedAttribute) booted.

(** One [Grid] entity at "1,2,3", saved. *)
Definition grid_world : world :=
  state_after (register_attr Grid "x" CoordAttribute;;
               register_attr Grid "y" CoordAttribute;;
               register_attr Grid "z" CoordAttribute;;
               r ← Entity_init Grid None false true;
               set_key r (VStr "1,2,3");;
               save r) booted.

(** The entity of [named_world] renamed to "B" and not yet saved. *)
Definition renamed_world : world :=
  state_after (_set_attr_val 0 [] "name" (VStr "B") true false) named_world.

(** [named_world] once the cache entry of its entity is deleted. *)
Definition named_uncached : world :=
  state_after (update_cache Named "name" (lru_del (VStr "A"))) named_world.

(** No registered instance answers to [key]: the three lookups [load]
    makes before it reads the store all miss. *)
Definition no_instance (w : world) (cls : pyclass) (key : value) : Prop :=
  (get_key_name cls = "uid" ->
   dict_get key (_instances (class_state_of w cls)) = None)
  /\ (forall cache, key_cache w cls = Some cache -> lru_peek key cache = None)
  /\ (get_key_name cls <> "uid" ->
      first_with_key w key (dict_values (_instances (class_state_of w cls)))
      = Ok None).




(** ** Notions used in the proofs *)



(** A computation keeps a relation between the states before and after
    it, whether it returns or raises. *)
Definition keeps {A} (R : relation world) (m : Py A) : Prop :=
  forall w res w', m w = (res, w') -> R w w'.

Definition kept {T} (obs : world -> T) : relation world :=
  fun w w' => obs w' = obs w.

Definition entity_blind {T} (r : nat) (P : relation entity)
    (obs : world -> T) : Prop :=
  forall w e e', heap w !! r = Some e -> P e e' ->
    obs (set_heap (<[r := e']> (heap w)) w) = obs w.

Definition class_blind {T} (P : relation class_state) (obs : world -> T)
  : Prop :=
  forall w cls cs', P (class_state_of w cls) cs' ->
    obs (set_class_state cls cs' w) = obs w.

Definition counter_blind {T} (obs : world -> T) : Prop :=
  forall w t, obs (set_uid_timecode t w) = obs w.

Definition store_blind {T} (obs : world -> T) : Prop :=
  forall w sid s, obs (set_store sid s w) = obs w.

(** Changes of an entity that leave its class, its flags for saving and
    activity, its identifier and its flags alone. *)
Record same_shell (e e' : entity) : Prop := {
  shell_class : e_class e' = e_class e;
  shell_savable : _savable e' = _savable e;
  shell_active : active e' = active e;
  shell_uid : _uid e' = _uid e;
  shell_flags : flags e' = flags e
}.

(** Changes of an entity that leave its class and its flags for saving
    and activity alone. *)
Record same_identity (e e' : entity) : Prop := {
  ident_class : e_class e' = e_class e;
  ident_savable : _savable e' = _savable e;
  ident_active : active e' = active e
}.

(** Changes of a class that touch its caches only. *)
Record cache_change (cs cs' : class_state) : Prop := {
  cc_attrs : cs_attrs cs' = cs_attrs cs;
  cc_blobs : cs_blobs cs' = cs_blobs cs;
  cc_dict : cs_dict cs' = cs_dict cs;
  cc_instances : _instances cs' = _instances cs
}.

(** Changes of a class that leave what registration wrote alone, apart
    from the attribute table. *)
Record table_change (cs cs' : class_state) : Prop := {
  tc_blobs : cs_blobs cs' = cs_blobs cs;
  tc_dict : cs_dict cs' = cs_dict cs
}.

(** Changes of a class that leave what registration wrote alone. *)
Record registry_change (cs cs' : class_state) : Prop := {
  rc_attrs : cs_attrs cs' = cs_attrs cs;
  rc_blobs : cs_blobs cs' = cs_blobs cs;
  rc_dict : cs_dict cs' = cs_dict cs
}.

(** What constructing the entity at [r] leaves alone. *)
Record heap_frame (r : nat) (w w' : world) : Prop := {
  hf_length : length (heap w') = length (heap w);
  hf_other : forall r', r' <> r -> heap w' !! r' = heap w !! r';
  hf_class : e_class <$> heap w' !! r = e_class <$> heap w !! r;
  hf_savable : _savable <$> heap w' !! r = _savable <$> heap w !! r;
  hf_active : active <$> heap w' !! r = active <$> heap w !! r;
  hf_stores : stores w' = stores w;
  hf_dict : forall c, cs_dict (class_state_of w' c) = cs_dict (class_state_of w c);
  hf_blobs : forall c, cs_blobs (class_state_of w' c) = cs_blobs (class_state_of w c)
}.

(** ** Deserialization without the entity *)

(** A hook guarded as the code guards it: [if value is not Unset]. *)
Definition skip_unset (hook : value -> value) (v : value) : value :=
  match v with Unset => Unset | _ => hook v end.

(** What one item of a record does to a blob when it is deserialized
    into it: the values [DataBlob.deserialize] commits, without the
    entity around them; [None] where the item is not of the type the
    blob expects and deserializing raises. *)
Fixpoint load_item (key : string) (dv : data) (b : blob) {struct dv}
  : option blob :=
  match dict_get key (b_attrs b) with
  | Some attr =>
      match dv with
      | DVal v =>
          Some (Blob (b_attrs b)
                     (dict_set key (skip_unset (_deserialize attr) v)
                               (b_values b))
                     (b_blobs b))
      | _ => None
      end
  | None =>
      match dict_get key (b_blobs b) with
      | Some sb =>
          match dv with
          | DDict sd =>
              match (fix items (l : list (string * data)) (sb : blob) :=
                       match l with
                       | [] => Some sb
                       | (k, x) :: l' =>
                           match load_item k x sb with
                           | Some sb' => items l' sb'
                           | None => None
                           end
                       end) sd sb with
              | Some sb' =>
                  Some (Blob (b_attrs b) (b_values b)
                             (dict_set key sb' (b_blobs b)))
              | None => None
              end
          | _ => None
          end
      | None => Some b
      end
  end.

(** What a record does to a blob when it is deserialized into it. *)
Fixpoint load_record (d : record) (b : blob) : option blob :=
  match d with
  | [] => Some b
  | (k, x) :: d' =>
      match load_item k x b with
      | Some b' => load_record d' b'
      | None => None
      end
  end.

(** The blob with the sub-blob at [path] replaced. *)
Fixpoint blob_put (path : list string) (b' : blob) (root : blob) : blob :=
  match path with
  | [] => b'
  | k :: p =>
      match dict_get k (b_blobs root) with
      | Some sb =>
          Blob (b_attrs root) (b_values root)
               (dict_set k (blob_put p b' sb) (b_blobs root))
      | None => root
      end
  end.

(** The state of the entity's blob after a run, as a pure function of
    the state before. *)
Definition blob_becomes (r : nat) (w w' : world) (e : entity) (b : blob) : Prop :=
  exists e', heap w' !! r = Some e' /\ same_shell e e' /\ base_blob w' e' = b.

(** The entry [serialize] writes for a field. *)
Definition attr_entry (values : dict string value) (ka : string * Attribute)
  : string * data :=
  (ka.1, DVal (skip_unset (_serialize ka.2)
                          (default VNone (dict_get ka.1 values)))).

(** The loop of [serialize] over the sub-blobs. *)
Fixpoint serialize_blobs (l : list (string * blob)) (acc : result record)
  : result record :=
  match l with
  | [] => acc
  | (k, sb) :: l' =>
      match acc with
      | Raise e => Raise e
      | Ok d =>
          match serialize sb with
          | Raise e => Raise e
          | Ok sd => serialize_blobs l' (Ok (dict_set k (DDict sd) d))
          end
      end
  end.

(** The entry [serialize] writes for a sub-blob. *)
Definition blob_entry (kb : string * blob) (kx : string * data) : Prop :=
  kx.1 = kb.1 /\ exists sd, serialize kb.2 = Ok sd /\ kx.2 = DDict sd.

(** The descriptor reads back the value it wrote, and does not write
    the sentinel for it. *)
Definition hooks_invert (a : Attribute) (v : value) : Prop :=
  v <> Unset ->
  _serialize a v <> Unset /\ _deserialize a (_serialize a v) = v.

(** A blob that holds a value for each of its fields and no other,
    names no sub-blob twice, and whose descriptors read back what they
    write for the values held; so for its sub-blobs. *)
Inductive storable : blob -> Prop :=
| storable_blob attrs values blobs :
    dict_keys values = dict_keys attrs ->
    NoDup (dict_keys blobs) ->
    (forall k a v, (k, a) ∈ attrs -> dict_get k values = Some v ->
                   hooks_invert a v) ->
    Forall (fun kb => storable kb.2) blobs ->
    storable (Blob attrs values blobs).

(** Two blobs of one schema: the same attribute table, values under
    the same names, sub-blobs of one schema under the same names. *)
Inductive same_schema : blob -> blob -> Prop :=
| same_schema_blob attrs values0 values blobs0 blobs :
    dict_keys values0 = dict_keys values ->
    Forall2 (fun kb0 kb => kb0.1 = kb.1 /\ same_schema kb0.2 kb.2)
            blobs0 blobs ->
    same_schema (Blob attrs values0 blobs0) (Blob attrs values blobs).

(** The key of the entity can be read whatever its fields hold. *)
Definition key_total (w : world) (e : entity) : Prop :=
  forall values blobs,
    exists k, entity_key w (with_fields e values blobs) = Ok k.

(** The registered names of every class are what they were. *)
Definition dict_kept (w w' : world) : Prop :=
  forall c, cs_dict (class_state_of w' c) = cs_dict (class_state_of w c).

(** A blob that holds a value for each of its fields, in the order of
    its schema; so for its sub-blobs. *)
Inductive aligned : blob -> Prop :=
| aligned_blob attrs values blobs :
    dict_keys values = dict_keys attrs ->
    Forall (fun kb => aligned kb.2) blobs ->
    aligned (Blob attrs values blobs).

(** The fields of the entity at [r] hold the defaults of its schema. *)
Definition fresh_fields (r : nat) (w : world) : Prop :=
  exists e, heap w !! r = Some e
    /\ e_values e = default_values (cs_attrs (class_state_of w (e_class e)))
    /\ Forall (fun kb => aligned kb.2) (e_blobs e).

(** A step that leaves the fields of the entity at [r] at their defaults
    if they were. *)
Definition stays_fresh (r : nat) : relation world :=
  fun w w' => fresh_fields r w -> fresh_fields r w'.

(** A blob whose schema can be stored: no name twice among its fields
    and its sub-blobs, and descriptors that read back what they write
    for the values held; so for its sub-blobs. *)
Inductive sound : blob -> Prop :=
| sound_blob attrs values blobs :
    NoDup (dict_keys attrs) ->
    NoDup (dict_keys blobs) ->
    (forall k, k ∈ dict_keys attrs -> k ∉ dict_keys blobs) ->
    (forall k a, (k, a) ∈ attrs ->
                 hooks_invert a (default VNone (dict_get k values))) ->
    Forall (fun kb => sound kb.2) blobs ->
    sound (Blob attrs values blobs).

(** A descriptor whose hooks answer [junk] for the sentinel and are
    otherwise those of [a]. *)
Definition spoil (junk : value) (a : Attribute) : Attribute :=
  {| attr_default := attr_default a; read_only := read_only a;
     _validate := _validate a; _finalize := _finalize a;
     _serialize := fun v => match v with
                            | Unset => junk
                            | _ => _serialize a v
                            end;
     _deserialize := fun v => match v with
                              | Unset => junk
                              | _ => _deserialize a v
                              end |}.

(** The table with every descriptor spoiled. *)
Definition spoil_attrs (junk : value) (attrs : dict string Attribute)
  : dict string Attribute :=
  map (fun ka => (ka.1, spoil junk ka.2)) attrs.

(** The blob with every descriptor spoiled. *)
Fixpoint spoil_blob (junk : value) (b : blob) : blob :=
  match b with
  | Blob attrs values blobs =>
      Blob (spoil_attrs junk attrs) values
           ((fix all (l : list (string * blob)) :=
               match l with
               | [] => []
               | (k, sb) :: l' => (k, spoil_blob junk sb) :: all l'
               end) blobs)
  end.

(** The sub-blobs with every descriptor spoiled. *)
Definition spoil_blobs (junk : value) (blobs : list (string * blob))
  : list (string * blob) :=
  map (fun kb => (kb.1, spoil_blob junk kb.2)) blobs.

(** The state [Entity.__init__] reaches once the schema of the new
    object is merged, before data is read into it. *)
Definition fresh_world (cls : pyclass) (act savable : bool) (w : world)
  : world :=
  state_after
    (let b0 := base_blob_new w cls in
     r ← alloc {| e_class := cls; e_values := b_values b0;
                  e_blobs := b_blobs b0; _dirty := false;
                  _savable := savable; _uid := VNone; active := act;
                  flags := []; tags := [] |};
     _build_base_blob r cls ∅) w.

(** The blob of a new instance of [cls], before data is read into it. *)
Definition fresh_blob (cls : pyclass) (w : world) : blob :=
  let wb := fresh_world cls false true w in
  base_blob wb (entity_at wb (length (heap w))).

(** What [Entity.deserialize] hands to the blob: the record without the
    identifier, the flags and the tags. *)
Definition blob_record (d : record) : record :=
  dict_del "tags" (dict_del "flags" (dict_del "uid" d)).

(** Changes of an entity that leave its class and its fields alone. *)
Record same_fields (e e' : entity) : Prop := {
  fields_class : e_class e' = e_class e;
  fields_values : e_values e' = e_values e;
  fields_blobs : e_blobs e' = e_blobs e;
  fields_savable : _savable e' = _savable e;
  fields_active : active e' = active e
}.

(** The record [Entity.serialize] makes of the blob's record. *)
Definition entity_record (e : entity) (bd : record) : record :=
  dict_set "tags"
    (DDict (map (fun kv => (fst kv, DVal (snd kv))) (tags e)))
    (dict_set "flags" (DFlags (flags e))
       (dict_set "uid" (DVal (_uid e)) bd)).

(** [Entity.exists] *)
Definition Entity_exists (cls : pyclass) (key : value) : Py bool :=
  w ← get_world;
  if match c_store cls with
     | Some sid => store_has key (store_of w sid)
     | None => false
     end
  then mret true
  else if decide (get_key_name cls = "uid")
  then mret (dict_has key (_instances (class_state_of w cls)))
  else
    found ← lift (first_with_key w key
                    (dict_values (_instances (class_state_of w cls))));
    mret (match found with Some _ => true | None => false end).

(** [Entity.delete] *)
Definition delete (r : nat) : Py unit :=
  e ← get_entity r;
  match c_store (e_class e) with
  | None => mret tt
  | Some sid => key ← key_of r; update_store sid (store_delete key)
  end.

(** [Entity.revert]; the store's [get] without a default raises
    [KeyError] for a key it does not hold, as does the lookup of
    ["uid"] in a record that has none. *)
Definition revert (r : nat) : Py unit :=
  e ← get_entity r;
  match c_store (e_class e) with
  | None => @raise unit TypeError
  | Some sid =>
      key ← key_of r;
      w ← get_world;
      match store_get key (store_of w sid) with
      | None => @raise unit KeyError
      | Some data =>
          match dict_get "uid" data with
          | None => @raise unit KeyError
          | Some (DVal u) =>
              if decide (_uid e = u)
              then entity_deserialize r data;;
                   update_entity r (fun e => with_dirty e false)
              else @raise unit ValueError
          | Some _ => @raise unit ValueError
          end
      end
  end.

(** The classes of a manager have pairwise distinct names and pairwise
    distinct identifier codes. *)
Definition manager_ok (entities : dict string pyclass) : Prop :=
  NoDup (dict_keys entities)
  /\ NoDup (map c_uid_code (dict_values entities))
  /\ (forall n c, (n, c) ∈ entities -> c_name c = n).

(** A class reaches [base] through its bases. *)
Inductive descends (base : pyclass) : pyclass -> Prop :=
| descends_refl : descends base base
| descends_step i n b u k s bases c :
    c ∈ bases -> descends base c ->
    descends base (PyClass i n b u k s bases).

(** The entity at [r] satisfies the criteria under the policy [m]. *)
Definition matches (w : world) (pairs : list (value * value))
    (m : match_policy) (r : nat) : Prop :=
  exists e bs, heap w !! r = Some e
               /\ entity_matches w e pairs = Ok bs
               /\ apply_match m bs = true.

(** The character does not occur in the string. *)
Fixpoint lacks (c : ascii) (s : string) : Prop :=
  match s with
  | EmptyString => True
  | String a s' => a <> c /\ lacks c s'
  end.

(** The identifier [Entity.deserialize] leaves: the one the record
    names, or the entity's own where it names none. *)
Definition uid_of (d : record) (e : entity) : value :=
  match dict_get "uid" d with
  | Some (DVal u) => u
  | _ => _uid e
  end.

(** Two [Named] entities, "A" saved and "B" not. *)
Definition two_named_world : world :=
  state_after (r ← Entity_init Named None false true;
               set_key r (VStr "B")) named_world.

(** [Entity.is_savable]: [self._store and self._savable]. *)
Definition is_savable (e : entity) : bool :=
  match c_store (e_class e) with
  | Some _ => _savable e
  | None => false
  end.

(** [Entity.is_dirty] *)
Definition is_dirty (e : entity) : bool := _dirty e.

(** The inner loop of [EntityManager.save], over the instances of one
    class; [count] is the number of entities saved so far. *)
Fixpoint save_instances (refs : list nat) (count : nat) : Py nat :=
  match refs with
  | [] => mret count
  | r :: refs' =>
      instance ← get_entity r;
      if is_savable instance && is_dirty instance
      then save r;; save_instances refs' (S count)
      else save_instances refs' count
  end.

(** The outer loop of [EntityManager.save], over the registered
    classes. *)
Fixpoint save_entities (entities : list pyclass) (count : nat) : Py nat :=
  match entities with
  | [] => mret count
  | entity :: entities' =>
      w ← get_world;
      count ← save_instances
                (dict_values (_instances (class_state_of w entity))) count;
      save_entities entities' count
  end.

(** [EntityManager.save]; the count is only logged. *)
Definition EntityManager_save (entities : dict string pyclass) : Py unit :=
  save_entities (dict_values entities) 0;; mret tt.

(** What a sweep leaves alone: the classes, the size of the heap and
    every entity that needed no saving. *)
Record swept (w w' : world) : Prop := {
  swept_classes : classes w' = classes w;
  swept_length : length (heap w') = length (heap w);
  swept_clean : forall r e, heap w !! r = Some e ->
                  is_savable e && is_dirty e = false ->
                  heap w' !! r = Some e
}.

(** The comprehension of [Entity.all]: the instances that are active, in
    the order of the instance table. *)
Fixpoint active_instances (w : world) (refs : list nat)
  : result (list nat) :=
  match refs with
  | [] => Ok []
  | r :: refs' =>
      match heap w !! r with
      | None => Raise AttributeError
      | Some instance =>
          match active_instances w refs' with
          | Ok l => Ok (if active instance then r :: l else l)
          | Raise ex => Raise ex
          end
      end
  end.

(** [Entity.all] *)
Definition Entity_all (cls : pyclass) : Py (list nat) :=
  w ← get_world;
  lift (active_instances w (dict_values (_instances (class_state_of w cls)))).

(** [issubclass(cls, base)] *)
Fixpoint issubclass (cls base : pyclass) : bool :=
  match cls with
  | PyClass i _ _ _ _ _ bases =>
      bool_decide (i = c_id base)
      || existsb (fun b => issubclass b base) bases
  end.

(** [class Command(HasFlags, HasWeaks)] of [atria/core/commands.py] *)
Definition Command : pyclass :=
  PyClass 11 "Command" false "" (KeyName "") None [HasFlags; HasWeaks].

(** What the methods of [CommandManager] are handed: a class, or
    something that is not a class, such as a name. *)
Inductive command_ref :=
| CommandClass (c : pyclass)
| CommandName (s : string).

(** [CommandManager._get_name] *)
Definition _get_name (command : command_ref) : string :=
  match command with
  | CommandClass c => c_name c
  | CommandName s => s
  end.

(** [CommandManager.__contains__]; the manager is its [_commands]
    table. *)
Definition CommandManager_contains (commands : dict string pyclass)
    (command : command_ref) : bool :=
  dict_has (_get_name command) commands.

(** [CommandManager.__getitem__] *)
Definition CommandManager_getitem (commands : dict string pyclass)
    (command : command_ref) : result pyclass :=
  match dict_get (_get_name command) commands with
  | Some c => Ok c
  | None => Raise KeyError
  end.

(** [CommandManager.register], the [_inner] that both ways of calling
    it end in. *)
Definition CommandManager_register (commands : dict string pyclass)
    (command_class : command_ref) : result (dict string pyclass) :=
  match command_class with
  | CommandName _ => Raise TypeError
  | CommandClass c =>
      if negb (issubclass c Command) then Raise TypeError
      else
        let name := c_name c in
        if dict_has name commands then Raise AlreadyExists
        else Ok (dict_set name c commands)
  end.

(** The entity of [named_world] after its version is changed and a flag
    is set on it, not saved since. *)
Definition edited_world : world :=
  state_after
    (_set_attr_val 0 [] "version" (VInt 7) true false;;
     update_entity 0 (fun e => with_flags e (flags_add ["marked"] (flags e))))
    named_world.

(** A command class, as a module of commands would define one. *)
Definition Look : pyclass :=
  PyClass 12 "Look" false "" (KeyName "") None [Command].

(** The entity of [named_world] renamed to "B" and then to "C", not
    saved in between. *)
Definition twice_renamed_world : world :=
  state_after (entity_setattr 0 "name" (VStr "B");;
               entity_setattr 0 "name" (VStr "C")) named_world.

(** The entity of [grid_world] moved to "4,5,6" by one assignment to
    its key, not yet saved. *)
Definition moved_world : world :=
  state_after (set_key 0 (VStr "4,5,6")) grid_world.
(** * Properties *)

(** ** Dictionaries *)

Section DictFacts.
Context {K V : Type} `{EqDecision K}.
Implicit Types (d : dict K V) (k : K) (v : V).

Lemma dict_get_set_eq k v d : dict_get k (dict_set k v d) = Some v.
Proof.
  induction d as [|[k' v'] d IH]; simpl.
  - by rewrite decide_True.
  - destruct (decide (k = k')) as [->|Hne]; simpl.
    + by rewrite decide_True.
    + by rewrite decide_False.
Qed.

Lemma dict_get_set_ne k k' v d :
  k ≠ k' → dict_get k' (dict_set k v d) = dict_get k' d.
Proof.
  intros Hne. induction d as [|[k0 v0] d IH]; simpl.
  - by rewrite decide_False.
  - destruct (decide (k = k0)) as [->|Hk]; simpl.
    + by rewrite !decide_False.
    + destruct (decide (k' = k0)); [done | apply IH].
Qed.

Lemma dict_get_del_eq k d : dict_get k (dict_del k d) = None.
Proof.
  induction d as [|[k' v'] d IH]; simpl; [done|].
  destruct (decide (k = k')) as [->|Hne]; simpl; [done|].
  by rewrite decide_False.
Qed.

Lemma dict_get_del_ne k k' d :
  k ≠ k' → dict_get k' (dict_del k d) = dict_get k' d.
Proof.
  intros Hne. induction d as [|[k0 v0] d IH]; simpl; [done|].
  destruct (decide (k = k0)) as [->|Hk]; simpl.
  - by rewrite decide_False.
  - destruct (decide (k' = k0)); [done | apply IH].
Qed.

Lemma dict_has_set_eq k v d : dict_has k (dict_set k v d) = true.
Proof. unfold dict_has. by rewrite dict_get_set_eq. Qed.

Lemma dict_has_del_eq k d : dict_has k (dict_del k d) = false.
Proof. unfold dict_has. by rewrite dict_get_del_eq. Qed.
End DictFacts.

(** ** Identifier generation *)

Section Timecodes.

























End Timecodes.


(** ** The state of the process *)

Lemma class_state_of_set_eq cls cs w :
  class_state_of (set_class_state cls cs w) cls = cs.
Proof. unfold class_state_of, set_class_state. simpl. by rewrite lookup_insert_eq. Qed.

Lemma class_state_of_set_ne cls cls' cs w :
  c_id cls ≠ c_id cls' ->
  class_state_of (set_class_state cls cs w) cls' = class_state_of w cls'.
Proof.
  intros Hne. unfold class_state_of, set_class_state. simpl.
  by rewrite lookup_insert_ne.
Qed.

Lemma class_state_of_set_heap h w cls :
  class_state_of (set_heap h w) cls = class_state_of w cls.
Proof. reflexivity. Qed.

Lemma class_member_own w name cls m :
  dict_get name (cs_dict (class_state_of w cls)) = Some m ->
  class_member w name cls = Some m.
Proof. destruct cls. simpl. by intros ->. Qed.

(** ** Validation *)

(** C8: when the descriptor's validation rejects the candidate value of
    a field write, [_set_attr_val] raises that error and the state of
    the process is the one before the call: the committed value stays,
    the entity is not marked dirty and no cache entry moves. *)
Theorem set_attr_val_validation_error :
  forall (r : nat) (path : list string) (name : string) (v : value)
         (raw : bool) (w : world) (entity : entity) (self : blob)
         (attr : Attribute) (ex : exn),
    heap w !! r = Some entity ->
    blob_at path (base_blob w entity) = Some self ->
    dict_get name (b_attrs self) = Some attr ->
    v <> Unset ->
    _validate attr v (getattr_field w entity) = Raise ex ->
    _set_attr_val r path name v true raw w = (Raise ex, w).
Proof.
  intros r path name v raw w entity self attr ex Hr Hself Hattr Hv Hval.
  unfold _set_attr_val, self_blob, get_entity, get_world, lift.
  unfold mbind, Py_bind, mret, Py_ret. simpl.
  rewrite Hr. simpl. rewrite Hself. simpl. rewrite Hattr. simpl.
  rewrite Hr. simpl.
  unfold checked_value. destruct v; try done; simpl; by rewrite Hval.
Qed.

(** ** Registration *)

Lemma register_attr_then_hasattr cls name a w w' :
  register_attr cls name a w = (Ok tt, w') ->
  class_hasattr w' cls name = true.
Proof.
  unfold register_attr, update_class, get_world, modify, raise.
  unfold mbind, Py_bind. simpl.
  destruct (class_hasattr w cls name); [done|].
  intros [= <-]. unfold class_hasattr.
  erewrite class_member_own; [apply orb_true_r|].
  rewrite class_state_of_set_eq. simpl. apply dict_get_set_eq.
Qed.

Lemma existsb_code_collision code (entities : dict string pyclass) n other :
  dict_get n entities = Some other ->
  c_uid_code other = code ->
  existsb (fun registered_entity =>
             bool_decide (code = c_uid_code registered_entity))
          (dict_values entities) = true.
Proof.
  intros Hget Hcode. apply existsb_exists. exists other. split.
  - clear Hcode. induction entities as [|[k v] d IH]; simpl in *; [done|].
    destruct (decide (n = k)); [left; congruence | right; auto].
  - by apply bool_decide_eq_true.
Qed.

(** C9: registering an entity class whose name is already in the
    manager raises [AlreadyExists]; registering one whose [_uid_code]
    is that of a registered class fails, with [KeyError] unless the
    name is taken too (the name is checked first); and once a field is
    registered on a class under a name, a second registration under
    that name raises [AlreadyExists] and changes nothing. *)
Theorem registration_collisions :
  (forall (entities : dict string pyclass) (entity : pyclass),
      c_is_entity entity = true ->
      dict_has (c_name entity) entities = true ->
      register entities entity = Raise AlreadyExists)
  /\ (forall (entities : dict string pyclass) (entity other : pyclass)
             (n : string),
         c_is_entity entity = true ->
         dict_get n entities = Some other ->
         c_uid_code other = c_uid_code entity ->
         register entities entity
         = Raise (if dict_has (c_name entity) entities
                  then AlreadyExists else KeyError))
  /\ (forall (cls : pyclass) (name : string) (a a' : Attribute)
             (w w' : world),
         register_attr cls name a w = (Ok tt, w') ->
         register_attr cls name a' w' = (Raise AlreadyExists, w')).
Proof.
  split; [|split].
  - intros entities entity Hent Hname. unfold register.
    by rewrite Hent, Hname.
  - intros entities entity other n Hent Hget Hcode. unfold register.
    rewrite Hent. simpl. destruct (dict_has (c_name entity) entities); [done|].
    by rewrite (existsb_code_collision _ _ _ _ Hget Hcode).
  - intros cls name a a' w w' Hreg.
    apply register_attr_then_hasattr in Hreg.
    unfold register_attr, get_world, raise. unfold mbind, Py_bind. simpl.
    by rewrite Hreg.
Qed.

(** ** Reasoning about computations *)

Lemma bind_run {A B} (m : Py A) (f : A -> Py B) w :
  (m ≫= f) w = match m w with
               | (Ok a, w1) => f a w1
               | (Raise e, w1) => (Raise e, w1)
               end.
Proof. reflexivity. Qed.

Lemma bind_ok_inv {A B} (m : Py A) (f : A -> Py B) w b w' :
  (m ≫= f) w = (Ok b, w') ->
  exists a w1, m w = (Ok a, w1) /\ f a w1 = (Ok b, w').
Proof.
  rewrite bind_run. destruct (m w) as [[a|e] w1]; [eauto | discriminate].
Qed.

Lemma bind_ok {A B} (m : Py A) (f : A -> Py B) w a w1 :
  m w = (Ok a, w1) -> (m ≫= f) w = f a w1.
Proof. intros H. by rewrite bind_run, H. Qed.

Section Keeps.
Context (R : relation world) `{!PreOrder R}.

Lemma keeps_ret {A} (a : A) : keeps R (mret a).
Proof. intros w res w' [= _ <-]. reflexivity. Qed.

Lemma keeps_raise {A} e : keeps R (@raise A e).
Proof. intros w res w' [= _ <-]. reflexivity. Qed.

Lemma keeps_lift {A} (x : result A) : keeps R (lift x).
Proof. intros w res w' [= _ <-]. reflexivity. Qed.

Lemma keeps_get_world : keeps R get_world.
Proof. intros w res w' [= _ <-]. reflexivity. Qed.

Lemma keeps_get_entity r : keeps R (get_entity r).
Proof.
  intros w res w'. unfold get_entity.
  destruct (heap w !! r); intros [= _ <-]; reflexivity.
Qed.

Lemma keeps_bind {A B} (m : Py A) (f : A -> Py B) :
  keeps R m -> (forall a, keeps R (f a)) -> keeps R (m ≫= f).
Proof.
  intros Hm Hf w res w'. rewrite bind_run.
  destruct (m w) as [[a|e] w1] eqn:E.
  - intros Hfa. etransitivity; [by eapply Hm | by eapply Hf].
  - intros [= _ <-]. by eapply Hm.
Qed.

Lemma keeps_modify (g : world -> world) :
  (forall w, R w (g w)) -> keeps R (modify g).
Proof. intros Hg w res w' [= _ <-]. apply Hg. Qed.
End Keeps.

Lemma data_ind' (P : data -> Prop) :
  (forall v, P (DVal v)) ->
  (forall fs, P (DFlags fs)) ->
  (forall d, Forall (fun kx => P (snd kx)) d -> P (DDict d)) ->
  forall x, P x.
Proof.
  intros Hv Hf Hd. fix IH 1. intros [v|fs|d]; [apply Hv | apply Hf |].
  apply Hd. induction d as [|[k x] d IHd]; constructor; [apply IH | exact IHd].
Qed.

Lemma blob_ind' (P : blob -> Prop) :
  (forall attrs values blobs,
      Forall (fun kb => P (snd kb)) blobs -> P (Blob attrs values blobs)) ->
  forall b, P b.
Proof.
  intros Hb. fix IH 1. intros [attrs values blobs]. apply Hb.
  induction blobs as [|[k b] l IHl]; constructor; [apply IH | exact IHl].
Qed.

Lemma blob_class_ind' (P : blob_class -> Prop) :
  (forall attrs blobs,
      Forall (fun kb => P (snd kb)) blobs -> P (BlobClass attrs blobs)) ->
  forall b, P b.
Proof.
  intros Hb. fix IH 1. intros [attrs blobs]. apply Hb.
  induction blobs as [|[k b] l IHl]; constructor; [apply IH | exact IHl].
Qed.

(** Takes a computation apart along its binds and case distinctions. *)
Ltac keeps_step :=
  match goal with
  | |- keeps _ (mret _) => apply keeps_ret; try typeclasses eauto
  | |- keeps _ (raise _) => apply keeps_raise; try typeclasses eauto
  | |- keeps _ (lift _) => apply keeps_lift; try typeclasses eauto
  | |- keeps _ get_world => apply keeps_get_world; try typeclasses eauto
  | |- keeps _ (get_entity _) => apply keeps_get_entity; try typeclasses eauto
  | |- keeps _ (mbind _ _) =>
      apply keeps_bind; [try typeclasses eauto | | intros ?]
  | |- keeps _ (match ?x with _ => _ end) => destruct x
  | |- keeps _ (let _ := _ in _) => cbv zeta
  end.

(** An induction principle for classes that reaches the bases. *)
Lemma pyclass_ind' (P : pyclass -> Prop) :
  (forall i n b u k s bases,
      Forall P bases -> P (PyClass i n b u k s bases)) ->
  forall c, P c.
Proof.
  intros Hstep. fix IH 1. intros [i n b u k s bases].
  apply Hstep. induction bases as [|base bases IHb]; constructor.
  - apply IH.
  - exact IHb.
Qed.

(** ** What a computation leaves alone

    An observation of the state is kept by a computation when it reads
    the same before and after.  Every operation of the model is built
    from in-place updates of one entity, of one class and of the
    identifier counter, so an observation that is blind to those updates
    is kept. *)

#[global] Instance kept_preorder {T} (obs : world -> T) : PreOrder (kept obs).
Proof.
  split.
  - intros w. reflexivity.
  - intros w1 w2 w3 H12 H23. unfold kept in *. congruence.
Qed.

Lemma keeps_update_entity {T} (obs : world -> T) r f (P : relation entity) :
  entity_blind r P obs -> (forall e, P e (f e)) ->
  keeps (kept obs) (update_entity r f).
Proof.
  intros Hblind Hf w res w'. unfold update_entity.
  destruct (heap w !! r) as [e|] eqn:E; intros [= _ <-].
  - by eapply Hblind.
  - reflexivity.
Qed.

Lemma keeps_update_class {T} (obs : world -> T) cls f
    (P : relation class_state) :
  class_blind P obs -> (forall cs, P cs (f cs)) ->
  keeps (kept obs) (update_class cls f).
Proof. intros Hblind Hf. apply keeps_modify. intros w. by apply Hblind. Qed.

Lemma same_shell_identity e e' : same_shell e e' -> same_identity e e'.
Proof. intros []. by split. Qed.

Lemma cache_change_table cs cs' : cache_change cs cs' -> table_change cs cs'.
Proof. intros []. by split. Qed.

Lemma cache_change_relocate key_name f cs :
  cache_change cs
    match dict_get key_name (_caches cs) with
    | None => cs
    | Some cache => with_caches cs (dict_set key_name (f cache) (_caches cs))
    end.
Proof. destruct (dict_get key_name (_caches cs)); by split. Qed.

Section SetAttrKeeps.
Context {T : Type} (obs : world -> T) (r : nat).
Hypothesis Hent : entity_blind r same_shell obs.
Hypothesis Hcls : class_blind cache_change obs.

Lemma key_of_keeps r' : keeps (kept obs) (key_of r').
Proof. unfold key_of. repeat keeps_step. Qed.

Lemma self_blob_keeps path : keeps (kept obs) (self_blob r path).
Proof. unfold self_blob. repeat keeps_step. Qed.

Lemma dirty_keeps : keeps (kept obs) (dirty r).
Proof.
  unfold dirty. eapply keeps_update_entity; [exact Hent|]. by split.
Qed.

Lemma relocate_keeps old_key new_key :
  keeps (kept obs) (relocate r old_key new_key).
Proof.
  unfold relocate. repeat keeps_step.
  eapply keeps_update_class; [exact Hcls|].
  intros cs. apply cache_change_relocate.
Qed.

Lemma set_attr_val_keeps path name v validate raw :
  keeps (kept obs) (_set_attr_val r path name v validate raw).
Proof.
  unfold _set_attr_val.
  repeat (first [ apply self_blob_keeps | apply key_of_keeps
                | apply dirty_keeps | apply relocate_keeps
                | eapply keeps_update_entity; [exact Hent | by split]
                | keeps_step ]).
Qed.

Lemma deserialize_item_keeps dv : forall path key,
  keeps (kept obs) (deserialize_item r path key dv).
Proof.
  induction dv as [v|fs|d IH] using data_ind'; intros path key; simpl;
    (apply keeps_bind; [typeclasses eauto | apply self_blob_keeps |]);
    intros self; repeat keeps_step; try apply set_attr_val_keeps.
  induction IH as [|[k x] d Hx _ IHd]; [keeps_step|].
  repeat keeps_step; [apply Hx | apply IHd].
Qed.

Lemma deserialize_keeps d : forall path,
  keeps (kept obs) (deserialize r path d).
Proof.
  induction d as [|[k x] d IH]; intros path; simpl; repeat keeps_step.
  - apply deserialize_item_keeps.
  - apply IH.
Qed.

Lemma entity_setattr_keeps name v :
  keeps (kept obs) (entity_setattr r name v).
Proof.
  unfold entity_setattr. repeat keeps_step; apply set_attr_val_keeps.
Qed.

Lemma set_key_keeps new_key : keeps (kept obs) (set_key r new_key).
Proof.
  unfold set_key. repeat keeps_step; try apply entity_setattr_keeps.
  induction a0 as [|[n v] l IH]; repeat keeps_step;
    [apply entity_setattr_keeps | apply IH].
Qed.
End SetAttrKeeps.

Lemma cache_change_registry cs cs' :
  cache_change cs cs' -> registry_change cs cs'.
Proof. intros []. by split. Qed.

Lemma registry_change_table cs cs' :
  registry_change cs cs' -> table_change cs cs'.
Proof. intros []. by split. Qed.

Lemma entity_blind_weaken {T} (obs : world -> T) r (P Q : relation entity) :
  (forall e e', Q e e' -> P e e') -> entity_blind r P obs -> entity_blind r Q obs.
Proof. intros HPQ HP w e e' Hr HQ. eapply HP; eauto. Qed.

Lemma class_blind_weaken {T} (obs : world -> T) (P Q : relation class_state) :
  (forall cs cs', Q cs cs' -> P cs cs') -> class_blind P obs -> class_blind Q obs.
Proof. intros HPQ HP w cls cs' HQ. eapply HP; eauto. Qed.

Section BuildKeeps.
Context {T : Type} (obs : world -> T) (r : nat).
Hypothesis Hent : entity_blind r same_identity obs.
Hypothesis Hcls : class_blind table_change obs.
Hypothesis Hcnt : counter_blind obs.

Let Hent' : entity_blind r same_shell obs :=
  entity_blind_weaken obs r _ _ same_shell_identity Hent.
Let Hcls' : class_blind cache_change obs :=
  class_blind_weaken obs _ _ cache_change_table Hcls.

Lemma update_keeps other : keeps (kept obs) (_update r other).
Proof.
  unfold _update.
  repeat (first [ eapply keeps_update_entity; [exact Hent | by split]
                | eapply keeps_update_class; [exact Hcls | by split]
                | keeps_step ]).
Qed.

Lemma build_base_blob_keeps cls : forall checked,
  keeps (kept obs) (_build_base_blob r cls checked).
Proof.
  induction cls as [i n b u k s bases IH] using pyclass_ind'.
  intros checked. simpl. apply keeps_bind; [typeclasses eauto | |].
  - revert checked. induction IH as [|base bases Hbase _ IHb];
      intros checked; repeat keeps_step; [apply Hbase | apply IHb].
  - intros checked'. repeat keeps_step. apply update_keeps.
Qed.

Lemma entity_deserialize_keeps d :
  keeps (kept obs) (entity_deserialize r d).
Proof.
  unfold entity_deserialize.
  repeat (first [ eapply keeps_update_entity; [exact Hent | by split]
                | apply deserialize_keeps; [exact Hent' | exact Hcls']
                | keeps_step ]).
Qed.

Lemma make_uid_keeps cls : keeps (kept obs) (make_uid cls).
Proof.
  unfold make_uid. repeat keeps_step.
  apply keeps_modify. intros w. apply Hcnt.
Qed.

Lemma construct_keeps cls d : keeps (kept obs) (construct r cls d).
Proof.
  unfold construct.
  repeat (first [ apply build_base_blob_keeps | apply entity_deserialize_keeps
                | apply make_uid_keeps
                | eapply keeps_update_entity; [exact Hent | by split]
                | keeps_step ]).
Qed.
End BuildKeeps.

Section RegisterKeeps.
Context {T : Type} (obs : world -> T) (r : nat).
Hypothesis Hcls : class_blind registry_change obs.

Lemma update_cache_keeps cls key_name f :
  keeps (kept obs) (update_cache cls key_name f).
Proof.
  unfold update_cache. eapply keeps_update_class; [exact Hcls|].
  intros cs. apply cache_change_registry, cache_change_relocate.
Qed.

Lemma register_instance_keeps cls :
  keeps (kept obs) (register_instance r cls).
Proof.
  unfold register_instance, set_instances.
  repeat (first [ eapply keeps_update_class; [exact Hcls | by split]
                | apply update_cache_keeps
                | apply key_of_keeps
                | keeps_step ]).
Qed.
End RegisterKeeps.

(** *** Observations and the updates they are blind to *)

Section Observations.
Context (r : nat).

Lemma blind_length_entity P :
  entity_blind r P (fun w => length (heap w)).
Proof. intros w e e' _ _. simpl. apply length_insert. Qed.

Lemma blind_other_entity P r' : r' <> r ->
  entity_blind r P (fun w => heap w !! r').
Proof. intros Hne w e e' _ _. simpl. by apply list_lookup_insert_ne. Qed.

Lemma blind_field_entity {X} (P : relation entity) (proj : entity -> X) :
  (forall e e', P e e' -> proj e' = proj e) ->
  entity_blind r P (fun w => proj <$> heap w !! r).
Proof.
  intros HP w e e' Hr HPe. simpl.
  rewrite list_lookup_insert_eq by (by eapply lookup_lt_Some).
  rewrite Hr. simpl. f_equal. by apply HP.
Qed.

Lemma blind_heap_class {T} P (obs : list entity -> T) :
  class_blind P (fun w => obs (heap w)).
Proof. by intros w cls cs' _. Qed.

Lemma blind_heap_counter {T} (obs : list entity -> T) :
  counter_blind (fun w => obs (heap w)).
Proof. by intros w t. Qed.

Lemma blind_stores_entity P : entity_blind r P stores.
Proof. by intros w e e' _ _. Qed.

Lemma blind_stores_class P : class_blind P stores.
Proof. by intros w cls cs' _. Qed.

Lemma blind_classes_entity {T} P (obs : gmap nat class_state -> T) :
  entity_blind r P (fun w => obs (classes w)).
Proof. by intros w e e' _ _. Qed.

Lemma blind_classes_counter {T} (obs : gmap nat class_state -> T) :
  counter_blind (fun w => obs (classes w)).
Proof. by intros w t. Qed.

(** A table of a class, read through [class_state_of]. *)
Lemma blind_table_class {X} (P : relation class_state)
    (proj : class_state -> X) c :
  (forall c1 c2, proj (new_class_state c1) = proj (new_class_state c2)) ->
  (forall cs cs', P cs cs' -> proj cs' = proj cs) ->
  class_blind P (fun w => proj (class_state_of w c)).
Proof.
  intros Hnew HP w cls cs' HPcs.
  destruct (decide (c_id cls = c_id c)) as [Heq|Hne].
  - unfold class_state_of at 1. simpl. rewrite Heq, lookup_insert_eq. simpl.
    rewrite (HP _ _ HPcs). unfold class_state_of. rewrite Heq.
    destruct (classes w !! c_id c); simpl; [done | apply Hnew].
  - by rewrite class_state_of_set_ne.
Qed.
End Observations.

(** ** The storage key *)

Lemma class_member_ext w w' name :
  (forall c, cs_dict (class_state_of w' c) = cs_dict (class_state_of w c)) ->
  forall cls, class_member w' name cls = class_member w name cls.
Proof.
  intros Hdict cls.
  induction cls as [i n b u k s bases IH] using pyclass_ind'.
  simpl. rewrite Hdict.
  destruct (dict_get name _); [done|].
  induction IH as [|base bases Hbase _ IHb]; [done|].
  by rewrite Hbase, IHb.
Qed.

Lemma getattr_field_ext w w' e e' :
  (forall c, cs_dict (class_state_of w' c) = cs_dict (class_state_of w c)) ->
  e_class e' = e_class e -> _uid e' = _uid e -> e_values e' = e_values e ->
  getattr_field w' e' = getattr_field w e.
Proof.
  intros Hdict Hc Hu Hv. apply functional_extensionality. intros name.
  unfold getattr_field. by rewrite Hc, Hu, Hv, (class_member_ext w w' name Hdict).
Qed.

Lemma entity_key_ext w w' e e' :
  (forall c, cs_dict (class_state_of w' c) = cs_dict (class_state_of w c)) ->
  e_class e' = e_class e -> _uid e' = _uid e -> e_values e' = e_values e ->
  entity_key w' e' = entity_key w e.
Proof.
  intros Hdict Hc Hu Hv. unfold entity_key.
  by rewrite Hc, (getattr_field_ext w w' e e' Hdict Hc Hu Hv).
Qed.

(** ** Running the primitives *)

Lemma get_entity_run r w e :
  heap w !! r = Some e -> get_entity r w = (Ok e, w).
Proof. intros H. unfold get_entity. by rewrite H. Qed.

Lemma key_of_run r w e :
  heap w !! r = Some e -> key_of r w = (entity_key w e, w).
Proof.
  intros H. unfold key_of. by rewrite bind_run, (get_entity_run _ _ _ H).
Qed.

Lemma update_entity_run r f w e :
  heap w !! r = Some e ->
  update_entity r f w = (Ok tt, set_heap (<[r := f e]> (heap w)) w).
Proof. intros H. unfold update_entity. by rewrite H. Qed.

Lemma self_blob_run r path w e :
  heap w !! r = Some e ->
  self_blob r path w
  = (match blob_at path (base_blob w e) with
     | Some b => Ok b
     | None => Raise AttributeError
     end, w).
Proof.
  intros H. unfold self_blob. rewrite bind_run, (get_entity_run _ _ _ H).
  simpl. rewrite bind_run. simpl. by destruct (blob_at _ _).
Qed.

Lemma heap_lookup_set r e w e0 :
  heap w !! r = Some e0 ->
  heap (set_heap (<[r := e]> (heap w)) w) !! r = Some e.
Proof.
  intros H. simpl. apply list_lookup_insert_eq. by eapply lookup_lt_Some.
Qed.

(** What a successful [_set_attr_val] did. *)
Lemma set_attr_val_inv r path name v validate raw w w' e :
  heap w !! r = Some e ->
  _set_attr_val r path name v validate raw w = (Ok tt, w') ->
  exists self attr value old_key new_key,
    blob_at path (base_blob w e) = Some self
    /\ dict_get name (b_attrs self) = Some attr
    /\ checked_value attr v validate raw (getattr_field w e) = Ok value
    /\ entity_key w e = Ok old_key
    /\ entity_key w (with_blob e (blob_write path name value (base_blob w e)))
       = Ok new_key
    /\ w' = committed r old_key new_key
              (with_blob e (blob_write path name value (base_blob w e))) w.
Proof.
  intros Hr Hset. unfold _set_attr_val in Hset.
  rewrite bind_run, (self_blob_run _ _ _ _ Hr) in Hset.
  destruct (blob_at path (base_blob w e)) as [self|] eqn:Eself; [|discriminate].
  rewrite bind_run in Hset.
  destruct (dict_get name (b_attrs self)) as [attr|] eqn:Eattr; [|discriminate].
  simpl in Hset.
  rewrite bind_run, (get_entity_run _ _ _ Hr) in Hset.
  rewrite bind_run in Hset. simpl in Hset.
  rewrite bind_run in Hset. unfold lift at 1 in Hset.
  destruct (checked_value _ _ _ _ _) as [value|] eqn:Evalue; [|discriminate].
  destruct (entity_key w e) as [old_key|] eqn:Eold.
  2:{ by rewrite bind_run, (key_of_run _ _ _ Hr), Eold in Hset. }
  rewrite bind_run, (key_of_run _ _ _ Hr), Eold in Hset.
  rewrite bind_run, (update_entity_run _ _ _ _ Hr) in Hset.
  set (e1 := with_blob e (blob_write path name value (base_blob w e))) in *.
  pose proof (heap_lookup_set r e1 w e Hr) as Hr1.
  rewrite bind_run, (key_of_run _ _ _ Hr1) in Hset.
  assert (Hk : entity_key (set_heap (<[r:=e1]> (heap w)) w) e1
               = entity_key w e1) by (by apply entity_key_ext).
  rewrite Hk in Hset. clear Hk.
  destruct (entity_key w e1) as [new_key|] eqn:Enew; [|discriminate].
  exists self, attr, value, old_key, new_key.
  repeat (split; [done|]).
  unfold committed. rewrite bind_run in Hset.
  destruct (decide (new_key = old_key)) as [Heq|Hne].
  - simpl in Hset. unfold dirty in Hset.
    rewrite (update_entity_run _ _ _ _ Hr1) in Hset.
    injection Hset as <-. unfold set_heap. simpl.
    by rewrite list_insert_insert_eq.
  - rewrite bind_run, (update_entity_run _ _ _ _ Hr1) in Hset.
    match type of Hset with
    | context [set_heap (<[r := ?e2]> ?h) ?w1] =>
        pose proof (heap_lookup_set r e2 w1 _ Hr1) as Hr2
    end.
    unfold relocate in Hset.
    rewrite bind_run, (get_entity_run _ _ _ Hr2) in Hset.
    unfold update_class, modify, dirty in Hset. simpl in Hset.
    unfold update_entity in Hset. simpl in Hset.
    rewrite list_lookup_insert_eq in Hset
      by (rewrite !length_insert; by eapply lookup_lt_Some).
    injection Hset as <-. unfold set_heap, set_class_state. simpl.
    by rewrite !list_insert_insert_eq.
Qed.

(** ** Key migration *)

Lemma dict_get_take_none {K V} `{EqDecision K} (k : K) (d : dict K V) n :
  dict_get k d = None -> dict_get k (take n d) = None.
Proof.
  revert n. induction d as [|[k' v] d IH]; intros [|n] Hnone; simpl in *; try done.
  destruct (decide (k = k')); [done | by apply IH].
Qed.

Lemma dict_has_false {K V} `{EqDecision K} (k : K) (d : dict K V) :
  dict_has k d = false -> dict_get k d = None.
Proof. unfold dict_has. by destruct (dict_get k d). Qed.

Lemma relocate_cache_old r old_key new_key cache :
  new_key <> old_key ->
  lru_peek old_key (relocate_cache r old_key new_key cache) = None.
Proof.
  intros Hne. unfold relocate_cache, lru_peek, lru_set. simpl.
  apply dict_get_take_none. simpl. rewrite decide_False by done.
  rewrite dict_get_del_ne by done.
  destruct (lru_contains old_key cache) eqn:E; simpl.
  - apply dict_get_del_eq.
  - by apply dict_has_false.
Qed.


Lemma store_of_set_eq sid s w : store_of (set_store sid s w) sid = s.
Proof. unfold store_of, set_store. simpl. by rewrite lookup_insert_eq. Qed.

Lemma store_of_set_heap h w sid : store_of (set_heap h w) sid = store_of w sid.
Proof. reflexivity. Qed.

Lemma save_retires_old_key r w e sid old_key key d :
  heap w !! r = Some e -> c_store (e_class e) = Some sid ->
  _savable e = true ->
  dict_get "_old_key" (tags e) = Some old_key ->
  entity_key w e = Ok key -> key <> old_key ->
  serialize (base_blob w e) = Ok d ->
  exists w'' e'' rec,
    save r w = (Ok tt, w'')
    /\ store_get old_key (store_of w'' sid) = None
    /\ store_get key (store_of w'' sid) = Some rec
    /\ heap w'' !! r = Some e''
    /\ dict_get "_old_key" (tags e'') = None
    /\ _dirty e'' = false.
Proof.
  intros Hr Hstore Hsav Htag Hkey Hne Hser.
  unfold save. rewrite bind_run, (get_entity_run _ _ _ Hr). cbv beta iota.
  rewrite Hstore, Hsav. cbn [negb]. rewrite Htag.
  rewrite (bind_run (mbind _ get_world)), (bind_run get_world). unfold get_world at 1. cbv beta iota.
  set (w1 := if store_has old_key (store_of w sid) then set_store sid (store_delete old_key (store_of w sid)) w else w).
  assert (Hrun1 : (if store_has old_key (store_of w sid)
        then update_store sid (store_delete old_key) else mret ()) w = (Ok tt, w1)).
  { unfold w1. by destruct (store_has old_key (store_of w sid)). }
  rewrite bind_run, Hrun1.
  assert (Hr1 : heap w1 !! r = Some e).
  { unfold w1. by destruct (store_has old_key (store_of w sid)). }
  assert (Hold1 : store_get old_key (store_of w1 sid) = None).
  { unfold w1, store_get. destruct (store_has old_key (store_of w sid)) eqn:E.
    - rewrite store_of_set_eq. apply dict_get_del_eq.
    - unfold store_has, dict_has in E. by destruct (dict_get old_key _). }
  rewrite (update_entity_run _ _ _ _ Hr1).
  set (e2 := with_tags e (dict_del "_old_key" (tags e))).
  pose proof (heap_lookup_set r e2 w1 e Hr1) as Hr2.
  set (w2 := set_heap (<[r:=e2]> (heap w1)) w1) in *.
  assert (Hser2 : entity_serialize r w2 = (Ok (dict_set "tags" (DDict (map (fun kv => (fst kv, DVal (snd kv))) (tags e2)))
     (dict_set "flags" (DFlags (flags e2)) (dict_set "uid" (DVal (_uid e2)) d))), w2)).
  { unfold entity_serialize. rewrite bind_run, (get_entity_run _ _ _ Hr2).
    rewrite bind_run. unfold get_world at 1. cbv beta iota.
    assert (Hbb : base_blob w2 e2 = base_blob w e).
    { unfold base_blob, w2, w1. simpl. by destruct (store_has _ _). }
    rewrite bind_run, Hbb. unfold lift at 1. rewrite Hser. done. }
  rewrite bind_run, Hser2.
  assert (Hkey2 : entity_key w2 e2 = Ok key).
  { rewrite (entity_key_ext w w2 e e2); try done.
    intros c. unfold w2, w1. by destruct (store_has _ _). }
  rewrite bind_run, (key_of_run _ _ _ Hr2), Hkey2.
  rewrite bind_run. unfold update_store at 1, modify. 
  match goal with |- context [update_entity r ?f ?w3] =>
    assert (Hr3 : heap w3 !! r = Some e2) by exact Hr2;
    rewrite (update_entity_run r f w3 e2 Hr3) end.
  eexists _, _, _. split; [reflexivity|].
  assert (Hso : store_of w2 sid = store_of w1 sid) by reflexivity.
  split; [|split; [|split; [|split]]].
  - rewrite store_of_set_heap, store_of_set_eq. unfold store_get, store_put.
    rewrite dict_get_set_ne by done. rewrite Hso. exact Hold1.
  - rewrite store_of_set_heap, store_of_set_eq. unfold store_get, store_put.
    apply dict_get_set_eq.
  - apply list_lookup_insert_eq. cbn [heap set_store]. by eapply lookup_lt_Some.
  - cbn [tags with_dirty e2 with_tags]. apply dict_get_del_eq.
  - reflexivity.
Qed.


(** ** Construction *)

Lemma construct_frame r cls d w res w' :
  construct r cls d w = (res, w') -> heap_frame r w w'.
Proof.
  intros Hrun. split.
  - eapply (construct_keeps (fun w => length (heap w))); eauto.
    + apply blind_length_entity.
    + apply (blind_heap_class _ length).
    + apply (blind_heap_counter length).
  - intros r' Hne.
    eapply (construct_keeps (fun w => heap w !! r')); eauto.
    + by apply blind_other_entity.
    + apply (blind_heap_class _ (fun h => h !! r')).
    + apply (blind_heap_counter (fun h => h !! r')).
  - eapply (construct_keeps (fun w => e_class <$> heap w !! r)); eauto.
    + apply blind_field_entity. by intros ?? [].
    + apply (blind_heap_class _ (fun h => e_class <$> h !! r)).
    + apply (blind_heap_counter (fun h => e_class <$> h !! r)).
  - eapply (construct_keeps (fun w => _savable <$> heap w !! r)); eauto.
    + apply blind_field_entity. by intros ?? [].
    + apply (blind_heap_class _ (fun h => _savable <$> h !! r)).
    + apply (blind_heap_counter (fun h => _savable <$> h !! r)).
  - eapply (construct_keeps (fun w => active <$> heap w !! r)); eauto.
    + apply blind_field_entity. by intros ?? [].
    + apply (blind_heap_class _ (fun h => active <$> h !! r)).
    + apply (blind_heap_counter (fun h => active <$> h !! r)).
  - eapply (construct_keeps stores); eauto.
    + apply blind_stores_entity.
    + apply blind_stores_class.
    + by intros ??.
  - intros c. eapply (construct_keeps (fun w => cs_dict (class_state_of w c))); eauto.
    + by intros ?????.
    + apply blind_table_class; [done | by intros ?? []].
    + by intros ??.
  - intros c. eapply (construct_keeps (fun w => cs_blobs (class_state_of w c))); eauto.
    + by intros ?????.
    + apply blind_table_class; [done | by intros ?? []].
    + by intros ??.
Qed.

Lemma register_instance_inv r cls w w' e :
  heap w !! r = Some e ->
  register_instance r cls w = (Ok tt, w') ->
  heap w' = heap w /\ stores w' = stores w
  /\ uid_timecode w' = uid_timecode w
  /\ _instances (class_state_of w' cls)
     = dict_set (_uid e) r (_instances (class_state_of w cls))
  /\ (forall c, cs_attrs (class_state_of w' c) = cs_attrs (class_state_of w c))
  /\ (forall c, cs_dict (class_state_of w' c) = cs_dict (class_state_of w c)).
Proof.
  intros Hr Hrun.
  assert (Hkeep : forall {T} (obs : world -> T),
             class_blind registry_change obs -> obs w' = obs w).
  { intros T obs Hobs. by eapply (register_instance_keeps obs r Hobs cls). }
  split; [apply (Hkeep _ heap); by intros ????|].
  split; [apply (Hkeep _ stores); by intros ????|].
  split; [apply (Hkeep _ uid_timecode); by intros ????|].
  split.
  2:{ split; intros c.
      - apply (Hkeep _ (fun w => cs_attrs (class_state_of w c))).
        apply blind_table_class; [done | by intros ?? []].
      - apply (Hkeep _ (fun w => cs_dict (class_state_of w c))).
        apply blind_table_class; [done | by intros ?? []]. }
  unfold register_instance in Hrun.
  rewrite bind_run, (get_entity_run _ _ _ Hr) in Hrun.
  rewrite bind_run in Hrun. unfold set_instances, update_class, modify in Hrun.
  cbv beta iota in Hrun.
  set (w1 := set_class_state cls _ w) in Hrun.
  assert (Hi1 : _instances (class_state_of w1 cls)
                = dict_set (_uid e) r (_instances (class_state_of w cls))).
  { unfold w1. by rewrite class_state_of_set_eq. }
  rewrite <- Hi1.
  assert (Hrest : forall m : Py unit,
            keeps (kept (fun w => _instances (class_state_of w cls))) m ->
            m w1 = (Ok tt, w') ->
            _instances (class_state_of w' cls) = _instances (class_state_of w1 cls)).
  { intros m Hm Hmrun. by eapply Hm. }
  eapply Hrest; [|exact Hrun].
  assert (Hblind : class_blind cache_change
                     (fun w => _instances (class_state_of w cls))).
  { apply blind_table_class; [done | by intros ?? []]. }
  repeat (first [ apply key_of_keeps
                | eapply keeps_update_class; [exact Hblind | apply cache_change_relocate]
                | keeps_step ]).
Qed.

Lemma Entity_init_inv cls d act sav w r w1 :
  Entity_init cls d act sav w = (Ok r, w1) ->
  r = length (heap w)
  /\ length (heap w1) = S (length (heap w))
  /\ (forall r', (r' < length (heap w))%nat -> heap w1 !! r' = heap w !! r')
  /\ stores w1 = stores w
  /\ (forall c, cs_dict (class_state_of w1 c) = cs_dict (class_state_of w c))
  /\ exists e1,
       heap w1 !! r = Some e1 /\ e_class e1 = cls
       /\ _savable e1 = sav /\ active e1 = act
       /\ dict_get (_uid e1) (_instances (class_state_of w1 cls)) = Some r.
Proof.
  intros Hrun. unfold Entity_init in Hrun.
  rewrite bind_run in Hrun. unfold get_world at 1 in Hrun. cbv beta iota zeta in Hrun.
  rewrite bind_run in Hrun. unfold alloc at 1 in Hrun. cbv beta iota in Hrun.
  set (e0 := {| e_class := cls |}) in Hrun.
  set (w0 := set_heap (heap w ++ [e0]) w) in Hrun.
  apply bind_ok_inv in Hrun as ([] & w2 & Hcons & Hrun).
  apply bind_ok_inv in Hrun as ([] & w3 & Hreg & Hrun).
  injection Hrun as <- <-.
  pose proof (construct_frame _ _ _ _ _ _ Hcons) as [Hlen Hother Hclass Hsav Hact Hst Hdict Hblobs].
  assert (Hr0 : heap w0 !! length (heap w) = Some e0).
  { unfold w0. simpl. by rewrite lookup_app_r, Nat.sub_diag. }
  rewrite Hr0 in Hclass, Hsav, Hact. simpl in *.
  destruct (heap w2 !! length (heap w)) as [e2|] eqn:Hr2; [|discriminate].
  simpl in *.
  destruct (register_instance_inv _ _ _ _ _ Hr2 Hreg)
    as (Hheap & Hst3 & _ & Hinst & _ & Hdict3).
  split; [done|]. split.
  { rewrite Hheap, Hlen. unfold w0. simpl. rewrite length_app. simpl. lia. }
  split.
  { intros r' Hlt. rewrite Hheap, Hother by lia. unfold w0. simpl.
    by rewrite lookup_app_l. }
  split; [by rewrite Hst3, Hst|].
  split; [intros c; by rewrite Hdict3, Hdict|].
  exists e2. rewrite Hheap. split; [done|].
  split; [congruence|]. split; [congruence|]. split; [congruence|].
  rewrite Hinst. apply dict_get_set_eq.
Qed.

(** ** Entity.load *)

Lemma load_find_store cls key from_cache w :
  from_cache = false \/ no_instance w cls key ->
  load_find cls key from_cache w = load_from_store cls key w.
Proof.
  intros [->|(Huid & Hcache & Hscan)]; [done|].
  destruct from_cache; [|done]. unfold load_find.
  rewrite bind_run. unfold get_world at 1. cbv beta iota zeta.
  destruct (decide (get_key_name cls = "uid")) as [Hk|Hk].
  - rewrite (Huid Hk).
    destruct (key_cache w cls) as [cache|]; [rewrite (Hcache _ eq_refl)|];
      by rewrite bind_run.
  - destruct (key_cache w cls) as [cache|]; [rewrite (Hcache _ eq_refl)|];
      rewrite bind_run; unfold lift at 1; by rewrite (Hscan Hk).
Qed.

Lemma load_finish cls key r w :
  exists w',
    (w0 ← get_world;
     match key_cache w0 cls with
     | Some cache =>
         if lru_contains key cache then mret tt
         else update_cache cls (get_key_name cls) (lru_set key r)
     | None => mret tt
     end;;
     mret (LoadedEntity r)) w = (Ok (LoadedEntity r), w')
    /\ heap w' = heap w /\ stores w' = stores w
    /\ (forall c, _instances (class_state_of w' c) = _instances (class_state_of w c)).
Proof.
  rewrite bind_run. unfold get_world at 1. cbv beta iota.
  destruct (key_cache w cls) as [cache|]; [|by eexists].
  destruct (lru_contains key cache); [by eexists|].
  rewrite bind_run. unfold update_cache, update_class, modify. cbv beta iota.
  eexists. split; [reflexivity|]. split; [done|]. split; [done|].
  intros c. 
  apply (blind_table_class cache_change _instances c); [done | by intros ?? [] |].
  apply cache_change_relocate.
Qed.

Lemma load_found cls key from_cache default w r w1 :
  load_find cls key from_cache w = (Ok (Some r), w1) ->
  exists w',
    load cls key from_cache default w = (Ok (LoadedEntity r), w')
    /\ heap w' = heap w1 /\ stores w' = stores w1
    /\ (forall c, _instances (class_state_of w' c) = _instances (class_state_of w1 c)).
Proof.
  intros Hfind. unfold load. rewrite bind_run, Hfind.
  apply load_finish.
Qed.


(** ** Schema merging *)

(** C4, evaluated where it fails: [Child] derives from [Parent] and both
    registered a field ["f"] and a sub-blob ["g"], [Child] first.  A new
    [Child] has the sub-blob of [Child] but the field descriptor and the
    field value of [Parent]: [_update] writes into the attribute table
    of the class itself, so the last merge, of [Child]'s own blob, reads
    back what the merge of [Parent] left there. *)
Theorem child_field_taken_from_parent :
  let w := state_after (Entity_init Child None false true) merge_world in
  result_of (Entity_init Child None false true) merge_world = Ok 0%nat
  /\ attr_default <$> dict_get "f" (cs_attrs (class_state_of merge_world Child))
     = Some (VInt 2)
  /\ attr_default <$> dict_get "f" (cs_attrs (class_state_of w Child))
     = Some (VInt 1)
  /\ dict_get "f" (e_values (entity_at w 0)) = Some (VInt 1)
  /\ b_values <$> dict_get "g" (e_blobs (entity_at w 0))
     = Some [("v", VInt 2)].
Proof. vm_compute. repeat split. Qed.

(** ** Serialization and deserialization *)

Lemma blob_eta b : Blob (b_attrs b) (b_values b) (b_blobs b) = b.
Proof. by destruct b. Qed.

Lemma blob_write_put path name v root self :
  blob_at path root = Some self ->
  blob_write path name v root
  = blob_put path (Blob (b_attrs self) (dict_set name v (b_values self))
                        (b_blobs self)) root.
Proof.
  revert root. induction path as [|k p IH]; intros root Hat; simpl in *.
  - by injection Hat as ->.
  - destruct (dict_get k (b_blobs root)) as [sb|]; [|done].
    by rewrite (IH _ Hat).
Qed.

Lemma blob_at_put path b' root self :
  blob_at path root = Some self -> blob_at path (blob_put path b' root) = Some b'.
Proof.
  revert root. induction path as [|k p IH]; intros root Hat; simpl in *; [done|].
  destruct (dict_get k (b_blobs root)) as [sb|]; [|done]. simpl.
  rewrite dict_get_set_eq. by apply IH.
Qed.

Lemma dict_set_set {K V} `{EqDecision K} (k : K) (v1 v2 : V) d :
  dict_set k v2 (dict_set k v1 d) = dict_set k v2 d.
Proof.
  induction d as [|[k' v'] d IH]; simpl.
  - by rewrite decide_True.
  - destruct (decide (k = k')) as [->|Hne]; simpl.
    + by rewrite decide_True.
    + rewrite decide_False by done. by rewrite IH.
Qed.

Lemma blob_put_put path b1 b2 root self :
  blob_at path root = Some self ->
  blob_put path b2 (blob_put path b1 root) = blob_put path b2 root.
Proof.
  revert root. induction path as [|k p IH]; intros root Hat; simpl in *; [done|].
  destruct (dict_get k (b_blobs root)) as [sb|] eqn:E; [|by rewrite E].
  simpl. rewrite dict_get_set_eq, dict_set_set. by rewrite (IH _ Hat).
Qed.

Lemma blob_at_snoc path k root :
  blob_at (path ++ [k]) root
  = match blob_at path root with
    | Some self => dict_get k (b_blobs self)
    | None => None
    end.
Proof.
  revert root. induction path as [|k' p IH]; intros root; simpl.
  - by destruct (dict_get k (b_blobs root)).
  - destruct (dict_get k' (b_blobs root)); [apply IH | done].
Qed.

Lemma blob_put_snoc path k b' root self sb :
  blob_at path root = Some self -> dict_get k (b_blobs self) = Some sb ->
  blob_put (path ++ [k]) b' root
  = blob_put path (Blob (b_attrs self) (b_values self)
                        (dict_set k b' (b_blobs self))) root.
Proof.
  revert root. induction path as [|k' p IH]; intros root Hat Hsb; simpl in *.
  - injection Hat as ->. by rewrite Hsb.
  - destruct (dict_get k' (b_blobs root)) as [sb'|]; [|done].
    by rewrite (IH _ Hat Hsb).
Qed.

Lemma blob_put_attrs path b' root self :
  blob_at path root = Some self -> b_attrs b' = b_attrs self ->
  b_attrs (blob_put path b' root) = b_attrs root.
Proof.
  destruct path as [|k p]; simpl; [by intros [= ->] | ].
  by destruct (dict_get k (b_blobs root)).
Qed.

Lemma blob_write_attrs path name v root :
  b_attrs (blob_write path name v root) = b_attrs root.
Proof.
  destruct path as [|k p]; simpl; [done|].
  by destruct (dict_get k (b_blobs root)).
Qed.

Lemma attrs_kept_by_cache_change (w : world) cls cs' c :
  cs_attrs cs' = cs_attrs (class_state_of w cls) ->
  cs_attrs (class_state_of (set_class_state cls cs' w) c)
  = cs_attrs (class_state_of w c).
Proof.
  intros H.
  by apply (blind_table_class (fun cs cs' => cs_attrs cs' = cs_attrs cs) cs_attrs c).
Qed.

Lemma set_attr_val_blob r path name v validate raw w w' e :
  heap w !! r = Some e ->
  _set_attr_val r path name v validate raw w = (Ok tt, w') ->
  exists self attr value e',
    blob_at path (base_blob w e) = Some self
    /\ dict_get name (b_attrs self) = Some attr
    /\ checked_value attr v validate raw (getattr_field w e) = Ok value
    /\ heap w' !! r = Some e'
    /\ same_shell e e'
    /\ base_blob w' e' = blob_write path name value (base_blob w e).
Proof.
  intros Hr Hset.
  destruct (set_attr_val_inv _ _ _ _ _ _ _ _ _ Hr Hset)
    as (self & attr & value & old_key & new_key & Hself & Hattr & Hval
        & Hold & Hnew & ->).
  assert (Hlt : (r < length (heap w))%nat) by (by eapply lookup_lt_Some).
  set (bw := blob_write path name value (base_blob w e)).
  assert (Hbw : Blob (cs_attrs (class_state_of w (e_class e)))
                     (b_values bw) (b_blobs bw) = bw).
  { rewrite <- (blob_eta bw) at 3. f_equal. unfold bw.
    by rewrite blob_write_attrs. }
  exists self, attr, value. unfold committed.
  destruct (decide (new_key = old_key)).
  - eexists. split; [done|]. split; [done|]. split; [done|].
    split; [simpl; by apply list_lookup_insert_eq|].
    split; [by split|]. exact Hbw.
  - eexists. split; [done|]. split; [done|]. split; [done|].
    split; [simpl; by apply list_lookup_insert_eq|].
    split; [by split|]. etransitivity; [|exact Hbw].
    unfold base_blob. f_equal.
    simpl e_class. rewrite class_state_of_set_heap.
    rewrite class_state_of_set_eq.
    by destruct (dict_get (get_key_name (e_class e)) _).
Qed.

Lemma dict_set_same {K V} `{EqDecision K} (k : K) (v : V) d :
  dict_get k d = Some v -> dict_set k v d = d.
Proof.
  induction d as [|[k' v'] d IH]; simpl; [done|].
  destruct (decide (k = k')) as [->|Hne]; [by intros [= ->] | intros H; by rewrite IH].
Qed.

Lemma blob_put_same path root self :
  blob_at path root = Some self -> blob_put path self root = root.
Proof.
  revert root. induction path as [|k p IH]; intros root Hat; simpl in *.
  - by injection Hat.
  - destruct (dict_get k (b_blobs root)) as [sb|] eqn:E; [|done].
    rewrite (IH _ Hat), (dict_set_same _ _ _ E). apply blob_eta.
Qed.

#[global] Instance same_shell_preorder : PreOrder same_shell.
Proof.
  split.
  - by intros e.
  - intros e1 e2 e3 [] []. split; congruence.
Qed.

Lemma checked_value_raw attr x view :
  checked_value attr x false true view = Ok x.
Proof. by destruct x. Qed.

Section DeserializeSim.
Context (r : nat).

Lemma deserialize_item_sim dv : forall path key w w' e self,
  heap w !! r = Some e ->
  blob_at path (base_blob w e) = Some self ->
  deserialize_item r path key dv w = (Ok tt, w') ->
  exists b', load_item key dv self = Some b'
             /\ blob_becomes r w w' e (blob_put path b' (base_blob w e)).
Proof.
  induction dv as [v|fs|d IH] using data_ind';
    intros path key w w' e self Hr Hself Hrun; simpl in Hrun;
    rewrite bind_run, (self_blob_run _ _ _ _ Hr), Hself in Hrun;
    cbv beta iota in Hrun; simpl load_item.
  - destruct (dict_get key (b_attrs self)) as [attr|] eqn:Eattr.
    + destruct (set_attr_val_blob _ _ _ _ _ _ _ _ _ Hr Hrun)
        as (self' & attr' & value & e' & Hself' & Hattr' & Hval & Hr' & Hsh & Hb).
      rewrite Hself in Hself'. injection Hself' as <-.
      eexists. split; [done|].
      exists e'. split; [done|]. split; [done|]. rewrite Hb.
      assert (value = skip_unset (_deserialize attr) v) as ->.
      { rewrite checked_value_raw in Hval. by injection Hval. }
      by apply blob_write_put.
    + unfold dict_has in Hrun.
      destruct (dict_get key (b_blobs self)); [discriminate|].
      injection Hrun as <-. eexists. split; [done|].
      exists e. split; [done|]. split; [done|]. by rewrite blob_put_same.
  - destruct (dict_get key (b_attrs self)) as [attr|] eqn:Eattr; [discriminate|].
    unfold dict_has in Hrun.
    destruct (dict_get key (b_blobs self)); [discriminate|].
    injection Hrun as <-. eexists. split; [done|].
    exists e. split; [done|]. split; [done|]. by rewrite blob_put_same.
  - destruct (dict_get key (b_attrs self)) as [attr|] eqn:Eattr; [discriminate|].
    unfold dict_has in Hrun.
    destruct (dict_get key (b_blobs self)) as [sb|] eqn:Esb.
    2:{ injection Hrun as <-. eexists. split; [done|].
        exists e. split; [done|]. split; [done|]. by rewrite blob_put_same. }
    assert (Hat : blob_at (path ++ [key]) (base_blob w e) = Some sb).
    { by rewrite blob_at_snoc, Hself. }
    enough (exists sb',
      (fix items (l : list (string * data)) (sb : blob) :=
         match l with
         | [] => Some sb
         | (k, x) :: l' =>
             match load_item k x sb with
             | Some sb' => items l' sb'
             | None => None
             end
         end) d sb = Some sb'
      /\ blob_becomes r w w' e (blob_put (path ++ [key]) sb' (base_blob w e)))
      as (sb' & -> & Hbec).
    { eexists. split; [done|].
      by rewrite <- (blob_put_snoc path key _ _ self sb Hself Esb). }
    clear Esb Eattr Hself. revert w e sb Hr Hrun Hat.
    induction IH as [|[k x] d Hx _ IHd]; intros w e sb Hr Hrun Hat.
    + injection Hrun as <-. eexists. split; [done|].
      exists e. split; [done|]. split; [done|]. by rewrite blob_put_same.
    + apply bind_ok_inv in Hrun as ([] & w1 & Hitem & Hrest).
      destruct (Hx _ _ _ _ _ _ Hr Hat Hitem) as (b1 & Hb1 & e1 & Hr1 & Hsh1 & Hbb1).
      simpl in Hb1. rewrite Hb1.
      assert (Hat1 : blob_at (path ++ [key]) (base_blob w1 e1) = Some b1).
      { rewrite Hbb1. by eapply blob_at_put. }
      destruct (IHd _ _ _ Hr1 Hrest Hat1)
        as (sb' & Hsb' & e' & Hr' & Hsh' & Hb').
      exists sb'. split; [done|].
      exists e'. split; [done|]. split; [by etransitivity|].
      rewrite Hb', Hbb1. by eapply blob_put_put.
Qed.

Lemma deserialize_sim d : forall path w w' e self,
  heap w !! r = Some e ->
  blob_at path (base_blob w e) = Some self ->
  deserialize r path d w = (Ok tt, w') ->
  exists b', load_record d self = Some b'
             /\ blob_becomes r w w' e (blob_put path b' (base_blob w e)).
Proof.
  induction d as [|[k x] d IH]; intros path w w' e self Hr Hself Hrun;
    simpl in Hrun.
  - injection Hrun as <-. eexists. split; [done|].
    exists e. split; [done|]. split; [done|]. by rewrite blob_put_same.
  - apply bind_ok_inv in Hrun as ([] & w1 & Hitem & Hrest).
    destruct (deserialize_item_sim _ _ _ _ _ _ _ Hr Hself Hitem)
      as (b1 & Hb1 & e1 & Hr1 & Hsh1 & Hbb1).
    assert (Hat1 : blob_at path (base_blob w1 e1) = Some b1).
    { rewrite Hbb1. by eapply blob_at_put. }
    destruct (IH _ _ _ _ _ Hr1 Hat1 Hrest) as (b' & Hb' & e' & Hr' & Hsh' & Hbb').
    exists b'. simpl. rewrite Hb1. split; [done|].
    exists e'. split; [done|]. split; [by etransitivity|].
    rewrite Hbb', Hbb1. by eapply blob_put_put.
Qed.
End DeserializeSim.

Lemma dict_get_None_keys {K V} `{EqDecision K} (k : K) (d : dict K V) :
  dict_get k d = None <-> k ∉ dict_keys d.
Proof.
  induction d as [|[k' v] d IH]; simpl.
  - split; [intros _; apply not_elem_of_nil | done].
  - rewrite not_elem_of_cons. destruct (decide (k = k')) as [->|Hne].
    + split; [done | intros [? _]; done].
    + rewrite IH. tauto.
Qed.

Lemma dict_set_fresh {K V} `{EqDecision K} (k : K) (v : V) d :
  dict_get k d = None -> dict_set k v d = d ++ [(k, v)].
Proof.
  induction d as [|[k' v'] d IH]; simpl; [done|].
  destruct (decide (k = k')); [done | intros H; by rewrite IH].
Qed.

Lemma dict_keys_set_fresh {K V} `{EqDecision K} (k : K) (v : V) d :
  dict_get k d = None -> dict_keys (dict_set k v d) = dict_keys d ++ [k].
Proof. intros H. rewrite dict_set_fresh by done. unfold dict_keys. by rewrite map_app. Qed.

Lemma fold_serialize_attr_raise values attrs e :
  fold_left (serialize_attr values) attrs (Raise e) = Raise e.
Proof. induction attrs as [|ka attrs IH]; [done | apply IH]. Qed.

Lemma fold_serialize_attr_shape values attrs : forall acc d,
  fold_left (serialize_attr values) attrs (Ok acc) = Ok d ->
  d = acc ++ map (attr_entry values) attrs
  /\ NoDup (dict_keys attrs)
  /\ (forall k, k ∈ dict_keys attrs -> k ∉ dict_keys acc).
Proof.
  induction attrs as [|[k a] attrs IH]; intros acc d Hfold; simpl in *.
  - injection Hfold as <-. rewrite app_nil_r. split; [done|].
    split; [constructor | intros k Hk; by apply elem_of_nil in Hk].
  - unfold dict_has in Hfold.
    destruct (dict_get k acc) eqn:Ek.
    { by rewrite fold_serialize_attr_raise in Hfold. }
    rewrite dict_set_fresh in Hfold by done.
    destruct (IH _ _ Hfold) as (-> & Hnd & Hfresh).
    rewrite <- app_assoc.
    split; [reflexivity|]. split.
    + constructor; [|done]. intros Hin. apply (Hfresh _ Hin).
      unfold dict_keys. rewrite map_app. simpl. set_solver.
    + intros k' Hk'. apply elem_of_cons in Hk' as [->|Hk'].
      * by apply dict_get_None_keys.
      * specialize (Hfresh _ Hk'). unfold dict_keys in *.
        rewrite map_app in Hfresh. set_solver.
Qed.

Lemma serialize_unfold attrs values blobs :
  serialize (Blob attrs values blobs)
  = fold_left (serialize_attr values) attrs (serialize_blobs blobs (Ok [])).
Proof. reflexivity. Qed.

Lemma serialize_blobs_raise l e : serialize_blobs l (Raise e) = Raise e.
Proof. by destruct l as [|[k sb] l]. Qed.

Lemma serialize_blobs_shape l : forall acc d,
  NoDup (dict_keys l) ->
  (forall k, k ∈ dict_keys l -> k ∉ dict_keys acc) ->
  serialize_blobs l (Ok acc) = Ok d ->
  exists sds, d = acc ++ sds /\ Forall2 blob_entry l sds.
Proof.
  induction l as [|[k sb] l IH]; intros acc d Hnd Hfresh Hser; simpl in *.
  - injection Hser as <-. exists []. by rewrite app_nil_r.
  - destruct (serialize sb) as [sd|] eqn:Esb; [|discriminate].
    apply NoDup_cons in Hnd as [Hk Hnd].
    assert (Hkacc : dict_get k acc = None).
    { apply dict_get_None_keys, Hfresh. set_solver. }
    rewrite dict_set_fresh in Hser by done.
    destruct (IH (acc ++ [(k, DDict sd)]) d Hnd) as (sds & -> & Hall);
      [|exact Hser|].
    { intros k' Hk'. unfold dict_keys. rewrite map_app. simpl.
      specialize (Hfresh k'). unfold dict_keys in *. set_solver. }
    exists ((k, DDict sd) :: sds). rewrite <- app_assoc. split; [done|].
    constructor; [|done]. split; [done|]. by exists sd.
Qed.

Lemma dict_keys_cons {K V} (k : K) (v : V) (d : dict K V) :
  dict_keys ((k, v) :: d) = k :: dict_keys d.
Proof. reflexivity. Qed.

Lemma load_item_dict key sd b sb sb' :
  dict_get key (b_attrs b) = None -> dict_get key (b_blobs b) = Some sb ->
  load_record sd sb = Some sb' ->
  load_item key (DDict sd) b
  = Some (Blob (b_attrs b) (b_values b) (dict_set key sb' (b_blobs b))).
Proof.
  intros Ha Hb Hload. simpl. rewrite Ha, Hb.
  change ((fix items (l : list (string * data)) (sb : blob) :=
             match l with
             | [] => Some sb
             | (k, x) :: l' =>
                 match load_item k x sb with
                 | Some sb' => items l' sb'
                 | None => None
                 end
             end) sd sb) with (load_record sd sb).
  by rewrite Hload.
Qed.

Lemma load_item_val key v b attr :
  dict_get key (b_attrs b) = Some attr ->
  load_item key (DVal v) b
  = Some (Blob (b_attrs b)
               (dict_set key (skip_unset (_deserialize attr) v) (b_values b))
               (b_blobs b)).
Proof. intros Ha. simpl. by rewrite Ha. Qed.

Lemma load_record_app d1 d2 b :
  load_record (d1 ++ d2) b
  = match load_record d1 b with
    | Some b' => load_record d2 b'
    | None => None
    end.
Proof.
  revert b. induction d1 as [|[k x] d1 IH]; intros b; [done|].
  simpl. destruct (load_item k x b); [apply IH | done].
Qed.

Lemma dict_get_app_fresh {K V} `{EqDecision K} (k : K) (v : V) pre rest :
  k ∉ dict_keys pre -> dict_get k (pre ++ (k, v) :: rest) = Some v.
Proof.
  induction pre as [|[k' v'] pre IH]; simpl; intros Hk.
  - by rewrite decide_True.
  - apply not_elem_of_cons in Hk as [Hne Hk]. rewrite decide_False by done. auto.
Qed.

Lemma dict_set_app_fresh {K V} `{EqDecision K} (k : K) (v v' : V) pre rest :
  k ∉ dict_keys pre ->
  dict_set k v' (pre ++ (k, v) :: rest) = pre ++ (k, v') :: rest.
Proof.
  induction pre as [|[k0 v0] pre IH]; simpl; intros Hk.
  - by rewrite decide_True.
  - apply not_elem_of_cons in Hk as [Hne Hk]. rewrite decide_False by done.
    by rewrite IH.
Qed.

Lemma skip_unset_invert a v :
  hooks_invert a v ->
  skip_unset (_deserialize a) (skip_unset (_serialize a) v) = v.
Proof.
  intros H. destruct (decide (v = Unset)) as [->|Hv]; [done|].
  destruct (H Hv) as [Hs Hd].
  replace (skip_unset (_serialize a) v) with (_serialize a v) by (by destruct v).
  destruct (_serialize a v) eqn:E; simpl; congruence.
Qed.

Lemma elem_of_dict_keys {K V} (k : K) (v : V) (d : dict K V) :
  (k, v) ∈ d -> k ∈ dict_keys d.
Proof.
  induction d as [|[k' v'] d IH]; intros Hin.
  - by apply elem_of_nil in Hin.
  - apply elem_of_cons in Hin as [[= -> ->]|Hin]; simpl; [left | right; auto].
Qed.

Lemma in_dict_get {K V} `{EqDecision K} (k : K) (v : V) d :
  NoDup (dict_keys d) -> (k, v) ∈ d -> dict_get k d = Some v.
Proof.
  induction d as [|[k' v'] d IH]; simpl; intros Hnd Hin.
  - by apply elem_of_nil in Hin.
  - apply NoDup_cons in Hnd as [Hk' Hnd].
    apply elem_of_cons in Hin as [[= -> ->]|Hin]; [by rewrite decide_True|].
    rewrite decide_False; [by apply IH|].
    intros ->. apply Hk'. by eapply elem_of_dict_keys.
Qed.

Lemma load_attrs attrs blobs : forall values pre0 rest0 pre,
  NoDup (dict_keys (pre ++ attrs)) ->
  dict_keys pre0 = dict_keys pre ->
  dict_keys rest0 = dict_keys attrs ->
  (forall k a, (k, a) ∈ attrs ->
     hooks_invert a (default VNone (dict_get k values))) ->
  load_record (map (attr_entry values) attrs)
              (Blob (pre ++ attrs) (pre0 ++ rest0) blobs)
  = Some (Blob (pre ++ attrs)
               (pre0 ++ map (fun ka => (ka.1, default VNone (dict_get ka.1 values)))
                            attrs)
               blobs).
Proof.
  induction attrs as [|[k a] attrs IH];
    intros values pre0 rest0 pre Hnd Hpre Hrest Hhooks.
  - destruct rest0; [done | discriminate].
  - destruct rest0 as [|[k0 v0] rest0]; [discriminate|].
    rewrite !dict_keys_cons in Hrest. injection Hrest as -> Hrest.
    assert (Hk : k ∉ dict_keys pre).
    { unfold dict_keys in Hnd. rewrite map_app in Hnd. simpl in Hnd.
      apply NoDup_app in Hnd as (_ & Hdis & _). intros Hin.
      apply (Hdis _ Hin). left. }
    cbn [map load_record]. unfold attr_entry at 1. cbn [fst snd].
    rewrite (load_item_val k _ _ a) by (by apply dict_get_app_fresh).
    cbn [b_attrs b_values b_blobs].
    rewrite dict_set_app_fresh by (by rewrite Hpre).
    rewrite skip_unset_invert by (apply Hhooks; left).
    replace (pre ++ (k, a) :: attrs) with ((pre ++ [(k, a)]) ++ attrs)
      by (by rewrite <- app_assoc).
    replace (pre0 ++ (k, default VNone (dict_get k values)) :: rest0)
      with ((pre0 ++ [(k, default VNone (dict_get k values))]) ++ rest0)
      by (by rewrite <- app_assoc).
    rewrite IH.
    + by rewrite <- !app_assoc.
    + by rewrite <- app_assoc.
    + unfold dict_keys in *. rewrite !map_app. simpl. by rewrite Hpre.
    + done.
    + intros k' a' Hin. apply Hhooks. by right.
Qed.

Lemma load_blobs attrs values blobs0 blobs :
  Forall2 (fun kb0 kb => kb0.1 = kb.1 /\ same_schema kb0.2 kb.2) blobs0 blobs ->
  forall sds pre,
  Forall2 blob_entry blobs sds ->
  Forall (fun kb => forall b0 d, same_schema b0 kb.2 ->
                     serialize kb.2 = Ok d -> load_record d b0 = Some kb.2)
         blobs ->
  NoDup (dict_keys (pre ++ blobs)) ->
  (forall k, k ∈ dict_keys blobs -> dict_get k attrs = None) ->
  load_record sds (Blob attrs values (pre ++ blobs0))
  = Some (Blob attrs values (pre ++ blobs)).
Proof.
  induction 1 as [|[k0 sb0] [k sb] blobs0 blobs [Hk Hss] _ IH];
    intros sds pre Hsds Hrt Hnd Hattrs.
  - inversion Hsds. by subst.
  - simpl in Hk. subst k0.
    inversion Hsds as [|? [k' x] ? sds' [Hk' (sd & Hser & Hx)] Hsds']; subst.
    simpl in *. subst k' x.
    apply Forall_cons in Hrt as [Hhead Hrt].
    assert (Hkpre : k ∉ dict_keys pre).
    { unfold dict_keys in Hnd. rewrite map_app in Hnd. simpl in Hnd.
      apply NoDup_app in Hnd as (_ & Hdis & _). intros Hin.
      apply (Hdis _ Hin). left. }
    rewrite (load_item_dict k sd _ sb0 sb); cbn [b_attrs b_values b_blobs].
    2:{ apply Hattrs. left. }
    2:{ by apply dict_get_app_fresh. }
    2:{ exact (Hhead sb0 sd Hss Hser). }
    rewrite dict_set_app_fresh by done.
    replace (pre ++ (k, sb) :: blobs0) with ((pre ++ [(k, sb)]) ++ blobs0)
      by (by rewrite <- app_assoc).
    rewrite IH; [by rewrite <- app_assoc|done|done| |].
    + by rewrite <- app_assoc.
    + intros k' Hin. apply Hattrs. by right.
Qed.

Lemma values_of_keys (attrs : dict string Attribute) : forall values : dict string value,
  dict_keys values = dict_keys attrs -> NoDup (dict_keys values) ->
  map (fun ka : string * Attribute =>
         (ka.1, default VNone (dict_get ka.1 values))) attrs = values.
Proof.
  induction attrs as [|[k a] attrs IH]; intros [|[k' v] values] Hkeys Hnd;
    try discriminate; [done|].
  rewrite !dict_keys_cons in Hkeys. injection Hkeys as -> Hkeys.
  rewrite dict_keys_cons in Hnd. apply NoDup_cons in Hnd as [Hk Hnd].
  cbn [map fst dict_get]. rewrite decide_True by done. f_equal.
  etransitivity; [|apply (IH values Hkeys Hnd)].
  apply map_ext_in. intros [k0 a0] Hin. cbn [fst dict_get].
  rewrite decide_False; [done|]. intros ->. apply Hk. rewrite Hkeys.
  apply list_elem_of_In in Hin. by eapply elem_of_dict_keys.
Qed.

Lemma blob_entry_keys blobs sds :
  Forall2 blob_entry blobs sds -> dict_keys sds = dict_keys blobs.
Proof.
  induction 1 as [|[k b] [k' x] blobs sds [Hk _] _ IH]; [done|].
  simpl in *. by rewrite Hk, IH.
Qed.

Lemma dict_get_Some_keys {K V} `{EqDecision K} (k : K) (d : dict K V) :
  k ∈ dict_keys d -> exists v, dict_get k d = Some v.
Proof.
  intros Hin. destruct (dict_get k d) eqn:E; [by eexists|].
  by apply dict_get_None_keys in E.
Qed.

Lemma dict_get_elem_of {K V} `{EqDecision K} (k : K) (v : V) (d : dict K V) :
  dict_get k d = Some v -> (k, v) ∈ d.
Proof.
  induction d as [|[k' v'] d IH]; simpl; [done|].
  destruct (decide (k = k')) as [->|]; [intros [= ->]; left | right; auto].
Qed.

(** Loading what a blob serialized to into a blob of the same schema
    gives the blob back. *)
Theorem load_serialized b :
  storable b ->
  forall b0 d, same_schema b0 b -> serialize b = Ok d ->
               load_record d b0 = Some b.
Proof.
  induction b as [attrs values blobs IH] using blob_ind'.
  intros Hst b0 d Hss Hser.
  inversion Hst as [? ? ? Hkeys Hndb Hhooks Hsub]; subst.
  inversion Hss as [? values0 ? blobs0 ? Hkeys0 Hblobs]; subst.
  rewrite serialize_unfold in Hser.
  destruct (serialize_blobs blobs (Ok [])) as [acc|] eqn:Eb.
  2:{ by rewrite fold_serialize_attr_raise in Hser. }
  destruct (serialize_blobs_shape blobs [] acc Hndb) as (sds & -> & Hsds);
    [intros k _; apply not_elem_of_nil | done |].
  simpl in Hser.
  destruct (fold_serialize_attr_shape _ _ _ _ Hser) as (-> & Hnda & Hfresh).
  rewrite load_record_app.
  assert (Hlb : load_record sds (Blob attrs values0 blobs0)
                = Some (Blob attrs values0 blobs)).
  { apply (load_blobs attrs values0 blobs0 blobs Hblobs sds []); simpl.
    - done.
    - rewrite Forall_forall in IH, Hsub. apply Forall_forall.
      intros kb Hin b0 d Hss' Hser'. by apply IH; [|apply Hsub|..].
    - done.
    - intros k Hk. apply dict_get_None_keys. intros Hin.
      apply (Hfresh _ Hin). by rewrite (blob_entry_keys _ _ Hsds). }
  rewrite Hlb.
  assert (Hla : load_record (map (attr_entry values) attrs)
                            (Blob attrs values0 blobs)
                = Some (Blob attrs
                       (map (fun ka : string * Attribute =>
                               (ka.1, default VNone (dict_get ka.1 values)))
                            attrs) blobs)).
  { apply (load_attrs attrs blobs values [] values0 []); simpl; try done.
    - congruence.
    - intros k a Hin.
      destruct (dict_get_Some_keys k values) as (v & Hv).
      { rewrite Hkeys. by eapply elem_of_dict_keys. }
      rewrite Hv. simpl. by eapply Hhooks. }
  rewrite Hla. do 2 f_equal. apply values_of_keys; [done | by rewrite Hkeys].
Qed.

(** ** Deserializing does not raise *)

Lemma key_total_step w w' e e' :
  key_total w e -> same_shell e e' -> dict_kept w w' -> key_total w' e'.
Proof.
  intros Hk [Hc _ _ Hu _] Hd values blobs.
  destruct (Hk values blobs) as [k Hkk]. exists k. rewrite <- Hkk.
  by apply entity_key_ext.
Qed.

Lemma key_total_now w e : key_total w e -> exists k, entity_key w e = Ok k.
Proof.
  intros Hk. destruct (Hk (e_values e) (e_blobs e)) as [k Hkk]. exists k.
  rewrite <- Hkk. symmetry. by apply entity_key_ext.
Qed.

Lemma set_attr_val_run r path name v validate raw w e self attr value :
  heap w !! r = Some e ->
  key_total w e ->
  blob_at path (base_blob w e) = Some self ->
  dict_get name (b_attrs self) = Some attr ->
  checked_value attr v validate raw (getattr_field w e) = Ok value ->
  exists w', _set_attr_val r path name v validate raw w = (Ok tt, w').
Proof.
  intros Hr Hk Hself Hattr Hval.
  destruct (key_total_now _ _ Hk) as [old_key Hold].
  set (e1 := with_blob e (blob_write path name value (base_blob w e))).
  destruct (Hk (e_values e1) (e_blobs e1)) as [new_key Hnew].
  unfold _set_attr_val.
  rewrite bind_run, (self_blob_run _ _ _ _ Hr), Hself.
  rewrite bind_run, Hattr. simpl.
  rewrite bind_run, (get_entity_run _ _ _ Hr).
  rewrite bind_run. simpl. rewrite bind_run. unfold lift at 1. rewrite Hval.
  rewrite bind_run, (key_of_run _ _ _ Hr), Hold.
  rewrite bind_run, (update_entity_run _ _ _ _ Hr).
  fold e1.
  pose proof (heap_lookup_set r e1 w e Hr) as Hr1.
  rewrite bind_run, (key_of_run _ _ _ Hr1).
  assert (Hk1 : entity_key (set_heap (<[r:=e1]> (heap w)) w) e1 = Ok new_key).
  { rewrite <- Hnew. by apply entity_key_ext. }
  rewrite Hk1, bind_run.
  destruct (decide (new_key = old_key)) as [Heq|Hne].
  - simpl. unfold dirty. rewrite (update_entity_run _ _ _ _ Hr1). eauto.
  - rewrite bind_run, (update_entity_run _ _ _ _ Hr1).
    match goal with
    | |- context [set_heap (<[r := ?e2]> ?h) ?w1] =>
        pose proof (heap_lookup_set r e2 w1 _ Hr1) as Hr2
    end.
    unfold relocate.
    rewrite bind_run, (get_entity_run _ _ _ Hr2).
    unfold update_class, modify, dirty. simpl.
    unfold update_entity. simpl.
    rewrite list_lookup_insert_eq
      by (rewrite !length_insert; by eapply lookup_lt_Some).
    eauto.
Qed.

Lemma dict_blind_entity r P c :
  entity_blind r P (fun w => cs_dict (class_state_of w c)).
Proof. by intros w e e' _ _. Qed.

Lemma dict_blind_class c :
  class_blind cache_change (fun w => cs_dict (class_state_of w c)).
Proof.
  apply blind_table_class; [done|]. by intros cs cs' [].
Qed.

Lemma deserialize_item_dict r path key dv w res w' :
  deserialize_item r path key dv w = (res, w') -> dict_kept w w'.
Proof.
  intros Hrun c.
  exact (deserialize_item_keeps _ r (dict_blind_entity r _ c)
           (dict_blind_class c) dv path key _ _ _ Hrun).
Qed.

Section DeserializeTotal.
Context (r : nat).

Lemma deserialize_item_total dv : forall path key w e self b',
  heap w !! r = Some e ->
  key_total w e ->
  blob_at path (base_blob w e) = Some self ->
  load_item key dv self = Some b' ->
  exists w', deserialize_item r path key dv w = (Ok tt, w').
Proof.
  induction dv as [v|fs|d IH] using data_ind';
    intros path key w e self b' Hr Hk Hself Hload; simpl;
    rewrite bind_run, (self_blob_run _ _ _ _ Hr), Hself;
    cbv beta iota; simpl in Hload.
  - destruct (dict_get key (b_attrs self)) as [attr|] eqn:Eattr.
    + eapply set_attr_val_run; eauto. apply checked_value_raw.
    + unfold dict_has. destruct (dict_get key (b_blobs self)); [discriminate|].
      eauto.
  - destruct (dict_get key (b_attrs self)) as [attr|] eqn:Eattr; [discriminate|].
    unfold dict_has. destruct (dict_get key (b_blobs self)); [discriminate|].
    eauto.
  - destruct (dict_get key (b_attrs self)) as [attr|] eqn:Eattr; [discriminate|].
    unfold dict_has.
    destruct (dict_get key (b_blobs self)) as [sb|] eqn:Esb; [|eauto].
    assert (Hat : blob_at (path ++ [key]) (base_blob w e) = Some sb).
    { by rewrite blob_at_snoc, Hself. }
    match type of Hload with
    | match ?items d sb with _ => _ end = _ =>
        destruct (items d sb) as [sb'|] eqn:Eitems; [|discriminate]
    end.
    clear Hload Esb Eattr Hself. revert w e sb Hr Hk Hat Eitems.
    induction IH as [|[k x] d Hx _ IHd]; intros w e sb Hr Hk Hat Eitems.
    + eauto.
    + destruct (load_item k x sb) as [b1|] eqn:Eb1; [|discriminate].
      destruct (Hx _ _ _ _ _ _ Hr Hk Hat Eb1) as (w1 & Hitem).
      cbn [snd] in Hitem.
      destruct (deserialize_item_sim _ _ _ _ _ _ _ _ Hr Hat Hitem)
        as (b1' & Hb1' & e1 & Hr1 & Hsh1 & Hbb1).
      rewrite Eb1 in Hb1'. injection Hb1' as <-.
      assert (Hat1 : blob_at (path ++ [key]) (base_blob w1 e1) = Some b1).
      { rewrite Hbb1. by eapply blob_at_put. }
      assert (Hk1 : key_total w1 e1).
      { eapply key_total_step; [exact Hk | exact Hsh1 |].
        by eapply deserialize_item_dict. }
      destruct (IHd _ _ _ Hr1 Hk1 Hat1 Eitems) as (w' & Hrest).
      exists w'. by rewrite (bind_ok _ _ _ _ _ Hitem).
Qed.

Lemma deserialize_total d : forall path w e self b',
  heap w !! r = Some e ->
  key_total w e ->
  blob_at path (base_blob w e) = Some self ->
  load_record d self = Some b' ->
  exists w', deserialize r path d w = (Ok tt, w')
             /\ blob_becomes r w w' e (blob_put path b' (base_blob w e)).
Proof.
  induction d as [|[k x] d IH]; intros path w e self b' Hr Hk Hself Hload;
    simpl in Hload.
  - injection Hload as <-. exists w. split; [done|].
    exists e. split; [done|]. split; [done|]. by rewrite blob_put_same.
  - destruct (load_item k x self) as [b1|] eqn:Eb1; [|discriminate].
    destruct (deserialize_item_total _ _ _ _ _ _ _ Hr Hk Hself Eb1)
      as (w1 & Hitem).
    destruct (deserialize_item_sim _ _ _ _ _ _ _ _ Hr Hself Hitem)
      as (b1' & Hb1' & e1 & Hr1 & Hsh1 & Hbb1).
    rewrite Eb1 in Hb1'. injection Hb1' as <-.
    assert (Hat1 : blob_at path (base_blob w1 e1) = Some b1).
    { rewrite Hbb1. by eapply blob_at_put. }
    assert (Hk1 : key_total w1 e1).
    { eapply key_total_step; [exact Hk | exact Hsh1 |].
      by eapply deserialize_item_dict. }
    destruct (IH _ _ _ _ _ Hr1 Hk1 Hat1 Hload) as (w' & Hrest & e' & Hr' & Hsh' & Hbb').
    exists w'. split.
    + simpl. by rewrite (bind_ok _ _ _ _ _ Hitem).
    + exists e'. split; [done|]. split; [by etransitivity|].
      rewrite Hbb', Hbb1. by eapply blob_put_put.
Qed.
End DeserializeTotal.

(** ** The fields of a new instance *)

Lemma dict_keys_default attrs : dict_keys (default_values attrs) = dict_keys attrs.
Proof.
  unfold dict_keys, default_values. rewrite map_map. by apply map_ext.
Qed.

Lemma default_values_set k a attrs :
  default_values (dict_set k a attrs)
  = dict_set k (attr_default a) (default_values attrs).
Proof.
  induction attrs as [|[k' a'] attrs IH]; simpl; [done|].
  destruct (decide (k = k')); simpl; [done | by rewrite IH].
Qed.

Lemma default_values_update other : forall attrs,
  default_values (dict_update attrs other)
  = dict_update (default_values attrs) (default_values other).
Proof.
  unfold dict_update.
  induction other as [|[k a] other IH]; intros attrs; simpl; [done|].
  by rewrite IH, default_values_set.
Qed.

Lemma Forall_dict_set {V} (P : V -> Prop) k v (d : dict string V) :
  P v -> Forall (fun kv => P kv.2) d -> Forall (fun kv => P kv.2) (dict_set k v d).
Proof.
  intros Hv. induction 1 as [|[k' v'] d Hh Ht IH]; simpl.
  - by constructor.
  - destruct (decide (k = k')); constructor; done.
Qed.

Lemma Forall_dict_update {V} (P : V -> Prop) (other : dict string V) :
  Forall (fun kv => P kv.2) other -> forall d,
  Forall (fun kv => P kv.2) d ->
  Forall (fun kv => P kv.2) (dict_update d other).
Proof.
  unfold dict_update.
  induction 1 as [|[k v] other Hh Ht IH]; intros d Hd; simpl; [done|].
  apply IH. by apply Forall_dict_set.
Qed.

Lemma instantiate_aligned bc : aligned (instantiate bc).
Proof.
  induction bc as [attrs blobs IH] using blob_class_ind'. simpl.
  constructor; [apply dict_keys_default|].
  induction IH as [|[k c] l Hc _ IHl]; simpl; constructor; done.
Qed.

Lemma instantiate_all_aligned l :
  Forall (fun kb => aligned kb.2) (instantiate_all l).
Proof.
  induction l as [|[k c] l IH]; constructor; [apply instantiate_aligned | done].
Qed.

#[global] Instance stays_fresh_preorder r : PreOrder (stays_fresh r).
Proof. split; [by intros w H | intros w1 w2 w3 H12 H23 H; by apply H23, H12]. Qed.

Lemma fresh_fields_kept r w w' :
  e_class <$> heap w' !! r = e_class <$> heap w !! r ->
  e_values <$> heap w' !! r = e_values <$> heap w !! r ->
  e_blobs <$> heap w' !! r = e_blobs <$> heap w !! r ->
  (forall c, cs_attrs (class_state_of w' c) = cs_attrs (class_state_of w c)) ->
  fresh_fields r w -> fresh_fields r w'.
Proof.
  intros Hc Hv Hb Ha (e & Hr & Hval & Hblobs).
  rewrite Hr in Hc, Hv, Hb.
  destruct (heap w' !! r) as [e'|] eqn:Hr'; [|discriminate].
  simpl in *. injection Hc as Hc. injection Hv as Hv. injection Hb as Hb.
  exists e'. split; [done|]. by rewrite Hc, Hv, Hb, Ha.
Qed.

Lemma update_stays_fresh r w0 c :
  keeps (stays_fresh r) (_update r (base_blob_new w0 c)).
Proof.
  intros w res w' Hrun (e & Hr & Hval & Hblobs).
  unfold _update in Hrun.
  rewrite bind_run, (get_entity_run _ _ _ Hr) in Hrun.
  rewrite bind_run, (update_entity_run _ _ _ _ Hr) in Hrun.
  unfold update_class, modify in Hrun. rewrite bind_run in Hrun.
  cbv beta iota in Hrun. unfold update_entity in Hrun. simpl in Hrun.
  rewrite list_lookup_insert_eq in Hrun by (by eapply lookup_lt_Some).
  injection Hrun as _ <-.
  eexists. split.
  { simpl. apply list_lookup_insert_eq. rewrite length_insert.
    by eapply lookup_lt_Some. }
  simpl. split.
  - rewrite class_state_of_set_heap, class_state_of_set_eq. simpl.
    rewrite class_state_of_set_heap.
    by rewrite default_values_update, Hval.
  - apply Forall_dict_update; [apply instantiate_all_aligned | done].
Qed.

Lemma build_base_blob_stays_fresh r cls : forall checked,
  keeps (stays_fresh r) (_build_base_blob r cls checked).
Proof.
  induction cls as [i n b u k s bases IH] using pyclass_ind'.
  intros checked. simpl. apply keeps_bind; [typeclasses eauto | |].
  - revert checked. induction IH as [|base bases Hbase _ IHb];
      intros checked; repeat keeps_step; [apply Hbase | apply IHb].
  - intros checked'. repeat keeps_step. apply update_stays_fresh.
Qed.

Lemma Entity_init_fresh cls act sav w r w1 :
  Entity_init cls None act sav w = (Ok r, w1) ->
  exists e1, heap w1 !! r = Some e1
    /\ e_values e1 = default_values (cs_attrs (class_state_of w1 (e_class e1)))
    /\ Forall (fun kb => aligned kb.2) (e_blobs e1).
Proof.
  intros Hrun. unfold Entity_init in Hrun.
  rewrite bind_run in Hrun. unfold get_world at 1 in Hrun.
  cbv beta iota zeta in Hrun.
  rewrite bind_run in Hrun. unfold alloc at 1 in Hrun. cbv beta iota in Hrun.
  set (e0 := {| e_class := cls |}) in Hrun.
  set (w0 := set_heap (heap w ++ [e0]) w) in Hrun.
  apply bind_ok_inv in Hrun as ([] & w2 & Hcons & Hrun).
  apply bind_ok_inv in Hrun as ([] & w3 & Hreg & Hrun).
  injection Hrun as <- <-.
  set (r := length (heap w)) in *.
  assert (H0 : fresh_fields r w0).
  { exists e0. split.
    - unfold w0, r. simpl. by rewrite lookup_app_r, Nat.sub_diag.
    - split; [done | apply instantiate_all_aligned]. }
  unfold construct in Hcons.
  apply bind_ok_inv in Hcons as (checked & wb & Hbuild & Hcons).
  pose proof (build_base_blob_stays_fresh _ _ _ _ _ _ Hbuild H0) as Hb.
  rewrite bind_run in Hcons. cbv beta iota in Hcons.
  assert (H2 : fresh_fields r w2).
  { revert Hb. 
    assert (Hkeep : forall {T} (obs : world -> T),
               entity_blind r (fun e e' => e_class e' = e_class e
                                 /\ e_values e' = e_values e
                                 /\ e_blobs e' = e_blobs e) obs ->
               counter_blind obs -> obs w2 = obs wb).
    { intros T obs Hent Hcnt.
      assert (Hk : keeps (kept obs)
                (e ← get_entity r;
                 if decide (_uid e = VNone)
                 then uid ← make_uid cls; update_entity r (fun e => with_uid e uid)
                 else mret tt)).
      { repeat (first [ apply make_uid_keeps
                      | eapply keeps_update_entity; [exact Hent | done]
                      | keeps_step ]); done. }
      by eapply Hk. }
    apply fresh_fields_kept.
    - apply (Hkeep _ (fun w => e_class <$> heap w !! r)).
      + apply blind_field_entity. by intros ?? (? & ? & ?).
      + by intros ??.
    - apply (Hkeep _ (fun w => e_values <$> heap w !! r)).
      + apply blind_field_entity. by intros ?? (? & ? & ?).
      + by intros ??.
    - apply (Hkeep _ (fun w => e_blobs <$> heap w !! r)).
      + apply blind_field_entity. by intros ?? (? & ? & ?).
      + by intros ??.
    - intros c. apply (Hkeep _ (fun w => cs_attrs (class_state_of w c))).
      + by intros ?????.
      + by intros ??. }
  destruct H2 as (e2 & Hr2 & Hv2 & Hb2).
  destruct (register_instance_inv _ _ _ _ _ Hr2 Hreg)
    as (Hheap & _ & _ & _ & Hattrs & _).
  exists e2. rewrite Hheap, Hattrs. done.
Qed.

(** ** Serializing and deserializing *)

Lemma spoil_blob_unfold junk attrs values blobs :
  spoil_blob junk (Blob attrs values blobs)
  = Blob (spoil_attrs junk attrs) values (spoil_blobs junk blobs).
Proof.
  simpl. f_equal. induction blobs as [|[k sb] l IH]; [done|].
  simpl. by rewrite IH.
Qed.

(** *** Serializing returns *)

Lemma fold_serialize_attr_total values attrs : forall acc : record,
  NoDup (dict_keys attrs) ->
  (forall k, k ∈ dict_keys attrs -> k ∉ dict_keys acc) ->
  exists d, fold_left (serialize_attr values) attrs (Ok acc) = Ok d.
Proof.
  induction attrs as [|[k a] attrs IH]; intros acc Hnd Hfresh; simpl.
  - eauto.
  - rewrite dict_keys_cons in Hnd. apply NoDup_cons in Hnd as [Hk Hnd].
    assert (Hkacc : dict_get k acc = None).
    { apply dict_get_None_keys, Hfresh. rewrite dict_keys_cons. set_solver. }
    unfold dict_has. rewrite Hkacc, dict_set_fresh by done.
    apply IH; [done|]. intros k' Hk'.
    unfold dict_keys. rewrite map_app. simpl.
    specialize (Hfresh k'). rewrite dict_keys_cons in Hfresh.
    unfold dict_keys in *. set_solver.
Qed.

Lemma serialize_blobs_total l : forall acc : list (string * data),
  NoDup (dict_keys l) ->
  (forall k, k ∈ dict_keys l -> k ∉ dict_keys acc) ->
  Forall (fun kb => exists d, serialize kb.2 = Ok d) l ->
  exists d, serialize_blobs l (Ok acc) = Ok d.
Proof.
  induction l as [|[k sb] l IH]; intros acc Hnd Hfresh Hall; simpl.
  - eauto.
  - apply Forall_cons in Hall as [[sd Hsd] Hall]. simpl in Hsd.
    rewrite Hsd. rewrite dict_keys_cons in Hnd.
    apply NoDup_cons in Hnd as [Hk Hnd].
    assert (Hkacc : dict_get k acc = None).
    { apply dict_get_None_keys, Hfresh. rewrite dict_keys_cons. set_solver. }
    rewrite dict_set_fresh by done.
    apply IH; [done| |done]. intros k' Hk'.
    unfold dict_keys. rewrite map_app. simpl.
    specialize (Hfresh k'). rewrite dict_keys_cons in Hfresh.
    unfold dict_keys in *. set_solver.
Qed.

Lemma serialize_total b : sound b -> exists d, serialize b = Ok d.
Proof.
  induction b as [attrs values blobs IH] using blob_ind'.
  intros Hs. inversion Hs as [? ? ? Hnda Hndb Hdis Hhooks Hsub]; subst.
  rewrite serialize_unfold.
  destruct (serialize_blobs_total blobs [] Hndb) as [acc Hacc].
  { intros k _. apply not_elem_of_nil. }
  { rewrite Forall_forall in IH, Hsub. apply Forall_forall.
    intros kb Hin. by apply IH; [|apply Hsub]. }
  rewrite Hacc.
  destruct (serialize_blobs_shape blobs [] acc Hndb) as (sds & -> & Hsds);
    [intros k _; apply not_elem_of_nil | done |].
  apply fold_serialize_attr_total; [done|].
  intros k Hk. simpl. rewrite (blob_entry_keys _ _ Hsds). by apply Hdis.
Qed.

Lemma sound_storable b : sound b -> aligned b -> storable b.
Proof.
  induction b as [attrs values blobs IH] using blob_ind'.
  intros Hs Ha.
  inversion Hs as [? ? ? Hnda Hndb Hdis Hhooks Hsub]; subst.
  inversion Ha as [? ? ? Hkeys Hal]; subst.
  constructor; [done | done | |].
  - intros k a v Hin Hv. specialize (Hhooks k a Hin). by rewrite Hv in Hhooks.
  - rewrite Forall_forall in IH, Hsub, Hal. apply Forall_forall.
    intros kb Hin. by apply IH; [|apply Hsub|apply Hal].
Qed.

(** *** The sentinel and the hooks *)

Lemma serialize_attr_spoil junk values acc k a :
  serialize_attr values acc (k, spoil junk a) = serialize_attr values acc (k, a).
Proof.
  unfold serialize_attr. destruct acc as [d|]; [|done]. simpl.
  destruct (dict_has k d); [done|].
  by destruct (dict_get k values) as [[]|].
Qed.

Lemma fold_serialize_attr_spoil junk values attrs : forall acc,
  fold_left (serialize_attr values) (spoil_attrs junk attrs) acc
  = fold_left (serialize_attr values) attrs acc.
Proof.
  induction attrs as [|[k a] attrs IH]; intros acc; [done|].
  simpl. by rewrite serialize_attr_spoil, IH.
Qed.

Lemma serialize_spoil junk b : serialize (spoil_blob junk b) = serialize b.
Proof.
  induction b as [attrs values blobs IH] using blob_ind'.
  rewrite spoil_blob_unfold, !serialize_unfold, fold_serialize_attr_spoil.
  f_equal. generalize (Ok [] : result record) as acc.
  induction IH as [|[k sb] l Hsb _ IHl]; intros acc; [done|].
  simpl in *. destruct acc as [d|]; [|done].
  rewrite Hsb. destruct (serialize sb); [apply IHl | done].
Qed.

Lemma dict_get_map {V W} (f : V -> W) k (d : dict string V) :
  dict_get k (map (fun kv => (kv.1, f kv.2)) d) = f <$> dict_get k d.
Proof.
  induction d as [|[k' v] d IH]; simpl; [done|].
  by destruct (decide (k = k')).
Qed.

Lemma dict_set_map {V W} (f : V -> W) k v (d : dict string V) :
  dict_set k (f v) (map (fun kv => (kv.1, f kv.2)) d)
  = map (fun kv => (kv.1, f kv.2)) (dict_set k v d).
Proof.
  induction d as [|[k' v'] d IH]; simpl; [done|].
  destruct (decide (k = k')); simpl; [done | by rewrite IH].
Qed.

Lemma skip_unset_spoil junk a v :
  skip_unset (_deserialize (spoil junk a)) v = skip_unset (_deserialize a) v.
Proof. by destruct v. Qed.

Lemma load_item_spoil junk dv : forall key b,
  load_item key dv (spoil_blob junk b) = spoil_blob junk <$> load_item key dv b.
Proof.
  induction dv as [v|fs|d IH] using data_ind'; intros key [attrs values blobs];
    rewrite spoil_blob_unfold; simpl load_item;
    unfold spoil_attrs at 1; rewrite dict_get_map;
    destruct (dict_get key attrs) as [attr|] eqn:Eattr;
    cbn [fmap option_fmap option_map b_attrs b_values b_blobs].
  - by rewrite spoil_blob_unfold, skip_unset_spoil.
  - unfold spoil_blobs at 1. rewrite dict_get_map.
    destruct (dict_get key blobs); cbn [fmap option_fmap option_map];
      rewrite ?spoil_blob_unfold; done.
  - done.
  - unfold spoil_blobs at 1. rewrite dict_get_map.
    destruct (dict_get key blobs); cbn [fmap option_fmap option_map];
      rewrite ?spoil_blob_unfold; done.
  - done.
  - unfold spoil_blobs at 1. rewrite dict_get_map.
    destruct (dict_get key blobs) as [sb|] eqn:Esb;
      cbn [fmap option_fmap option_map].
    2:{ by rewrite spoil_blob_unfold. }
    change ((fix items (l : list (string * data)) (sb : blob) :=
               match l with
               | [] => Some sb
               | (k, x) :: l' =>
                   match load_item k x sb with
                   | Some sb' => items l' sb'
                   | None => None
                   end
               end)) with load_record.
    assert (Hrec : forall sb,
              load_record d (spoil_blob junk sb)
              = spoil_blob junk <$> load_record d sb).
    { induction IH as [|[k x] d Hx _ IHd]; intros sb0; [done|].
      cbn [load_record snd] in *. rewrite Hx.
      destruct (load_item k x sb0); cbn [fmap option_fmap option_map];
        [apply IHd | done]. }
    rewrite Hrec. destruct (load_record d sb) as [sb'|];
      cbn [fmap option_fmap option_map]; [|done].
    rewrite spoil_blob_unfold. unfold spoil_blobs. by rewrite dict_set_map.
Qed.

Lemma load_record_spoil junk d : forall b,
  load_record d (spoil_blob junk b) = spoil_blob junk <$> load_record d b.
Proof.
  induction d as [|[k x] d IH]; intros b; [done|].
  cbn [load_record]. rewrite load_item_spoil.
  destruct (load_item k x b); cbn [fmap option_fmap option_map];
    [apply IH | done].
Qed.

Lemma dict_get_app_skip {K V} `{EqDecision K} (k : K) (pre rest : dict K V) :
  k ∉ dict_keys pre -> dict_get k (pre ++ rest) = dict_get k rest.
Proof.
  intros Hk. induction pre as [|[k' v] pre IH]; [done|].
  simpl. rewrite dict_keys_cons in Hk.
  rewrite decide_False by set_solver. apply IH. set_solver.
Qed.

Lemma dict_get_attr_entry values k attrs a :
  dict_get k attrs = Some a ->
  dict_get k (map (attr_entry values) attrs)
  = Some (DVal (skip_unset (_serialize a) (default VNone (dict_get k values)))).
Proof.
  induction attrs as [|[k' a'] attrs IH]; [done|].
  simpl. destruct (decide (k = k')) as [->|]; [|done].
  by intros [= ->].
Qed.

(** A field that holds the sentinel is stored as the sentinel. *)
Lemma serialize_unset b d k :
  sound b -> aligned b -> serialize b = Ok d ->
  dict_get k (b_values b) = Some Unset ->
  dict_get k d = Some (DVal Unset).
Proof.
  destruct b as [attrs values blobs]. intros Hs Ha Hser Hk. simpl in Hk.
  inversion Hs as [? ? ? Hnda Hndb Hdis Hhooks Hsub]; subst.
  inversion Ha as [? ? ? Hkeys Hal]; subst.
  rewrite serialize_unfold in Hser.
  destruct (serialize_blobs blobs (Ok [])) as [acc|] eqn:Eb.
  2:{ by rewrite fold_serialize_attr_raise in Hser. }
  destruct (serialize_blobs_shape blobs [] acc Hndb) as (sds & -> & Hsds);
    [intros k' _; apply not_elem_of_nil | done |].
  simpl in Hser.
  destruct (fold_serialize_attr_shape _ _ _ _ Hser) as (-> & _ & _).
  assert (Hin : k ∈ dict_keys attrs).
  { rewrite <- Hkeys. apply dict_get_elem_of in Hk. by eapply elem_of_dict_keys. }
  destruct (dict_get_Some_keys _ _ Hin) as [a Hka].
  rewrite dict_get_app_skip.
  - by rewrite (dict_get_attr_entry _ _ _ _ Hka), Hk.
  - rewrite (blob_entry_keys _ _ Hsds). by apply Hdis.
Qed.

(** C3, amended: for a freshly constructed entity whose schema names
    nothing twice and whose descriptors' [deserialize] hooks read back
    what their [serialize] hooks write for the values held, serializing
    its blob returns a record, and deserializing that record into an
    instance of the same schema whose key can be read returns and leaves
    it with the same field values and sub-blobs.  A field that holds the
    sentinel is stored as the sentinel and read back as the sentinel,
    and neither the record nor the values read back depend on what a
    hook would answer for the sentinel. *)
Theorem serialize_deserialize_round_trip
    cls act sav w0 r1 w1 e1 r2 w2 e2 :
  Entity_init cls None act sav w0 = (Ok r1, w1) ->
  heap w1 !! r1 = Some e1 ->
  sound (base_blob w1 e1) ->
  heap w2 !! r2 = Some e2 ->
  same_schema (base_blob w2 e2) (base_blob w1 e1) ->
  key_total w2 e2 ->
  exists d w3 e3,
    serialize (base_blob w1 e1) = Ok d
    /\ deserialize r2 [] d w2 = (Ok tt, w3)
    /\ heap w3 !! r2 = Some e3
    /\ base_blob w3 e3 = base_blob w1 e1
    /\ (forall k, dict_get k (e_values e1) = Some Unset ->
          dict_get k d = Some (DVal Unset)
          /\ dict_get k (e_values e3) = Some Unset)
    /\ (forall junk, serialize (spoil_blob junk (base_blob w1 e1)) = Ok d)
    /\ (forall junk w2' e2',
          heap w2' !! r2 = Some e2' ->
          base_blob w2' e2' = spoil_blob junk (base_blob w2 e2) ->
          key_total w2' e2' ->
          exists w3' e3',
            deserialize r2 [] d w2' = (Ok tt, w3')
            /\ heap w3' !! r2 = Some e3'
            /\ e_values e3' = e_values e1
            /\ e_blobs e3' = spoil_blobs junk (e_blobs e1)).
Proof.
  intros Hinit Hr1 Hsound Hr2 Hschema Hkey.
  destruct (Entity_init_fresh _ _ _ _ _ _ Hinit) as (e1' & Hr1' & Hval & Hblobs).
  rewrite Hr1 in Hr1'. injection Hr1' as <-.
  assert (Hal : aligned (base_blob w1 e1)).
  { constructor; [|done]. rewrite Hval. apply dict_keys_default. }
  pose proof (sound_storable _ Hsound Hal) as Hst.
  destruct (serialize_total _ Hsound) as [d Hd].
  pose proof (load_serialized _ Hst _ _ Hschema Hd) as Hload.
  destruct (deserialize_total r2 d [] w2 e2 _ _ Hr2 Hkey eq_refl Hload)
    as (w3 & Hrun & e3 & Hr3 & Hsh & Hb3).
  cbn [blob_put] in Hb3.
  exists d, w3, e3. repeat (split; [done|]). split; [|split].
  - intros k Hk. split.
    + by apply (serialize_unset _ _ _ Hsound Hal Hd).
    + assert (Hv : e_values e3 = e_values e1) by (by injection Hb3).
      by rewrite Hv.
  - intros junk. by rewrite serialize_spoil.
  - intros junk w2' e2' Hr2' Hb2' Hkey'.
    assert (Hload' : load_record d (base_blob w2' e2')
                     = Some (spoil_blob junk (base_blob w1 e1))).
    { by rewrite Hb2', load_record_spoil, Hload. }
    destruct (deserialize_total r2 d [] w2' e2' _ _ Hr2' Hkey' eq_refl Hload')
      as (w3' & Hrun' & e3' & Hr3' & Hsh' & Hb3').
    cbn [blob_put] in Hb3'. exists w3', e3'. repeat (split; [done|]).
    unfold base_blob in Hb3'. rewrite spoil_blob_unfold in Hb3'.
    by injection Hb3'.
Qed.

(** ** Construction from a record *)

Lemma set_heap_id r e w :
  heap w !! r = Some e -> set_heap (<[r := e]> (heap w)) w = w.
Proof.
  intros Hr. destruct w as [h c s u t]. unfold set_heap. simpl in *.
  by rewrite list_insert_id.
Qed.

Lemma dict_del_absent {K V} `{EqDecision K} (k : K) (d : dict K V) :
  dict_get k d = None -> dict_del k d = d.
Proof.
  induction d as [|[k' v] d IH]; simpl; [done|].
  destruct (decide (k = k')); [discriminate|]. intros H. by rewrite IH.
Qed.

#[global] Instance same_fields_preorder : PreOrder same_fields.
Proof.
  split.
  - intros e. by split.
  - intros e1 e2 e3 [] []. split; congruence.
Qed.

Lemma set_heap_twice r e1 e2 w :
  set_heap (<[r := e2]> (heap (set_heap (<[r := e1]> (heap w)) w)))
           (set_heap (<[r := e1]> (heap w)) w)
  = set_heap (<[r := e2]> (heap w)) w.
Proof. unfold set_heap. simpl. by rewrite list_insert_insert_eq. Qed.

Lemma update_then_ret {A} r f (x : A) w e x' w' :
  heap w !! r = Some e ->
  (update_entity r f ≫= λ _, mret x) w = (Ok x', w') ->
  x' = x /\ w' = set_heap (<[r := f e]> (heap w)) w.
Proof.
  intros Hr Hrun. rewrite bind_run, (update_entity_run _ _ _ _ Hr) in Hrun.
  by injection Hrun as <- <-.
Qed.

(** What a successful [Entity.deserialize] did before it handed the
    record to the blob: it touched the identifier, the flags and the
    tags of the entity only. *)
Lemma entity_deserialize_inv r d w w' e :
  heap w !! r = Some e ->
  entity_deserialize r d w = (Ok tt, w') ->
  exists et,
    same_fields e et
    /\ (dict_get "uid" d = None -> _uid et = _uid e)
    /\ deserialize r [] (blob_record d) (set_heap (<[r := et]> (heap w)) w)
       = (Ok tt, w').
Proof.
  intros Hr Hrun. unfold entity_deserialize in Hrun.
  apply bind_ok_inv in Hrun as (d1 & w1 & Huid & Hrun).
  assert (H1 : exists e1, same_fields e e1
             /\ (dict_get "uid" d = None -> _uid e1 = _uid e)
             /\ d1 = dict_del "uid" d
             /\ w1 = set_heap (<[r := e1]> (heap w)) w).
  { destruct (dict_get "uid" d) as [[u| |]|] eqn:Euid; try discriminate.
    - destruct (update_then_ret _ _ _ _ _ _ _ Hr Huid) as [-> ->].
      exists (with_uid e u). split; [by split|]. split; [discriminate|]. done.
    - injection Huid as <- <-. exists e. split; [reflexivity|].
      split; [done|]. split; [symmetry; by apply dict_del_absent|].
      symmetry. by apply set_heap_id. }
  destruct H1 as (e1 & Hsf1 & Hu1 & -> & ->).
  assert (Hr1 := heap_lookup_set r e1 w e Hr).
  apply bind_ok_inv in Hrun as (d2 & w2 & Hflags & Hrun).
  assert (H2 : exists e2, same_fields e e2
             /\ (dict_get "uid" d = None -> _uid e2 = _uid e)
             /\ d2 = dict_del "flags" (dict_del "uid" d)
             /\ w2 = set_heap (<[r := e2]> (heap w)) w).
  { destruct (dict_get "flags" (dict_del "uid" d)) as [[|fs|]|] eqn:Efl;
      try discriminate.
    - destruct (update_then_ret _ _ _ _ _ _ _ Hr1 Hflags) as [-> ->].
      rewrite set_heap_twice.
      eexists. split; [|split; [|split; reflexivity]].
      + destruct Hsf1. by split.
      + exact Hu1.
    - injection Hflags as <- <-. exists e1. split; [done|].
      split; [done|]. split; [symmetry; by apply dict_del_absent | done]. }
  destruct H2 as (e2 & Hsf2 & Hu2 & -> & ->).
  assert (Hr2 := heap_lookup_set r e2 w e Hr).
  apply bind_ok_inv in Hrun as (d3 & w3 & Htags & Hrun).
  assert (H3 : exists e3, same_fields e e3
             /\ (dict_get "uid" d = None -> _uid e3 = _uid e)
             /\ d3 = blob_record d
             /\ w3 = set_heap (<[r := e3]> (heap w)) w).
  { unfold blob_record.
    destruct (dict_get "tags" (dict_del "flags" (dict_del "uid" d)))
      as [[| |td]|] eqn:Etg; try discriminate.
    - apply bind_ok_inv in Htags as (t & wt & Ht & Htags).
      unfold lift in Ht. destruct (tags_of_data td); [|discriminate].
      injection Ht as -> <-.
      rewrite bind_run, (update_entity_run _ _ _ _ Hr2), set_heap_twice in Htags.
      match type of Htags with
      | context [set_heap (<[r := ?e']> (heap w)) w] =>
          assert (Hr3 := heap_lookup_set r e' w e Hr)
      end.
      destruct (update_then_ret _ _ _ _ _ _ _ Hr3 Htags) as [-> ->].
      rewrite set_heap_twice.
      eexists. split; [|split; [|split; reflexivity]].
      + destruct Hsf2. by split.
      + exact Hu2.
    - injection Htags as <- <-. exists e2. split; [done|].
      split; [done|]. split; [symmetry; by apply dict_del_absent | done]. }
  destruct H3 as (e3 & Hsf3 & Hu3 & -> & ->).
  by exists e3.
Qed.

Section BuildShell.
Context {T : Type} (obs : world -> T) (r : nat).
Hypothesis Hent : entity_blind r same_shell obs.
Hypothesis Hcls : class_blind table_change obs.

Lemma update_keeps_shell other : keeps (kept obs) (_update r other).
Proof.
  unfold _update.
  repeat (first [ eapply keeps_update_entity; [exact Hent | by split]
                | eapply keeps_update_class; [exact Hcls | by split]
                | keeps_step ]).
Qed.

Lemma build_base_blob_keeps_shell cls : forall checked,
  keeps (kept obs) (_build_base_blob r cls checked).
Proof.
  induction cls as [i n b u k s bases IH] using pyclass_ind'.
  intros checked. simpl. apply keeps_bind; [typeclasses eauto | |].
  - revert checked. induction IH as [|base bases Hbase _ IHb];
      intros checked; repeat keeps_step; [apply Hbase | apply IHb].
  - intros checked'. repeat keeps_step. apply update_keeps_shell.
Qed.
End BuildShell.

Lemma fresh_world_run cls act sav w checked wb :
  _build_base_blob (length (heap w)) cls ∅
    (set_heap (heap w ++ [{| e_class := cls;
                             e_values := b_values (base_blob_new w cls);
                             e_blobs := b_blobs (base_blob_new w cls);
                             _dirty := false; _savable := sav;
                             _uid := VNone; active := act;
                             flags := []; tags := [] |}]) w)
  = (Ok checked, wb) ->
  fresh_world cls act sav w = wb.
Proof.
  intros Hbuild. unfold fresh_world, state_after. cbv zeta.
  rewrite bind_run. unfold alloc at 1. cbv beta iota.
  by rewrite Hbuild.
Qed.

(** What [Entity.__init__] with data leaves in the new entity: the
    record read into the blob of a new instance; and an identifier of
    its own where the data names none. *)
Lemma Entity_init_data_inv cls d0 act sav w r w1 :
  Entity_init cls (Some d0) act sav w = (Ok r, w1) ->
  exists eb e1,
    heap (fresh_world cls act sav w) !! r = Some eb
    /\ e_class eb = cls
    /\ fresh_fields r (fresh_world cls act sav w)
    /\ heap w1 !! r = Some e1
    /\ load_record (blob_record d0) (base_blob (fresh_world cls act sav w) eb)
       = Some (base_blob w1 e1)
    /\ (dict_get "uid" d0 = None ->
        _uid e1 = VStr (c_uid_code cls +:+ "-"
                        +:+ int_to_base_n
                              (whole_part
                                 (next_timecode (timers_time w)
                                                (uid_timecode w)))
                              _uid_timecode_charset)
        /\ uid_timecode w1 = next_timecode (timers_time w) (uid_timecode w)).
Proof.
  intros Hrun. unfold Entity_init in Hrun.
  rewrite bind_run in Hrun. unfold get_world at 1 in Hrun.
  cbv beta iota zeta in Hrun.
  rewrite bind_run in Hrun. unfold alloc at 1 in Hrun. cbv beta iota in Hrun.
  set (e0 := {| e_class := cls |}) in Hrun.
  set (w0 := set_heap (heap w ++ [e0]) w) in Hrun.
  apply bind_ok_inv in Hrun as ([] & w2 & Hcons & Hrun).
  apply bind_ok_inv in Hrun as ([] & w4 & Hreg & Hrun).
  injection Hrun as <- <-.
  set (r := length (heap w)) in *.
  assert (Hr0 : heap w0 !! r = Some e0).
  { unfold w0, r. simpl. by rewrite lookup_app_r, Nat.sub_diag. }
  assert (H0 : fresh_fields r w0).
  { exists e0. split; [done|]. split; [done | apply instantiate_all_aligned]. }
  unfold construct in Hcons.
  apply bind_ok_inv in Hcons as (checked & wb & Hbuild & Hcons).
  rewrite (fresh_world_run _ _ _ _ _ _ Hbuild).
  pose proof (build_base_blob_stays_fresh _ _ _ _ _ _ Hbuild H0) as Hfresh.
  destruct Hfresh as (eb & Hrb & Hvb & Hbb).
  assert (Hshell : forall {T} (obs : world -> T),
             entity_blind r same_shell obs -> class_blind table_change obs ->
             obs wb = obs w0).
  { intros T obs Hent Hcls.
    by eapply (build_base_blob_keeps_shell obs r Hent Hcls). }
  assert (Hcb : e_class eb = cls).
  { assert (H : e_class <$> heap wb !! r = e_class <$> heap w0 !! r).
    { apply (Hshell _ (fun w => e_class <$> heap w !! r)).
      - apply blind_field_entity. by intros ?? [].
      - apply (blind_heap_class _ (fun h => e_class <$> h !! r)). }
    rewrite Hrb, Hr0 in H. by injection H. }
  assert (Hub : _uid eb = VNone).
  { assert (H : _uid <$> heap wb !! r = _uid <$> heap w0 !! r).
    { apply (Hshell _ (fun w => _uid <$> heap w !! r)).
      - apply blind_field_entity. by intros ?? [].
      - apply (blind_heap_class _ (fun h => _uid <$> h !! r)). }
    rewrite Hrb, Hr0 in H. by injection H. }
  assert (Htb : uid_timecode wb = uid_timecode w
                /\ timers_time wb = timers_time w).
  { split.
    - apply (Hshell _ uid_timecode); by intros ????.
    - apply (Hshell _ timers_time); by intros ????. }
  apply bind_ok_inv in Hcons as ([] & w3 & Hdes & Hcons).
  destruct (entity_deserialize_inv _ _ _ _ _ Hrb Hdes)
    as (et & Hsf & Hut & Hblob).
  set (wt := set_heap (<[r := et]> (heap wb)) wb) in *.
  assert (Hrt : heap wt !! r = Some et) by (by eapply heap_lookup_set).
  assert (Hbt : base_blob wt et = base_blob wb eb).
  { destruct Hsf as [Hc Hv Hb _ _]. unfold base_blob.
    by rewrite Hc, Hv, Hb. }
  destruct (deserialize_sim r _ [] wt w3 et _ Hrt eq_refl Hblob)
    as (b' & Hload & e3 & Hr3 & Hsh3 & Hb3).
  cbn [blob_put] in Hb3. rewrite Hbt in Hload.
  assert (Ht3 : uid_timecode w3 = uid_timecode wb
                /\ timers_time w3 = timers_time wb).
  { split.
    - change (uid_timecode wb) with (uid_timecode wt).
      eapply (deserialize_keeps uid_timecode r); [| |exact Hblob];
        by intros ????.
    - change (timers_time wb) with (timers_time wt).
      eapply (deserialize_keeps timers_time r); [| |exact Hblob];
        by intros ????. }
  assert (Hkeep : forall {T} (obs : world -> T),
             entity_blind r (fun e e' => e_class e' = e_class e
                               /\ e_values e' = e_values e
                               /\ e_blobs e' = e_blobs e) obs ->
             counter_blind obs -> obs w2 = obs w3).
  { intros T obs Hent Hcnt.
    assert (Hk : keeps (kept obs)
              (e ← get_entity r;
               if decide (_uid e = VNone)
               then uid ← make_uid cls; update_entity r (fun e => with_uid e uid)
               else mret tt)).
    { repeat (first [ apply make_uid_keeps
                    | eapply keeps_update_entity; [exact Hent | done]
                    | keeps_step ]); done. }
    by eapply Hk. }
  assert (H2 : exists e2, heap w2 !! r = Some e2
                 /\ base_blob w2 e2 = base_blob w3 e3).
  { assert (Hc : e_class <$> heap w2 !! r = e_class <$> heap w3 !! r).
    { apply (Hkeep _ (fun w => e_class <$> heap w !! r));
        [apply blind_field_entity; by intros ?? (? & ? & ?) | by intros ??]. }
    assert (Hv : e_values <$> heap w2 !! r = e_values <$> heap w3 !! r).
    { apply (Hkeep _ (fun w => e_values <$> heap w !! r));
        [apply blind_field_entity; by intros ?? (? & ? & ?) | by intros ??]. }
    assert (Hb : e_blobs <$> heap w2 !! r = e_blobs <$> heap w3 !! r).
    { apply (Hkeep _ (fun w => e_blobs <$> heap w !! r));
        [apply blind_field_entity; by intros ?? (? & ? & ?) | by intros ??]. }
    rewrite Hr3 in Hc, Hv, Hb.
    destruct (heap w2 !! r) as [e2|] eqn:Hr2; [|discriminate].
    exists e2. split; [done|]. simpl in *.
    injection Hc as Hc. injection Hv as Hv. injection Hb as Hb.
    unfold base_blob. rewrite Hc, Hv, Hb. f_equal.
    apply (Hkeep _ (fun w => cs_attrs (class_state_of w (e_class e3))));
      [by intros ????? | by intros ??]. }
  destruct H2 as (e2 & Hr2 & Hb2).
  destruct (register_instance_inv _ _ _ _ _ Hr2 Hreg)
    as (Hheap & _ & Htc4 & _ & Hattrs & _).
  exists eb, e2. split; [done|]. split; [done|].
  split; [by exists eb|].
  split; [by rewrite Hheap|]. split.
  { rewrite Hload. f_equal. rewrite <- Hb3, <- Hb2. unfold base_blob.
    by rewrite Hattrs. }
  intros Hnone.
  assert (Hu3 : _uid e3 = VNone).
  { destruct Hsh3 as [_ _ _ Hu _]. rewrite Hu, (Hut Hnone). exact Hub. }
  rewrite bind_run, (get_entity_run _ _ _ Hr3) in Hcons.
  rewrite decide_True in Hcons by done.
  unfold make_uid in Hcons.
  rewrite !bind_run in Hcons. unfold get_world, modify in Hcons.
  cbv beta iota zeta in Hcons.
  unfold update_entity in Hcons. simpl in Hcons. rewrite Hr3 in Hcons.
  injection Hcons as <-. rewrite Htc4. simpl in Hr2.
  rewrite list_lookup_insert_eq in Hr2 by (by eapply lookup_lt_Some).
  injection Hr2 as <-. simpl.
  destruct Ht3 as [-> ->]. destruct Htb as [-> ->]. done.
Qed.

(** *** The value a record leaves in one field *)

Lemma load_item_attrs dv : forall key b b',
  load_item key dv b = Some b' -> b_attrs b' = b_attrs b.
Proof.
  destruct dv as [v|fs|d]; intros key b b' Hload; simpl in Hload;
    destruct (dict_get key (b_attrs b)); try discriminate;
    try (by injection Hload as <-);
    destruct (dict_get key (b_blobs b)); try discriminate;
    try (by injection Hload as <-).
  match type of Hload with
  | match ?x with _ => _ end = _ => destruct x; [|discriminate]
  end.
  by injection Hload as <-.
Qed.

Lemma load_item_other dv : forall key b b' name,
  load_item key dv b = Some b' -> key <> name ->
  dict_get name (b_values b') = dict_get name (b_values b).
Proof.
  destruct dv as [v|fs|d]; intros key b b' name Hload Hne; simpl in Hload;
    destruct (dict_get key (b_attrs b)); try discriminate;
    try (injection Hload as <-; simpl; by apply dict_get_set_ne);
    destruct (dict_get key (b_blobs b)); try discriminate;
    try (by injection Hload as <-).
  match type of Hload with
  | match ?x with _ => _ end = _ => destruct x; [|discriminate]
  end.
  by injection Hload as <-.
Qed.

Lemma load_record_attrs d : forall b b',
  load_record d b = Some b' -> b_attrs b' = b_attrs b.
Proof.
  induction d as [|[k x] d IH]; intros b b' Hload; simpl in Hload.
  - by injection Hload as <-.
  - destruct (load_item k x b) as [b1|] eqn:E1; [|discriminate].
    rewrite (IH _ _ Hload). by eapply load_item_attrs.
Qed.

Lemma load_record_other d : forall b b' name,
  name ∉ dict_keys d -> load_record d b = Some b' ->
  dict_get name (b_values b') = dict_get name (b_values b).
Proof.
  induction d as [|[k x] d IH]; intros b b' name Hname Hload; simpl in Hload.
  - by injection Hload as <-.
  - destruct (load_item k x b) as [b1|] eqn:E1; [|discriminate].
    rewrite dict_keys_cons in Hname.
    rewrite (IH _ _ name) by (done || set_solver).
    eapply load_item_other; [done | set_solver].
Qed.

Lemma load_record_get d : forall b b' name a v,
  NoDup (dict_keys d) ->
  dict_get name d = Some (DVal v) ->
  dict_get name (b_attrs b) = Some a ->
  load_record d b = Some b' ->
  dict_get name (b_values b') = Some (skip_unset (_deserialize a) v).
Proof.
  induction d as [|[k x] d IH]; intros b b' name a v Hnd Hget Ha Hload;
    [discriminate|].
  simpl in Hget, Hload. rewrite dict_keys_cons in Hnd.
  apply NoDup_cons in Hnd as [Hk Hnd].
  destruct (load_item k x b) as [b1|] eqn:E1; [|discriminate].
  destruct (decide (name = k)) as [->|Hne].
  - injection Hget as ->.
    rewrite (load_record_other _ _ _ _ Hk Hload).
    simpl in E1. rewrite Ha in E1. injection E1 as <-. simpl.
    apply dict_get_set_eq.
  - eapply IH; [done|done| |done].
    by rewrite (load_item_attrs _ _ _ _ E1).
Qed.

(** *** The record an entity is stored as *)

Lemma dict_keys_set {K V} `{EqDecision K} (k : K) (v : V) (d : dict K V) :
  dict_keys (dict_set k v d)
  = if decide (k ∈ dict_keys d) then dict_keys d else dict_keys d ++ [k].
Proof.
  induction d as [|[k' v'] d IH].
  - destruct (decide (k ∈ dict_keys [])) as [Hin|Hnin]; [|done].
    by apply elem_of_nil in Hin.
  - cbn [dict_set]. destruct (decide (k = k')) as [->|Hne].
    + rewrite !dict_keys_cons.
      destruct (decide (k' ∈ k' :: dict_keys d)) as [Hin|Hnin]; [done|].
      exfalso. apply Hnin. left.
    + rewrite !dict_keys_cons, IH.
      destruct (decide (k ∈ dict_keys d)) as [Hin|Hnin];
        destruct (decide (k ∈ k' :: dict_keys d)) as [Hin'|Hnin'];
        try done.
      * exfalso. apply Hnin'. by right.
      * apply elem_of_cons in Hin' as [?|?]; done.
Qed.

Lemma NoDup_dict_set {K V} `{EqDecision K} (k : K) (v : V) (d : dict K V) :
  NoDup (dict_keys d) -> NoDup (dict_keys (dict_set k v d)).
Proof.
  intros Hnd. rewrite dict_keys_set.
  destruct (decide (k ∈ dict_keys d)); [done|].
  apply NoDup_app. split; [done|]. split; [|apply NoDup_singleton].
  intros x Hx Hin. apply elem_of_cons in Hin as [->|Hin]; [done|].
  by apply elem_of_nil in Hin.
Qed.

Lemma dict_keys_del {K V} `{EqDecision K} (k : K) (d : dict K V) :
  dict_keys (dict_del k d) = filter (fun x => x <> k) (dict_keys d).
Proof.
  induction d as [|[k' v'] d IH]; [done|].
  cbn [dict_del]. rewrite dict_keys_cons, filter_cons.
  destruct (decide (k = k')) as [->|Hne].
  - destruct (decide (k' <> k')) as [Hn|_]; [by destruct Hn | done].
  - destruct (decide (k' <> k)) as [_|Hn].
    + by rewrite dict_keys_cons, IH.
    + exfalso. apply Hn. by intros ->.
Qed.

Lemma NoDup_dict_del {K V} `{EqDecision K} (k : K) (d : dict K V) :
  NoDup (dict_keys d) -> NoDup (dict_keys (dict_del k d)).
Proof. intros Hnd. rewrite dict_keys_del. by apply NoDup_filter. Qed.

Lemma serialize_blobs_nodup l : forall (acc : list (string * data)) d,
  NoDup (dict_keys acc) -> serialize_blobs l (Ok acc) = Ok d ->
  NoDup (dict_keys d).
Proof.
  induction l as [|[k sb] l IH]; intros acc d Hnd Hser; simpl in Hser.
  - by injection Hser as <-.
  - destruct (serialize sb) as [sd|]; [|discriminate].
    eapply IH; [|exact Hser]. by apply NoDup_dict_set.
Qed.

Lemma fold_serialize_attr_nodup values attrs :
  forall (acc : list (string * data)) d,
  NoDup (dict_keys acc) ->
  fold_left (serialize_attr values) attrs (Ok acc) = Ok d ->
  NoDup (dict_keys d).
Proof.
  induction attrs as [|[k a] attrs IH]; intros acc d Hnd Hfold; simpl in Hfold.
  - by injection Hfold as <-.
  - destruct (dict_has k acc).
    { by rewrite fold_serialize_attr_raise in Hfold. }
    eapply IH; [|exact Hfold]. by apply NoDup_dict_set.
Qed.

Lemma serialize_nodup b d : serialize b = Ok d -> NoDup (dict_keys d).
Proof.
  destruct b as [attrs values blobs]. rewrite serialize_unfold. intros Hser.
  destruct (serialize_blobs blobs (Ok [])) as [acc|] eqn:Eb.
  2:{ by rewrite fold_serialize_attr_raise in Hser. }
  eapply fold_serialize_attr_nodup; [|exact Hser].
  eapply serialize_blobs_nodup; [|exact Eb]. constructor.
Qed.

(** The entry of a field in the record its blob is serialized to. *)
Lemma serialize_get b d name a :
  serialize b = Ok d -> dict_get name (b_attrs b) = Some a ->
  dict_get name d
  = Some (DVal (skip_unset (_serialize a)
                           (default VNone (dict_get name (b_values b))))).
Proof.
  destruct b as [attrs values blobs]. rewrite serialize_unfold.
  intros Hser Ha. simpl in Ha.
  destruct (serialize_blobs blobs (Ok [])) as [acc|] eqn:Eb.
  2:{ by rewrite fold_serialize_attr_raise in Hser. }
  destruct (fold_serialize_attr_shape _ _ _ _ Hser) as (-> & _ & Hfresh).
  rewrite dict_get_app_skip.
  - by apply dict_get_attr_entry.
  - apply Hfresh. apply dict_get_elem_of in Ha. by eapply elem_of_dict_keys.
Qed.

(** ** Entity.clone *)

Lemma entity_serialize_inv r w w' e d :
  heap w !! r = Some e ->
  entity_serialize r w = (Ok d, w') ->
  w' = w /\ exists bd, serialize (base_blob w e) = Ok bd
                       /\ d = entity_record e bd.
Proof.
  intros Hr Hrun. unfold entity_serialize in Hrun.
  rewrite bind_run, (get_entity_run _ _ _ Hr) in Hrun.
  rewrite bind_run in Hrun. unfold get_world at 1 in Hrun.
  cbv beta iota in Hrun. rewrite bind_run in Hrun. unfold lift in Hrun.
  destruct (serialize (base_blob w e)) as [bd|]; [|discriminate].
  injection Hrun as <- <-. split; [done|]. by exists bd.
Qed.

Lemma entity_serialize_run r w e bd :
  heap w !! r = Some e ->
  serialize (base_blob w e) = Ok bd ->
  entity_serialize r w = (Ok (entity_record e bd), w).
Proof.
  intros Hr Hser. unfold entity_serialize.
  rewrite bind_run, (get_entity_run _ _ _ Hr).
  rewrite bind_run. unfold get_world at 1. cbv beta iota.
  rewrite bind_run. unfold lift. by rewrite Hser.
Qed.

(** A field of the blob is among what [Entity.deserialize] hands on
    as the blob's record wrote it. *)
Lemma blob_record_get name e bd :
  name ∉ ["uid"; "flags"; "tags"] ->
  dict_get name (blob_record (dict_del "uid" (entity_record e bd)))
  = dict_get name bd.
Proof.
  intros Hname.
  assert (Hu : "uid" <> name) by (intros <-; apply Hname; set_solver).
  assert (Hf : "flags" <> name) by (intros <-; apply Hname; set_solver).
  assert (Ht : "tags" <> name) by (intros <-; apply Hname; set_solver).
  unfold blob_record, entity_record.
  rewrite !dict_get_del_ne by done. by rewrite !dict_get_set_ne by done.
Qed.

Lemma blob_record_nodup e bd :
  NoDup (dict_keys bd) ->
  NoDup (dict_keys (blob_record (dict_del "uid" (entity_record e bd)))).
Proof.
  intros Hnd. unfold blob_record, entity_record.
  by repeat (first [apply NoDup_dict_del | apply NoDup_dict_set]).
Qed.

(** What a successful [clone] did. *)
Lemma clone_inv r new_key w r' w' e :
  heap w !! r = Some e ->
  clone r new_key w = (Ok r', w') ->
  exists sid bd w1,
    c_store (e_class e) = Some sid
    /\ store_has new_key (store_of w sid) = false
    /\ serialize (base_blob w e) = Ok bd
    /\ Entity_init (e_class e)
         (Some (dict_del "uid" (entity_record e bd))) false true w
       = (Ok r', w1)
    /\ set_key r' new_key w1 = (Ok tt, w').
Proof.
  intros Hr Hrun. unfold clone in Hrun.
  rewrite bind_run, (get_entity_run _ _ _ Hr) in Hrun.
  destruct (c_store (e_class e)) as [sid|]; [|discriminate].
  rewrite bind_run in Hrun. unfold get_world at 1 in Hrun.
  cbv beta iota in Hrun.
  destruct (store_has new_key (store_of w sid)) eqn:Ehas; [discriminate|].
  apply bind_ok_inv in Hrun as (d & w0 & Hser & Hrun).
  destruct (entity_serialize_inv _ _ _ _ _ Hr Hser) as (-> & bd & Hbd & ->).
  apply bind_ok_inv in Hrun as (r1 & w1 & Hinit & Hrun).
  apply bind_ok_inv in Hrun as ([] & w2 & Hset & Hrun).
  injection Hrun as <- <-.
  by exists sid, bd, w1.
Qed.

(** The key of an entity whose class is keyed by one registered field
    is the value of that field. *)
Lemma entity_key_field w e name k :
  c_store_key (e_class e) = KeyName name -> name <> "uid" ->
  entity_key w e = Ok k ->
  (exists a, class_member w name (e_class e) = Some (PAttr a))
  /\ k = default VNone (dict_get name (e_values e)).
Proof.
  intros Hkn Hname. unfold entity_key, getattr_field. rewrite Hkn.
  rewrite decide_False by done.
  destruct (class_member w name (e_class e)) as [[a| |]|]; try discriminate.
  intros [= <-]. split; [by exists a|]. by destruct (dict_get name (e_values e)).
Qed.

Lemma entity_key_field_run w e name a :
  c_store_key (e_class e) = KeyName name -> name <> "uid" ->
  class_member w name (e_class e) = Some (PAttr a) ->
  entity_key w e = Ok (default VNone (dict_get name (e_values e))).
Proof.
  intros Hkn Hname Hm. unfold entity_key, getattr_field. rewrite Hkn.
  rewrite decide_False by done. rewrite Hm.
  by destruct (dict_get name (e_values e)).
Qed.

(** What a committed write that moved the key left behind. *)
Lemma committed_key_change r old_key new_key e1 w e' k' :
  (r < length (heap w))%nat ->
  entity_key w e1 = Ok new_key ->
  heap (committed r old_key new_key e1 w) !! r = Some e' ->
  entity_key (committed r old_key new_key e1 w) e' = Ok k' ->
  k' <> old_key ->
  k' = new_key
  /\ dict_get "_old_key" (tags e') = Some old_key
  /\ e_class e' = e_class e1 /\ _savable e' = _savable e1
  /\ (forall cache',
        key_cache (committed r old_key new_key e1 w) (e_class e1)
        = Some cache' ->
        lru_peek old_key cache' = None).
Proof.
  intros Hlt Hnew Hr' Hk' Hne.
  assert (Hdict : forall w0 cls cs',
     cs_dict cs' = cs_dict (class_state_of w0 cls) ->
     forall c, cs_dict (class_state_of (set_class_state cls cs' w0) c)
               = cs_dict (class_state_of w0 c)).
  { intros w0 cls cs' Hcs c.
    by apply (blind_table_class (fun cs cs' => cs_dict cs' = cs_dict cs)
                cs_dict c). }
  unfold committed in *.
  destruct (decide (new_key = old_key)) as [Heq|Hne0].
  { simpl in Hr'. rewrite list_lookup_insert_eq in Hr' by done.
    injection Hr' as <-.
    rewrite (entity_key_ext w _ e1 (with_dirty e1 true)) in Hk' by done.
    congruence. }
  simpl in Hr'. rewrite list_lookup_insert_eq in Hr' by done.
  injection Hr' as <-.
  assert (new_key = k') as <-.
  { rewrite (entity_key_ext w _ e1 _) in Hk'; [congruence| |done..].
    intros c. apply Hdict. by destruct (dict_get _ _). }
  split; [done|]. split; [simpl; apply dict_get_set_eq|].
  do 2 (split; [done|]).
  intros cache'. unfold key_cache.
  rewrite class_state_of_set_heap, class_state_of_set_eq.
  destruct (dict_get (get_key_name (e_class e1))
              (_caches (class_state_of w (e_class e1)))) as [cache|] eqn:Ec.
  - simpl. rewrite dict_get_set_eq. intros [= <-].
    by apply relocate_cache_old.
  - by rewrite Ec.
Qed.

(** The key setter of a class keyed by one field: nothing for a
    read-only field, a validated write otherwise. *)
Lemma set_key_field_inv r new_key w w' e name :
  heap w !! r = Some e ->
  c_store_key (e_class e) = KeyName name ->
  set_key r new_key w = (Ok tt, w') ->
  exists a, class_member w name (e_class e) = Some (PAttr a)
    /\ (if read_only a then w' = w
        else _set_attr_val r [] name new_key true false w = (Ok tt, w')).
Proof.
  intros Hr Hkn Hrun. unfold set_key in Hrun.
  rewrite bind_run, (get_entity_run _ _ _ Hr), Hkn in Hrun.
  unfold entity_setattr in Hrun.
  rewrite bind_run, (get_entity_run _ _ _ Hr) in Hrun.
  rewrite bind_run in Hrun. unfold get_world at 1 in Hrun.
  cbv beta iota in Hrun.
  destruct (class_member w name (e_class e)) as [[a| |]|]; try discriminate.
  exists a. split; [done|].
  destruct (read_only a); [by injection Hrun as <- | done].
Qed.

(** X1: for an entity of a class keyed by one registered field whose
    descriptor reads back the key it wrote, a successful [clone] that
    ends with a key other than the original's leaves the new entity
    tagged with the original's key as the key to retire; the key cache
    of the class then holds nothing under the original's key, and the
    first save of the new entity deletes the store record under the
    original's key. *)
Theorem clone_retires_original_key
    r new_key w r' w' e name a old_key :
  heap w !! r = Some e ->
  c_store_key (e_class e) = KeyName name ->
  name ∉ ["uid"; "flags"; "tags"] ->
  entity_key w e = Ok old_key ->
  dict_get name (b_attrs (base_blob w e)) = Some a ->
  dict_get name (b_attrs (fresh_blob (e_class e) w)) = Some a ->
  hooks_invert a old_key ->
  clone r new_key w = (Ok r', w') ->
  exists e',
    heap w' !! r' = Some e'
    /\ r' = length (heap w)
    /\ forall k',
         entity_key w' e' = Ok k' -> k' <> old_key ->
         dict_get "_old_key" (tags e') = Some old_key
         /\ (forall cache',
               key_cache w' (e_class e) = Some cache' ->
               lru_peek old_key cache' = None)
         /\ (forall sid d,
               c_store (e_class e) = Some sid ->
               serialize (base_blob w' e') = Ok d ->
               exists w'' e'' rec,
                 save r' w' = (Ok tt, w'')
                 /\ store_get old_key (store_of w'' sid) = None
                 /\ store_get k' (store_of w'' sid) = Some rec
                 /\ heap w'' !! r' = Some e''
                 /\ dict_get "_old_key" (tags e'') = None).
Proof.
  intros Hr Hkn Hname Hold Ha Hafresh Hinv Hclone.
  assert (Hnu : name <> "uid") by (intros ->; apply Hname; set_solver).
  destruct (clone_inv _ _ _ _ _ _ Hr Hclone)
    as (sid & bd & w1 & Hstore & Hhas & Hser & Hinit & Hset).
  set (cls := e_class e) in *.
  destruct (Entity_init_inv _ _ _ _ _ _ _ Hinit)
    as (Hr'eq & Hlen & Hbelow & _ & Hdict & e1 & Hr1 & Hc1 & Hsav1 & _).
  destruct (Entity_init_data_inv _ _ _ _ _ _ _ Hinit)
    as (eb & e1' & Hrb & Hcb & _ & Hr1' & Hload & _).
  rewrite Hr1 in Hr1'. injection Hr1' as <-.
  assert (Hfb : fresh_blob cls w = base_blob (fresh_world cls false true w) eb).
  { unfold fresh_blob, entity_at. cbv zeta. rewrite <- Hr'eq, Hrb. done. }
  rewrite Hfb in Hafresh.
  destruct (entity_key_field _ _ _ _ Hkn Hnu Hold) as ((am & Hm) & Hok).
  assert (Hv1 : dict_get name (e_values e1) = Some old_key).
  { change (e_values e1) with (b_values (base_blob w1 e1)).
    rewrite (load_record_get _ _ _ name a _ (blob_record_nodup e bd
               (serialize_nodup _ _ Hser))
               (eq_trans (blob_record_get name e bd Hname)
                         (serialize_get _ _ _ _ Hser Ha))
               Hafresh Hload).
    f_equal. simpl b_values. rewrite <- Hok. by apply skip_unset_invert. }
  assert (Hm1 : class_member w1 name (e_class e1) = Some (PAttr am)).
  { rewrite Hc1. by rewrite (class_member_ext w w1 name Hdict). }
  assert (Hkn1 : c_store_key (e_class e1) = KeyName name) by (by rewrite Hc1).
  assert (Hk1 : entity_key w1 e1 = Ok old_key).
  { rewrite (entity_key_field_run _ _ _ _ Hkn1 Hnu Hm1). by rewrite Hv1. }
  destruct (set_key_field_inv _ _ _ _ _ _ Hr1 Hkn1 Hset) as (a2 & _ & Hwrite).
  destruct (read_only a2).
  { subst w'. exists e1. split; [done|]. split; [done|].
    intros k' Hk' Hne. congruence. }
  destruct (set_attr_val_inv _ _ _ _ _ _ _ _ _ Hr1 Hwrite)
    as (self & attr & value & old_key0 & new_key0 & _ & _ & _
        & Hold0 & Hnew0 & Hw').
  rewrite Hk1 in Hold0. injection Hold0 as <-.
  assert (Hlt : (r' < length (heap w1))%nat) by (by eapply lookup_lt_Some).
  set (e1x := with_blob e1 (blob_write [] name value (base_blob w1 e1))) in *.
  assert (Hr' : exists e', heap w' !! r' = Some e').
  { subst w'. unfold committed.
    destruct (decide (new_key0 = old_key)); eexists; simpl;
      by apply list_lookup_insert_eq. }
  destruct Hr' as (e' & Hr').
  exists e'. split; [done|]. split; [done|].
  intros k' Hk' Hne.
  rewrite Hw' in Hr', Hk'.
  destruct (committed_key_change _ _ _ _ _ _ _ Hlt Hnew0 Hr' Hk' Hne)
    as (-> & Htag & Hclass & Hsav & Hcache).
  rewrite <- Hw' in Hr', Hk'.
  split; [done|]. split.
  { intros cache' Hc'. apply Hcache. rewrite <- Hw'.
    change (e_class e1x) with (e_class e1). by rewrite Hc1. }
  intros sid' d Hsid Hd.
  destruct (save_retires_old_key r' w' e' sid' old_key new_key0 d)
    as (w'' & e'' & rec & Hsave & Hgone & Hput & Hr'' & Htag'' & _); try done.
  - rewrite Hclass. change (e_class e1x) with (e_class e1). by rewrite Hc1.
  - rewrite Hsav. change (_savable e1x) with (_savable e1). done.
  - by exists w'', e'', rec.
Qed.

(** ** A new entity *)

Section BuildAny.
Context {T : Type} (obs : world -> T) (r : nat) (P : relation entity).
Hypothesis HP : forall e values blobs, P e (with_fields e values blobs).
Hypothesis Hent : entity_blind r P obs.
Hypothesis Hcls : class_blind table_change obs.

Lemma update_keeps_any other : keeps (kept obs) (_update r other).
Proof.
  unfold _update.
  repeat (first [ eapply keeps_update_entity; [exact Hent | intros; apply HP]
                | eapply keeps_update_class; [exact Hcls | by split]
                | keeps_step ]).
Qed.

Lemma build_base_blob_keeps_any cls : forall checked,
  keeps (kept obs) (_build_base_blob r cls checked).
Proof.
  induction cls as [i n b u k s bases IH] using pyclass_ind'.
  intros checked. simpl. apply keeps_bind; [typeclasses eauto | |].
  - revert checked. induction IH as [|base bases Hbase _ IHb];
      intros checked; repeat keeps_step; [apply Hbase | apply IHb].
  - intros checked'. repeat keeps_step. apply update_keeps_any.
Qed.
End BuildAny.

Lemma dict_get_default_values k attrs :
  dict_get k (default_values attrs) = attr_default <$> dict_get k attrs.
Proof.
  induction attrs as [|[k' a] attrs IH]; simpl; [done|].
  by destruct (decide (k = k')).
Qed.

(** X2: an entity constructed without data holds, for every field of
    the attribute table of its class, the default of the descriptor
    registered there; it is not dirty, carries no flags and no tags,
    and has the activity and savability it was constructed with. *)
Theorem new_entity_holds_defaults cls act sav w r w1 e1 :
  Entity_init cls None act sav w = (Ok r, w1) ->
  heap w1 !! r = Some e1 ->
  e_class e1 = cls
  /\ e_values e1 = default_values (cs_attrs (class_state_of w1 cls))
  /\ (forall k a,
        dict_get k (cs_attrs (class_state_of w1 cls)) = Some a ->
        dict_get k (e_values e1) = Some (attr_default a))
  /\ _dirty e1 = false /\ flags e1 = [] /\ tags e1 = []
  /\ active e1 = act /\ _savable e1 = sav.
Proof.
  intros Hrun Hr1.
  destruct (Entity_init_fresh _ _ _ _ _ _ Hrun) as (e1' & Hr1' & Hval & _).
  rewrite Hr1 in Hr1'. injection Hr1' as <-.
  destruct (Entity_init_inv _ _ _ _ _ _ _ Hrun)
    as (Hr & _ & _ & _ & _ & e1' & Hr1' & Hc & Hsav & Hact & _).
  rewrite Hr1 in Hr1'. injection Hr1' as <-.
  split; [done|]. rewrite Hc in Hval. split; [done|]. split.
  { intros k a Ha. by rewrite Hval, dict_get_default_values, Ha. }
  enough (Hq : _dirty e1 = false /\ flags e1 = [] /\ tags e1 = []).
  { destruct Hq as (? & ? & ?). done. }
  unfold Entity_init in Hrun.
  rewrite bind_run in Hrun. unfold get_world at 1 in Hrun.
  cbv beta iota zeta in Hrun.
  rewrite bind_run in Hrun. unfold alloc at 1 in Hrun. cbv beta iota in Hrun.
  set (e0 := {| e_class := cls |}) in Hrun.
  set (w0 := set_heap (heap w ++ [e0]) w) in Hrun.
  apply bind_ok_inv in Hrun as ([] & w2 & Hcons & Hrun).
  apply bind_ok_inv in Hrun as ([] & w3 & Hreg & Hrun).
  injection Hrun as _ <-. rewrite <- Hr in *.
  assert (Hr0 : heap w0 !! r = Some e0).
  { unfold w0. rewrite Hr. simpl. by rewrite lookup_app_r, Nat.sub_diag. }
  set (Q := fun e e' : entity =>
              _dirty e' = _dirty e /\ flags e' = flags e /\ tags e' = tags e).
  assert (Hkeep : forall {T} (proj : entity -> T),
             (forall e e', Q e e' -> proj e' = proj e) ->
             proj <$> heap w2 !! r = proj <$> heap w0 !! r).
  { intros T proj Hproj.
    assert (Hk : keeps (kept (fun w => proj <$> heap w !! r))
                       (construct r cls None)).
    { unfold construct.
      assert (Hent : entity_blind r Q (fun w => proj <$> heap w !! r))
        by (by apply blind_field_entity).
      assert (Hcls : class_blind table_change
                       (fun w => proj <$> heap w !! r))
        by apply (blind_heap_class _ (fun h => proj <$> h !! r)).
      repeat (first [ eapply (build_base_blob_keeps_any _ r Q);
                        [by intros | exact Hent | exact Hcls]
                    | apply make_uid_keeps;
                        apply (blind_heap_counter (fun h => proj <$> h !! r))
                    | eapply keeps_update_entity; [exact Hent | by intros]
                    | keeps_step ]). }
    by eapply Hk. }
  destruct (heap w2 !! r) as [e2|] eqn:Hr2.
  2:{ specialize (Hkeep _ _dirty ltac:(by intros ?? (? & ? & ?))).
      rewrite Hr0 in Hkeep. discriminate. }
  destruct (register_instance_inv _ _ _ _ _ Hr2 Hreg) as (Hheap & _).
  rewrite Hheap, Hr2 in Hr1. injection Hr1 as <-.
  pose proof (Hkeep _ _dirty ltac:(by intros ?? (? & ? & ?))) as Hd.
  pose proof (Hkeep _ flags ltac:(by intros ?? (? & ? & ?))) as Hf.
  pose proof (Hkeep _ tags ltac:(by intros ?? (? & ? & ?))) as Ht.
  rewrite Hr0 in Hd, Hf, Ht. simpl in *.
  injection Hd as ->. injection Hf as ->. injection Ht as ->. done.
Qed.

(** ** What deserializing touches *)

(** X3: [DataBlob.deserialize] passes over the entries of a record that
    name neither a field nor a sub-blob of the blob: a record of such
    entries only is deserialized without an error and without a change
    of the state. *)
Theorem deserialize_ignores_unknown_keys r path d w e self :
  heap w !! r = Some e ->
  blob_at path (base_blob w e) = Some self ->
  (forall k, k ∈ dict_keys d ->
             dict_get k (b_attrs self) = None
             /\ dict_get k (b_blobs self) = None) ->
  deserialize r path d w = (Ok tt, w).
Proof.
  intros Hr Hself. induction d as [|[k x] d IH]; intros Hnone; [done|].
  destruct (Hnone k) as [Ha Hb]; [rewrite dict_keys_cons; left|].
  cbn [deserialize]. rewrite bind_run.
  assert (Hitem : deserialize_item r path k x w = (Ok tt, w)).
  { destruct x; simpl;
      rewrite bind_run, (self_blob_run _ _ _ _ Hr), Hself;
      cbv beta iota; rewrite Ha; unfold dict_has; by rewrite Hb. }
  rewrite Hitem. apply IH. intros k' Hk'. apply Hnone.
  rewrite dict_keys_cons. by right.
Qed.

(** X4: whether it returns or raises, [DataBlob.deserialize] on the
    blob of one entity leaves every other entity, the stores, the
    identifier counter, the registered names, attribute tables,
    sub-blob tables and instance tables of every class as they were,
    and the entity itself keeps its class, identifier, flags, activity
    and savability. *)
Theorem deserialize_frame r path d w res w' :
  deserialize r path d w = (res, w') ->
  length (heap w') = length (heap w)
  /\ (forall r', r' <> r -> heap w' !! r' = heap w !! r')
  /\ stores w' = stores w
  /\ uid_timecode w' = uid_timecode w
  /\ (forall c, cs_attrs (class_state_of w' c) = cs_attrs (class_state_of w c)
                /\ cs_blobs (class_state_of w' c) = cs_blobs (class_state_of w c)
                /\ cs_dict (class_state_of w' c) = cs_dict (class_state_of w c)
                /\ _instances (class_state_of w' c)
                   = _instances (class_state_of w c))
  /\ (forall e, heap w !! r = Some e ->
        exists e', heap w' !! r = Some e' /\ same_shell e e').
Proof.
  intros Hrun.
  assert (Hkeep : forall {T} (obs : world -> T),
             entity_blind r same_shell obs -> class_blind cache_change obs ->
             obs w' = obs w).
  { intros T obs Hent Hcls. by eapply (deserialize_keeps obs r Hent Hcls). }
  split; [apply (Hkeep _ (fun w => length (heap w)));
          [apply blind_length_entity | apply (blind_heap_class _ length)]|].
  split.
  { intros r' Hne. apply (Hkeep _ (fun w => heap w !! r')).
    - by apply blind_other_entity.
    - apply (blind_heap_class _ (fun h => h !! r')). }
  split; [apply (Hkeep _ stores);
          [apply blind_stores_entity | apply blind_stores_class]|].
  split; [apply (Hkeep _ uid_timecode); by intros ????|].
  split.
  { intros c. repeat split.
    - apply (Hkeep _ (fun w => cs_attrs (class_state_of w c)));
        [by intros ????? | apply blind_table_class; [done | by intros ?? []]].
    - apply (Hkeep _ (fun w => cs_blobs (class_state_of w c)));
        [by intros ????? | apply blind_table_class; [done | by intros ?? []]].
    - apply (Hkeep _ (fun w => cs_dict (class_state_of w c)));
        [by intros ????? | apply blind_table_class; [done | by intros ?? []]].
    - apply (Hkeep _ (fun w => _instances (class_state_of w c)));
        [by intros ????? | apply blind_table_class; [done | by intros ?? []]]. }
  intros e Hr.
  assert (Hf : forall {T} (proj : entity -> T),
             (forall e e', same_shell e e' -> proj e' = proj e) ->
             proj <$> heap w' !! r = proj <$> heap w !! r).
  { intros T proj Hproj. apply (Hkeep _ (fun w => proj <$> heap w !! r)).
    - by apply blind_field_entity.
    - apply (blind_heap_class _ (fun h => proj <$> h !! r)). }
  pose proof (Hf _ e_class ltac:(by intros ?? [])) as Hc.
  pose proof (Hf _ _savable ltac:(by intros ?? [])) as Hs.
  pose proof (Hf _ active ltac:(by intros ?? [])) as Ha.
  pose proof (Hf _ _uid ltac:(by intros ?? [])) as Hu.
  pose proof (Hf _ flags ltac:(by intros ?? [])) as Hfl.
  rewrite Hr in Hc, Hs, Ha, Hu, Hfl.
  destruct (heap w' !! r) as [e'|]; [|discriminate].
  simpl in *. exists e'. split; [done|].
  injection Hc as Hc. injection Hs as Hs. injection Ha as Ha.
  injection Hu as Hu. injection Hfl as Hfl. by split.
Qed.

Lemma deserialize_spares r path d w res w' :
  deserialize r path d w = (res, w') ->
  (forall r', r' <> r -> heap w' !! r' = heap w !! r')
  /\ stores w' = stores w
  /\ uid_timecode w' = uid_timecode w
  /\ (forall e, heap w !! r = Some e ->
        exists e', heap w' !! r = Some e' /\ same_shell e e').
Proof.
  intros Hrun.
  assert (Hkeep : forall {T} (obs : world -> T),
             entity_blind r same_shell obs -> class_blind cache_change obs ->
             obs w' = obs w).
  { intros T obs Hent Hcls. by eapply (deserialize_keeps obs r Hent Hcls). }
  split.
  { intros r' Hne. apply (Hkeep _ (fun w => heap w !! r')).
    - by apply blind_other_entity.
    - apply (blind_heap_class _ (fun h => h !! r')). }
  split; [apply (Hkeep _ stores);
          [apply blind_stores_entity | apply blind_stores_class]|].
  split; [apply (Hkeep _ uid_timecode); by intros ????|].
  intros e Hr.
  assert (Hf : forall {T} (proj : entity -> T),
             (forall e e', same_shell e e' -> proj e' = proj e) ->
             proj <$> heap w' !! r = proj <$> heap w !! r).
  { intros T proj Hproj. apply (Hkeep _ (fun w => proj <$> heap w !! r)).
    - by apply blind_field_entity.
    - apply (blind_heap_class _ (fun h => proj <$> h !! r)). }
  pose proof (Hf _ e_class ltac:(by intros ?? [])) as Hc.
  pose proof (Hf _ _savable ltac:(by intros ?? [])) as Hs.
  pose proof (Hf _ active ltac:(by intros ?? [])) as Ha.
  pose proof (Hf _ _uid ltac:(by intros ?? [])) as Hu.
  pose proof (Hf _ flags ltac:(by intros ?? [])) as Hfl.
  rewrite Hr in Hc, Hs, Ha, Hu, Hfl.
  destruct (heap w' !! r) as [e'|]; [|discriminate].
  simpl in *. exists e'. split; [done|].
  injection Hc as Hc. injection Hs as Hs. injection Ha as Ha.
  injection Hu as Hu. injection Hfl as Hfl. by split.
Qed.

(** ** Field writes *)

Lemma committed_entity r old_key new_key e1 w :
  (r < length (heap w))%nat ->
  exists e', heap (committed r old_key new_key e1 w) !! r = Some e'
    /\ e_values e' = e_values e1 /\ e_blobs e' = e_blobs e1
    /\ e_class e' = e_class e1 /\ _dirty e' = true
    /\ (new_key = old_key -> tags e' = tags e1)
    /\ stores (committed r old_key new_key e1 w) = stores w
    /\ (new_key = old_key -> classes (committed r old_key new_key e1 w)
                             = classes w).
Proof.
  intros Hlt. unfold committed.
  destruct (decide (new_key = old_key)) as [Heq|Hne].
  - eexists. split; [simpl; by apply list_lookup_insert_eq|]. done.
  - eexists. split; [simpl; by apply list_lookup_insert_eq|].
    repeat (split; [done|]). done.
Qed.

(** X5: a record is read into a field raw: whatever the descriptor's
    [_validate] and [_finalize] would do with the value, deserializing
    a one-field record commits the value its [_deserialize] hook
    returns for it (the sentinel as it is), leaves the other fields and
    the sub-blobs alone and marks the entity dirty. *)
Theorem deserialize_field_is_raw r k v w e a :
  heap w !! r = Some e ->
  key_total w e ->
  dict_get k (b_attrs (base_blob w e)) = Some a ->
  exists w' e',
    deserialize r [] [(k, DVal v)] w = (Ok tt, w')
    /\ heap w' !! r = Some e'
    /\ e_values e'
       = dict_set k (match v with Unset => Unset | _ => _deserialize a v end)
                  (e_values e)
    /\ e_blobs e' = e_blobs e
    /\ _dirty e' = true.
Proof.
  intros Hr Hk Ha.
  assert (Hlt : (r < length (heap w))%nat) by (by eapply lookup_lt_Some).
  assert (Hval : checked_value a (skip_unset (_deserialize a) v) false true
                   (getattr_field w e)
                 = Ok (skip_unset (_deserialize a) v))
    by apply checked_value_raw.
  destruct (set_attr_val_run r [] k (skip_unset (_deserialize a) v)
              false true w e (base_blob w e) a _ Hr Hk eq_refl Ha Hval)
    as (w' & Hset).
  destruct (set_attr_val_inv _ _ _ _ _ _ _ _ _ Hr Hset)
    as (self & attr & value & old_key & new_key & Hself & Hattr & Hval'
        & _ & _ & Hw').
  injection Hself as <-. rewrite Ha in Hattr. injection Hattr as <-.
  rewrite Hval in Hval'. injection Hval' as <-.
  destruct (committed_entity r old_key new_key
              (with_blob e (blob_write [] k (skip_unset (_deserialize a) v)
                                       (base_blob w e))) w Hlt)
    as (e' & Hr' & Hv' & Hb' & _ & Hd' & _).
  exists w', e'. rewrite Hw'. split.
  - cbn [deserialize deserialize_item]. rewrite !bind_run.
    rewrite (self_blob_run _ _ _ _ Hr). cbn [blob_at]. cbv beta iota.
    rewrite Ha.
    change (match v with Unset => Unset | _ => _deserialize a v end)
      with (skip_unset (_deserialize a) v).
    by rewrite Hset, Hw'.
  - split; [done|]. split; [exact Hv'|]. split; [exact Hb' | exact Hd'].
Qed.

(** X6: writing a field the blob does not have raises [KeyError] and
    leaves the state as it was. *)
Theorem set_attr_val_unknown_field r path name v validate raw w e self :
  heap w !! r = Some e ->
  blob_at path (base_blob w e) = Some self ->
  dict_get name (b_attrs self) = None ->
  _set_attr_val r path name v validate raw w = (Raise KeyError, w).
Proof.
  intros Hr Hself Hnone. unfold _set_attr_val.
  rewrite bind_run, (self_blob_run _ _ _ _ Hr), Hself.
  by rewrite bind_run, Hnone.
Qed.

(** X7: the sentinel is committed without validation: writing [Unset]
    to a field returns, whatever the descriptor's [_validate] and
    [_finalize] would do with it, stores the sentinel under that field
    alone and marks the entity dirty. *)
Theorem set_attr_val_unset r path name validate raw w e self a :
  heap w !! r = Some e ->
  key_total w e ->
  blob_at path (base_blob w e) = Some self ->
  dict_get name (b_attrs self) = Some a ->
  exists w' e',
    _set_attr_val r path name Unset validate raw w = (Ok tt, w')
    /\ heap w' !! r = Some e'
    /\ base_blob w' e' = blob_write path name Unset (base_blob w e)
    /\ _dirty e' = true.
Proof.
  intros Hr Hk Hself Ha.
  assert (Hlt : (r < length (heap w))%nat) by (by eapply lookup_lt_Some).
  destruct (set_attr_val_run r path name Unset validate raw w e self a Unset
              Hr Hk Hself Ha eq_refl) as (w' & Hset).
  destruct (set_attr_val_blob _ _ _ _ _ _ _ _ _ Hr Hset)
    as (self' & attr & value & e' & _ & _ & Hval & Hr' & _ & Hb).
  injection Hval as <-.
  exists w', e'. do 3 (split; [done|]).
  destruct (set_attr_val_inv _ _ _ _ _ _ _ _ _ Hr Hset)
    as (? & ? & value' & old_key & new_key & _ & _ & _ & _ & _ & Hw').
  destruct (committed_entity r old_key new_key
              (with_blob e (blob_write path name value' (base_blob w e))) w Hlt)
    as (e'' & Hr'' & _ & _ & _ & Hd & _).
  rewrite <- Hw', Hr' in Hr''. by injection Hr'' as ->.
Qed.

(** X8: a committed write that leaves the key of the entity as it was
    marks the entity dirty and does nothing else besides the write: the
    tags of the entity, the caches and tables of every class and the
    stores are as before. *)
Theorem set_attr_val_same_key r path name v validate raw w w' e e' k :
  heap w !! r = Some e ->
  _set_attr_val r path name v validate raw w = (Ok tt, w') ->
  heap w' !! r = Some e' ->
  entity_key w e = Ok k ->
  entity_key w' e' = Ok k ->
  tags e' = tags e /\ _dirty e' = true
  /\ classes w' = classes w /\ stores w' = stores w.
Proof.
  intros Hr Hset Hr' Hold Hnew.
  assert (Hlt : (r < length (heap w))%nat) by (by eapply lookup_lt_Some).
  destruct (set_attr_val_inv _ _ _ _ _ _ _ _ _ Hr Hset)
    as (self & attr & value & old_key & new_key & _ & _ & _
        & Hold0 & Hnew0 & Hw').
  rewrite Hold in Hold0. injection Hold0 as <-.
  set (e1 := with_blob e (blob_write path name value (base_blob w e))) in *.
  assert (Heq : new_key = k).
  { destruct (decide (new_key = k)) as [|Hne]; [done|]. exfalso.
    rewrite Hw' in Hr', Hnew.
    assert (Hne' : k <> k -> False) by (intros H; by apply H).
    unfold committed in Hr', Hnew. rewrite decide_False in Hr', Hnew by done.
    simpl in Hr'. rewrite list_lookup_insert_eq in Hr' by done.
    injection Hr' as <-.
    rewrite (entity_key_ext w _ e1 _) in Hnew; [congruence| |done..].
    intros c.
    apply (blind_table_class (fun cs cs' => cs_dict cs' = cs_dict cs)
             cs_dict c); [done | by intros ?? -> |].
    by destruct (dict_get _ _). }
  destruct (committed_entity r k new_key e1 w Hlt)
    as (e'' & Hr'' & _ & _ & _ & Hd & Ht & Hs & Hc).
  rewrite <- Hw', Hr' in Hr''. injection Hr'' as <-.
  rewrite Hw'. split; [by apply Ht|]. split; [done|].
  split; [by apply Hc | done].
Qed.

(** ** The record of a blob *)

Lemma serialize_blobs_keys l : forall (acc : list (string * data)) d,
  serialize_blobs l (Ok acc) = Ok d ->
  forall k, k ∈ dict_keys acc \/ k ∈ dict_keys l -> k ∈ dict_keys d.
Proof.
  induction l as [|[k' sb] l IH]; intros acc d Hser k Hk; simpl in Hser.
  - injection Hser as <-. destruct Hk as [Hk|Hk]; [done|].
    by apply elem_of_nil in Hk.
  - destruct (serialize sb) as [sd|]; [|discriminate].
    apply (IH _ _ Hser). rewrite dict_keys_set.
    rewrite dict_keys_cons in Hk.
    destruct (decide (k' ∈ dict_keys acc)); set_solver.
Qed.

Lemma fold_serialize_attr_collision values attrs :
  forall (acc : list (string * data)) k,
  k ∈ dict_keys attrs -> k ∈ dict_keys acc ->
  fold_left (serialize_attr values) attrs (Ok acc) = Raise KeyError.
Proof.
  induction attrs as [|[k' a] attrs IH]; intros acc k Hk Hacc.
  - by apply elem_of_nil in Hk.
  - simpl. unfold dict_has.
    destruct (dict_get k' acc) as [x|] eqn:Ek'.
    { apply fold_serialize_attr_raise. }
    apply (IH _ k).
    + rewrite dict_keys_cons in Hk. apply elem_of_cons in Hk as [->|Hk]; [|done].
      apply dict_get_None_keys in Ek'. done.
    + rewrite dict_keys_set. destruct (decide (k' ∈ dict_keys acc)); set_solver.
Qed.

Lemma serialize_raises b : forall e, serialize b = Raise e -> e = KeyError.
Proof.
  induction b as [attrs values blobs IH] using blob_ind'.
  intros e. rewrite serialize_unfold.
  assert (Hb : forall (acc : list (string * data)) e,
            serialize_blobs blobs (Ok acc) = Raise e -> e = KeyError).
  { induction IH as [|[k sb] l Hsb _ IHl]; intros acc e' Hser;
      simpl in Hser; [discriminate|].
    destruct (serialize sb) as [sd|e''] eqn:Esb.
    - by eapply IHl.
    - injection Hser as <-. by apply Hsb. }
  destruct (serialize_blobs blobs (Ok [])) as [acc|e'] eqn:Eb.
  - clear Eb Hb IH. revert acc.
    induction attrs as [|[k a] attrs IHa]; intros acc Hfold;
      simpl in Hfold; [discriminate|].
    destruct (dict_has k acc).
    + rewrite fold_serialize_attr_raise in Hfold. by injection Hfold.
    + by eapply IHa.
  - rewrite fold_serialize_attr_raise. intros [= <-]. by eapply Hb.
Qed.

(** X9: a blob in which one name is both a field and a sub-blob cannot
    be serialized: [DataBlob.serialize] raises [KeyError]. *)
Theorem serialize_name_collision attrs values blobs k :
  k ∈ dict_keys attrs -> k ∈ dict_keys blobs ->
  serialize (Blob attrs values blobs) = Raise KeyError.
Proof.
  intros Ha Hb. rewrite serialize_unfold.
  destruct (serialize_blobs blobs (Ok [])) as [acc|e] eqn:Eb.
  - apply (fold_serialize_attr_collision _ _ _ k Ha).
    apply (serialize_blobs_keys _ _ _ Eb). by right.
  - rewrite fold_serialize_attr_raise. f_equal.
    assert (Hs : serialize (Blob [] [] blobs) = Raise e).
    { rewrite serialize_unfold, Eb. done. }
    by apply (serialize_raises _ _ Hs).
Qed.

Lemma dict_get_app_l {K V} `{EqDecision K} (k : K) (v : V) (pre rest : dict K V) :
  dict_get k pre = Some v -> dict_get k (pre ++ rest) = Some v.
Proof.
  induction pre as [|[k' v'] pre IH]; simpl; [done|].
  by destruct (decide (k = k')).
Qed.

Lemma blob_entry_lookup blobs sds :
  Forall2 blob_entry blobs sds ->
  forall k sb, (k, sb) ∈ blobs ->
    exists sd, serialize sb = Ok sd /\ (k, DDict sd) ∈ sds.
Proof.
  induction 1 as [|[k' sb'] [k'' x] blobs sds [Hk (sd & Hsd & Hx)] _ IH];
    intros k sb Hin.
  - by apply elem_of_nil in Hin.
  - simpl in *. subst. apply elem_of_cons in Hin as [[= -> ->]|Hin].
    + exists sd. split; [done | left].
    + destruct (IH _ _ Hin) as (sd' & ? & ?). exists sd'. split; [done|].
      by right.
Qed.

(** X10: the record [DataBlob.serialize] returns has one entry for each
    sub-blob, in their order, followed by one entry for each field, in
    theirs: a sub-blob's entry is its own record, a field's entry the
    value of the field passed through the descriptor's [_serialize]
    hook, where a field without a value counts as [None] and the
    sentinel is stored as it is. *)
Theorem serialize_record_shape attrs values blobs d :
  NoDup (dict_keys blobs) ->
  serialize (Blob attrs values blobs) = Ok d ->
  dict_keys d = dict_keys blobs ++ dict_keys attrs
  /\ (forall k sb, (k, sb) ∈ blobs ->
        exists sd, serialize sb = Ok sd /\ dict_get k d = Some (DDict sd))
  /\ (forall k a, (k, a) ∈ attrs ->
        dict_get k d
        = Some (DVal (match default VNone (dict_get k values) with
                      | Unset => Unset
                      | v => _serialize a v
                      end))).
Proof.
  intros Hndb Hser. pose proof Hser as Hser0.
  rewrite serialize_unfold in Hser.
  destruct (serialize_blobs blobs (Ok [])) as [acc|] eqn:Eb.
  2:{ by rewrite fold_serialize_attr_raise in Hser. }
  destruct (serialize_blobs_shape blobs [] acc Hndb) as (sds & -> & Hsds);
    [intros k _; apply not_elem_of_nil | done |].
  simpl in Hser.
  destruct (fold_serialize_attr_shape _ _ _ _ Hser) as (-> & Hnda & Hfresh).
  split; [|split].
  - unfold dict_keys. rewrite map_app. f_equal.
    + apply (blob_entry_keys _ _ Hsds).
    + rewrite map_map. by apply map_ext.
  - intros k sb Hin.
    destruct (blob_entry_lookup _ _ Hsds _ _ Hin) as (sd & Hsd & Hin').
    exists sd. split; [done|]. apply dict_get_app_l.
    apply in_dict_get; [|done]. by rewrite (blob_entry_keys _ _ Hsds).
  - intros k a Hin.
    rewrite (serialize_get _ _ k a Hser0) by (simpl; by apply in_dict_get).
    simpl. unfold skip_unset.
    by destruct (default VNone (dict_get k values)).
Qed.

(** ** Entity.exists, Entity.delete and Entity.revert *)

(** X11: an entity of a class keyed by the identifier exists under its
    identifier from the moment it is constructed, saved or not, and
    [Entity.exists] reads without changing anything. *)
Theorem new_entity_exists cls d act sav w r w1 e1 :
  get_key_name cls = "uid" ->
  Entity_init cls d act sav w = (Ok r, w1) ->
  heap w1 !! r = Some e1 ->
  Entity_exists cls (_uid e1) w1 = (Ok true, w1).
Proof.
  intros Hkn Hinit Hr1.
  destruct (Entity_init_inv _ _ _ _ _ _ _ Hinit)
    as (_ & _ & _ & _ & _ & e1' & Hr1' & _ & _ & _ & Hinst).
  rewrite Hr1 in Hr1'. injection Hr1' as <-.
  unfold Entity_exists. rewrite bind_run. unfold get_world. cbv beta iota.
  destruct (match c_store cls with
            | Some sid => store_has (_uid e1) (store_of w1 sid)
            | None => false
            end); [done|].
  rewrite decide_True by done. unfold dict_has. by rewrite Hinst.
Qed.

(** X12: [Entity.delete] removes the record stored under the key of the
    entity and nothing else: the entity, every other entity, the
    instance tables and caches of the classes, the other stores and
    the other records of its store are as before.  In particular an
    entity of a class keyed by the identifier still exists after it is
    deleted, while it is registered. *)
Theorem delete_removes_record_only r w e sid key :
  heap w !! r = Some e ->
  c_store (e_class e) = Some sid ->
  entity_key w e = Ok key ->
  exists w',
    delete r w = (Ok tt, w')
    /\ heap w' = heap w /\ classes w' = classes w
    /\ uid_timecode w' = uid_timecode w
    /\ store_get key (store_of w' sid) = None
    /\ (forall k, k <> key ->
          store_get k (store_of w' sid) = store_get k (store_of w sid))
    /\ (forall sid', sid' <> sid -> store_of w' sid' = store_of w sid')
    /\ (get_key_name (e_class e) = "uid" ->
        dict_has key (_instances (class_state_of w (e_class e))) = true ->
        Entity_exists (e_class e) key w' = (Ok true, w')).
Proof.
  intros Hr Hsid Hkey. unfold delete.
  rewrite bind_run, (get_entity_run _ _ _ Hr), Hsid.
  rewrite bind_run, (key_of_run _ _ _ Hr), Hkey.
  unfold update_store, modify. eexists. split; [done|].
  do 3 (split; [done|]). split.
  { rewrite store_of_set_eq. apply dict_get_del_eq. }
  split.
  { intros k Hne. rewrite store_of_set_eq. unfold store_get, store_delete.
    by apply dict_get_del_ne. }
  split.
  { intros sid' Hne. unfold store_of, set_store. simpl.
    by rewrite lookup_insert_ne. }
  intros Hkn Hinst. unfold Entity_exists.
  rewrite bind_run. unfold get_world. cbv beta iota. rewrite Hsid.
  rewrite store_of_set_eq. unfold store_has, store_delete, dict_has at 1.
  rewrite dict_get_del_eq. rewrite decide_True by done.
  by rewrite <- Hinst.
Qed.

(** X13: [Entity.revert] guards what it reads: it raises [TypeError]
    for an entity whose class has no store, [KeyError] when the store
    holds nothing under the key of the entity, and [ValueError] when
    the record stored under the key carries another identifier than
    the entity's; in each case the state is as it was. *)
Theorem revert_guards r w e :
  heap w !! r = Some e ->
  (c_store (e_class e) = None -> revert r w = (Raise TypeError, w))
  /\ (forall sid key,
        c_store (e_class e) = Some sid -> entity_key w e = Ok key ->
        store_get key (store_of w sid) = None ->
        revert r w = (Raise KeyError, w))
  /\ (forall sid key data u,
        c_store (e_class e) = Some sid -> entity_key w e = Ok key ->
        store_get key (store_of w sid) = Some data ->
        dict_get "uid" data = Some u -> u <> DVal (_uid e) ->
        revert r w = (Raise ValueError, w)).
Proof.
  intros Hr. unfold revert. split; [|split].
  - intros Hnone. by rewrite bind_run, (get_entity_run _ _ _ Hr), Hnone.
  - intros sid key Hsid Hkey Hget.
    rewrite bind_run, (get_entity_run _ _ _ Hr), Hsid.
    rewrite bind_run, (key_of_run _ _ _ Hr), Hkey.
    rewrite bind_run. unfold get_world. cbv beta iota. by rewrite Hget.
  - intros sid key data u Hsid Hkey Hget Hu Hne.
    rewrite bind_run, (get_entity_run _ _ _ Hr), Hsid.
    rewrite bind_run, (key_of_run _ _ _ Hr), Hkey.
    rewrite bind_run. unfold get_world. cbv beta iota. rewrite Hget, Hu.
    destruct u as [u| |]; [|done..].
    rewrite decide_False; [done|]. by intros <-.
Qed.

(** ** Registration and the key of a class keyed by the identifier *)

Lemma existsb_code_false code (l : list pyclass) :
  existsb (fun c => bool_decide (code = c_uid_code c)) l = false ->
  code ∉ map c_uid_code l.
Proof.
  induction l as [|c l IH]; simpl; intros H.
  - apply not_elem_of_nil.
  - apply orb_false_iff in H as [Hc Hl].
    apply bool_decide_eq_false in Hc.
    intros Hin. apply elem_of_cons in Hin as [?|?]; [done | by apply IH].
Qed.

(** X14: a successful [EntityManager.register] files the class under
    its name and keeps every class registered before where it was; a
    manager whose classes had distinct names and distinct identifier
    codes still has after it. *)
Theorem register_keeps_manager entities entity entities' :
  register entities entity = Ok entities' ->
  dict_get (c_name entity) entities' = Some entity
  /\ (forall n, n <> c_name entity ->
                dict_get n entities' = dict_get n entities)
  /\ dict_get (c_name entity) entities = None
  /\ (manager_ok entities -> manager_ok entities').
Proof.
  unfold register. destruct (c_is_entity entity); [|discriminate]. simpl.
  destruct (dict_has (c_name entity) entities) eqn:Ehas; [discriminate|].
  destruct (existsb _ _) eqn:Ecode; [discriminate|].
  intros [= <-]. apply dict_has_false in Ehas.
  split; [apply dict_get_set_eq|].
  split; [intros n Hne; by apply dict_get_set_ne|].
  split; [done|].
  intros (Hnames & Hcodes & Hn).
  rewrite (dict_set_fresh _ _ _ Ehas). unfold manager_ok, dict_keys, dict_values.
  rewrite !map_app. simpl. split; [|split].
  - apply NoDup_app. split; [done|]. split; [|apply NoDup_singleton].
    intros x Hx Hin. apply elem_of_cons in Hin as [->|Hin].
    + by apply dict_get_None_keys in Ehas.
    + by apply elem_of_nil in Hin.
  - apply NoDup_app. split; [done|]. split; [|apply NoDup_singleton].
    intros x Hx Hin. apply elem_of_cons in Hin as [->|Hin].
    + by apply existsb_code_false in Ecode.
    + by apply elem_of_nil in Hin.
  - intros n c Hin. apply elem_of_app in Hin as [Hin|Hin]; [by apply Hn|].
    apply elem_of_cons in Hin as [[= -> ->]|Hin]; [done|].
    by apply elem_of_nil in Hin.
Qed.

Lemma class_member_inherited w name base cls :
  descends base cls ->
  (exists m, class_member w name base = Some m) ->
  exists m, class_member w name cls = Some m.
Proof.
  intros Hd Hbase. induction Hd as [|i n b u k s bases c Hin Hd IH]; [done|].
  destruct IH as [m Hm]. simpl.
  destruct (dict_get name _) as [m'|]; [by exists m'|].
  clear Hd. induction bases as [|c' bases IHb]; [by apply elem_of_nil in Hin|].
  destruct (class_member w name c') as [m'|] eqn:Ec'; [by exists m'|].
  apply elem_of_cons in Hin as [->|Hin]; [congruence|]. by apply IHb.
Qed.

(** X15: a name registered as a field of a class is taken in every
    class that descends from it: registering a field or a sub-blob
    under that name on a descendant raises [AlreadyExists] and changes
    nothing. *)
Theorem registered_name_is_inherited base cls name a a' bc w w' :
  descends base cls ->
  register_attr base name a w = (Ok tt, w') ->
  register_attr cls name a' w' = (Raise AlreadyExists, w')
  /\ register_blob cls name bc w' = (Raise AlreadyExists, w').
Proof.
  intros Hd Hreg.
  assert (Hhas : class_hasattr w' cls name = true).
  { unfold class_hasattr. apply orb_true_iff. right.
    destruct (class_member_inherited w' name base cls Hd) as [m ->]; [|done].
    unfold register_attr in Hreg. rewrite bind_run in Hreg.
    unfold get_world in Hreg. cbv beta iota in Hreg.
    destruct (class_hasattr w base name); [discriminate|].
    unfold update_class, modify in Hreg. injection Hreg as <-.
    eexists. apply class_member_own. rewrite class_state_of_set_eq. simpl.
    apply dict_get_set_eq. }
  unfold register_attr, register_blob. rewrite !bind_run.
  unfold get_world. cbv beta iota. by rewrite Hhas.
Qed.

(** X16: the key of a class keyed by the identifier cannot be assigned:
    the key setter raises [AttributeError] and changes nothing.  So
    [clone] on an entity of such a class raises [AttributeError] once
    it has constructed and registered the copy, which stays. *)
Theorem uid_key_cannot_be_set r new_key w e :
  heap w !! r = Some e ->
  c_store_key (e_class e) = KeyName "uid" ->
  class_member w "uid" (e_class e) = None ->
  set_key r new_key w = (Raise AttributeError, w)
  /\ (forall sid bd r' w1,
        c_store (e_class e) = Some sid ->
        store_has new_key (store_of w sid) = false ->
        serialize (base_blob w e) = Ok bd ->
        Entity_init (e_class e)
          (Some (dict_del "uid" (entity_record e bd))) false true w
        = (Ok r', w1) ->
        clone r new_key w = (Raise AttributeError, w1)
        /\ r' = length (heap w)
        /\ exists e', heap w1 !! r' = Some e'
             /\ dict_get (_uid e') (_instances (class_state_of w1 (e_class e)))
                = Some r').
Proof.
  intros Hr Hkn Hm. split.
  - unfold set_key. rewrite bind_run, (get_entity_run _ _ _ Hr), Hkn.
    unfold entity_setattr. rewrite bind_run, (get_entity_run _ _ _ Hr).
    rewrite bind_run. unfold get_world. cbv beta iota. by rewrite Hm.
  - intros sid bd r' w1 Hsid Hhas Hser Hinit.
    destruct (Entity_init_inv _ _ _ _ _ _ _ Hinit)
      as (Hr' & _ & _ & _ & Hdict & e1 & Hr1 & Hc1 & _ & _ & Hinst).
    split; [|split; [done | by exists e1]].
    unfold clone. rewrite bind_run, (get_entity_run _ _ _ Hr), Hsid.
    rewrite bind_run. unfold get_world at 1. cbv beta iota. rewrite Hhas.
    rewrite bind_run, (entity_serialize_run _ _ _ _ Hr Hser).
    cbv beta iota zeta. rewrite bind_run, Hinit.
    rewrite bind_run. unfold set_key.
    rewrite bind_run, (get_entity_run _ _ _ Hr1), Hc1, Hkn.
    unfold entity_setattr. rewrite bind_run, (get_entity_run _ _ _ Hr1).
    rewrite bind_run. unfold get_world. cbv beta iota.
    by rewrite Hc1, (class_member_ext w w1 "uid" Hdict), Hm.
Qed.

(** ** Searching the instance table *)

Lemma limit_met_zero found : limit_met 0 found = false.
Proof. reflexivity. Qed.

Lemma size_insert_le (r : nat) (X : gset nat) :
  (size ({[r]} ∪ X) <= S (size X))%nat.
Proof.
  destruct (decide (r ∈ X)) as [Hin|Hnin].
  - assert (({[r]} ∪ X) = X) as -> by set_solver. lia.
  - rewrite size_union by set_solver. rewrite size_singleton. lia.
Qed.

(** What the loop of [find] over the instances returns: members of what
    it started with or matching instances; every matching instance
    unless it left through [break]; and no more than the limit asks
    for. *)
Lemma scan_instances_spec w pairs m n refs : forall found ck found' ck',
  scan_instances w pairs m n refs found ck = Ok (found', ck') ->
  found ⊆ found'
  /\ (forall r, r ∈ found' -> r ∈ found \/ (r ∈ refs /\ matches w pairs m r))
  /\ (limit_met n found' = true
      \/ forall r, r ∈ refs -> matches w pairs m r -> r ∈ found')
  /\ ((0 < n)%Z -> (Z.of_nat (size found) < n)%Z ->
      (Z.of_nat (size found') <= n)%Z).
Proof.
  induction refs as [|r refs IH]; intros found ck found' ck' Hscan;
    simpl in Hscan.
  - injection Hscan as <- <-. split; [done|]. split; [by left|].
    split; [right; intros r Hr; by apply elem_of_nil in Hr | lia].
  - destruct (heap w !! r) as [e|] eqn:Hr; [|discriminate].
    destruct (entity_matches w e pairs) as [bs|] eqn:Hm; [|discriminate].
    destruct (apply_match m bs) eqn:Ham; cbn [andb] in Hscan.
    + destruct (limit_met n ({[r]} ∪ found)) eqn:Hlim.
      * injection Hscan as <- <-. split; [set_solver|]. split.
        { intros r' Hr'. apply elem_of_union in Hr' as [Hr'|Hr']; [|by left].
          apply elem_of_singleton in Hr' as ->. right. split; [left|].
          by exists e, bs. }
        split; [by left|]. intros Hn Hsz.
        pose proof (size_insert_le r found). lia.
      * destruct (entity_key w e) as [k|]; [|discriminate].
        destruct (IH _ _ _ _ Hscan) as (Hsub & Hsound & Hcompl & Hsize).
        split; [set_solver|]. split.
        { intros r' Hr'. destruct (Hsound _ Hr') as [Hin|[Hin Hmr]].
          - apply elem_of_union in Hin as [Hin|Hin]; [|by left].
            apply elem_of_singleton in Hin as ->. right. split; [left|].
            by exists e, bs.
          - right. split; [by right | done]. }
        split.
        { destruct Hcompl as [Hl|Hc]; [by left|]. right.
          intros r' Hr' Hmr. apply elem_of_cons in Hr' as [->|Hr'].
          - apply Hsub. set_solver.
          - by apply Hc. }
        intros Hn Hsz. apply Hsize; [done|].
        unfold limit_met in Hlim. apply andb_false_iff in Hlim as [Hz|Hle].
        { apply negb_false_iff, Z.eqb_eq in Hz. lia. }
        apply Z.leb_gt in Hle. done.
    + destruct (entity_key w e) as [k|]; [|discriminate].
      destruct (IH _ _ _ _ Hscan) as (Hsub & Hsound & Hcompl & Hsize).
      split; [done|]. split.
      { intros r' Hr'. destruct (Hsound _ Hr') as [Hin|[Hin Hmr]];
          [by left|]. right. split; [by right | done]. }
      split; [|done].
      destruct Hcompl as [Hl|Hc]; [by left|]. right.
      intros r' Hr' Hmr. apply elem_of_cons in Hr' as [->|Hr']; [|by apply Hc].
      destruct Hmr as (e' & bs' & Hr'' & Hm' & Ham').
      rewrite Hr in Hr''. injection Hr'' as <-. congruence.
Qed.

(** X17: [Entity.find] over the registered instances only (no store
    scan) reads without changing anything; every entity it returns is
    a registered instance that satisfies the criteria under the policy;
    without a limit it returns every such instance, each once; with a
    positive limit it returns no more than the limit; and with the
    limit 1 it returns one matching instance, or [None] only when no
    registered instance matches. *)
Theorem find_in_memory cls args pairs m n w res w' :
  unpack_pairs args = Ok pairs ->
  find cls args true false m n w = (Ok res, w') ->
  let refs := dict_values (_instances (class_state_of w cls)) in
  w' = w
  /\ match res with
     | FoundOne o =>
         n = 1
         /\ (forall r, o = Some r -> r ∈ refs /\ matches w pairs m r)
         /\ (o = None -> forall r, r ∈ refs -> ~ matches w pairs m r)
     | FoundList l =>
         n <> 1 /\ NoDup l
         /\ (forall r, r ∈ l -> r ∈ refs /\ matches w pairs m r)
         /\ (n = 0 -> forall r, r ∈ refs -> matches w pairs m r -> r ∈ l)
         /\ (0 < n -> Z.of_nat (length l) <= n)
     end.
Proof.
  intros Hpairs Hfind refs. unfold find in Hfind.
  rewrite bind_run in Hfind. unfold lift at 1 in Hfind. rewrite Hpairs in Hfind.
  rewrite bind_run in Hfind. unfold get_world at 1 in Hfind.
  cbv beta iota in Hfind. rewrite bind_run in Hfind. unfold lift in Hfind.
  fold refs in Hfind.
  destruct (scan_instances w pairs m n refs ∅ ∅) as [[found ck]|] eqn:Hscan;
    [|discriminate].
  cbn [andb] in Hfind. rewrite bind_run in Hfind.
  unfold mret, Py_ret in Hfind. cbv beta iota in Hfind.
  destruct (scan_instances_spec _ _ _ _ _ _ _ _ _ Hscan)
    as (_ & Hsound & Hcompl & Hsize).
  assert (Hsound' : forall r, r ∈ found -> r ∈ refs /\ matches w pairs m r).
  { intros r Hr. destruct (Hsound _ Hr) as [Hin|?]; [set_solver | done]. }
  destruct (n =? 1)%Z eqn:Hn1.
  - apply Z.eqb_eq in Hn1. injection Hfind as <- <-.
    split; [done|]. split; [done|]. split.
    + intros r Hhead. apply Hsound'. apply elem_of_elements.
      destruct (elements found) as [|x l]; [discriminate|].
      injection Hhead as ->. left.
    + intros Hhead r Hr Hmr.
      assert (Hempty : found ≡ ∅).
      { apply elements_empty_iff. by destruct (elements found). }
      destruct Hcompl as [Hlim|Hc].
      * unfold limit_met in Hlim. rewrite Hempty, size_empty in Hlim.
        rewrite Hn1 in Hlim. simpl in Hlim. discriminate.
      * specialize (Hc _ Hr Hmr). set_solver.
  - apply Z.eqb_neq in Hn1. injection Hfind as <- <-.
    split; [done|]. split; [done|]. split; [apply NoDup_elements|]. split.
    { intros r Hr. apply Hsound'. by apply elem_of_elements. }
    split.
    + intros -> r Hr Hmr. apply elem_of_elements.
      destruct Hcompl as [Hlim|Hc]; [discriminate | by apply Hc].
    + intros Hn. change (length (elements found)) with (size found).
      apply Hsize; [done|]. rewrite size_empty. lia.
Qed.

Lemma unpack_pairs_odd args :
  Nat.odd (length args) = true -> unpack_pairs args = Raise ValueError.
Proof.
  revert args. fix IH 1. intros [|a [|v rest]]; [discriminate | done |].
  intros Hodd. cbn [unpack_pairs]. rewrite IH; [done|].
  cbn [length] in Hodd. by rewrite Nat.odd_succ_succ in Hodd.
Qed.

(** X18: [Entity.find] called with an odd number of positional
    arguments, an attribute without a value to compare it with, raises
    [ValueError] before it looks at an instance or the store. *)
Theorem find_odd_arguments cls args cache store m n w :
  Nat.odd (length args) = true ->
  find cls args cache store m n w = (Raise ValueError, w).
Proof.
  intros Hodd. unfold find. rewrite bind_run. unfold lift.
  by rewrite (unpack_pairs_odd _ Hodd).
Qed.

(** ** Room coordinates as a key *)

Lemma rstrip_digits d :
  rstrip (NilEmpty.string_of_uint d) = NilEmpty.string_of_uint d.
Proof.
  induction d; simpl; [done|..]; rewrite IHd;
    by destruct (NilEmpty.string_of_uint d).
Qed.

Lemma lstrip_digits d :
  lstrip (NilEmpty.string_of_uint d) = NilEmpty.string_of_uint d.
Proof. by destruct d. Qed.

Lemma digit_groups_digits d : forall after_digit,
  d <> Decimal.Nil \/ after_digit = true ->
  digit_groups (NilEmpty.string_of_uint d) after_digit
  = Some (NilEmpty.string_of_uint d).
Proof.
  induction d; intros b Hb; simpl;
    try (rewrite IHd by (by right); reflexivity).
  destruct Hb as [Hb| ->]; done.
Qed.

Lemma sign_split_digits d :
  sign_split (NilEmpty.string_of_uint d) = (false, NilEmpty.string_of_uint d).
Proof. by destruct d. Qed.

Lemma parse_digits d :
  d <> Decimal.Nil ->
  parse_int (NilEmpty.string_of_uint d) = Ok (VInt (Z.of_int (Decimal.Pos d)))
  /\ parse_int (String "-" (NilEmpty.string_of_uint d))
     = Ok (VInt (Z.of_int (Decimal.Neg d))).
Proof.
  intros Hd. unfold parse_int. split.
  - rewrite lstrip_digits, rstrip_digits, sign_split_digits.
    rewrite digit_groups_digits by (by left). by rewrite NilEmpty.usu.
  - assert (Hs : rstrip (lstrip (String "-" (NilEmpty.string_of_uint d)))
                 = String "-" (NilEmpty.string_of_uint d)).
    { change (lstrip (String "-" ?s)) with (String "-" s).
      cbn [rstrip]. rewrite rstrip_digits.
      destruct d; done. }
    rewrite Hs. cbn [sign_split].
    change (sign_split (String "-" ?s)) with (true, s).
    cbv beta iota.
    rewrite digit_groups_digits by (by left). by rewrite NilEmpty.usu.
Qed.

Lemma to_int_nonnil z d :
  Z.to_int z = Decimal.Pos d \/ Z.to_int z = Decimal.Neg d ->
  d <> Decimal.Nil.
Proof.
  intros Hd ->. destruct z as [|p|p]; simpl in Hd;
    destruct Hd as [Hd|Hd]; try discriminate;
    injection Hd as Hd; by apply (Unsigned.to_uint_nonnil p).
Qed.

Lemma parse_format_int z : parse_int (format_value (VInt z)) = Ok (VInt z).
Proof.
  unfold format_value, NilZero.string_of_int.
  rewrite <- (DecimalZ.of_to z) at 2.
  destruct (Z.to_int z) as [d|d] eqn:Hd.
  - assert (Hne : d <> Decimal.Nil) by (eapply to_int_nonnil; by left).
    destruct (parse_digits d Hne) as [Hp _].
    unfold NilZero.string_of_uint. by destruct d.
  - assert (Hne : d <> Decimal.Nil) by (eapply to_int_nonnil; by right).
    destruct (parse_digits d Hne) as [_ Hp].
    unfold NilZero.string_of_uint. by destruct d.
Qed.

Lemma split_on_lacks c s : lacks c s -> split_on c s = [s].
Proof.
  induction s as [|a s IH]; [done|]. intros [Ha Hs]. simpl.
  rewrite (proj2 (Ascii.eqb_neq a c) Ha). by rewrite IH.
Qed.

Lemma split_on_app c s1 s2 :
  lacks c s1 -> split_on c (s1 +:+ String c s2) = s1 :: split_on c s2.
Proof.
  induction s1 as [|a s1 IH]; intros Hs; simpl.
  - by rewrite Ascii.eqb_refl.
  - destruct Hs as [Ha Hs]. rewrite (proj2 (Ascii.eqb_neq a c) Ha).
    by rewrite (IH Hs).
Qed.

Lemma digits_lack_comma d : lacks "," (NilEmpty.string_of_uint d).
Proof. induction d; simpl; try done; split; done. Qed.

Lemma format_int_lacks_comma z : lacks "," (format_value (VInt z)).
Proof.
  unfold format_value, NilZero.string_of_int, NilZero.string_of_uint.
  destruct (Z.to_int z) as [d|d]; destruct d; simpl;
    repeat split; try done; apply digits_lack_comma.
Qed.

(** X19: the key string of a room and the setter of its key agree:
    for integer coordinates, the string [get_coord_str] makes is split
    and parsed by [set_coord_from_str] into the assignments of exactly
    those coordinates; while a coordinate is unset the key is the
    sentinel, which the setter refuses with [AttributeError]. *)
Theorem coord_str_round_trip (self : entity_view) x y z :
  self "x" = Some (VInt x) -> self "y" = Some (VInt y) ->
  self "z" = Some (VInt z) ->
  exists s,
    get_coord_str self = Ok (VStr s)
    /\ set_coord_from_str (VStr s)
       = Ok [("x", VInt x); ("y", VInt y); ("z", VInt z)]
    /\ (forall self',
          self' "x" = Some Unset \/ self' "y" = Some Unset
          \/ self' "z" = Some Unset ->
          forall k, get_coord_str self' = Ok k ->
                    k = Unset
                    /\ set_coord_from_str k = Raise AttributeError).
Proof.
  intros Hx Hy Hz. unfold get_coord_str. rewrite Hx, Hy, Hz.
  eexists. split; [reflexivity|]. split.
  - unfold set_coord_from_str.
    change ("," +:+ format_value (VInt y) +:+ "," +:+ format_value (VInt z))
      with (String "," (format_value (VInt y)
                        +:+ String "," (format_value (VInt z)))).
    rewrite (split_on_app _ _ _ (format_int_lacks_comma x)).
    rewrite (split_on_app _ _ _ (format_int_lacks_comma y)).
    rewrite (split_on_lacks _ _ (format_int_lacks_comma z)).
    cbn [map]. by rewrite !parse_format_int.
  - intros self' Hunset k Hk.
    assert (k = Unset) as ->; [|by split].
    destruct (self' "x") as [x'|], (self' "y") as [y'|], (self' "z") as [z'|];
      try discriminate.
    assert (Hc : bool_decide (x' = Unset) || bool_decide (y' = Unset)
                 || bool_decide (z' = Unset) = true).
    { apply orb_true_iff.
      destruct Hunset as [H|[H|H]]; injection H as ->;
        [left; apply orb_true_iff; left
        |left; apply orb_true_iff; right
        |right]; by apply bool_decide_eq_true. }
    rewrite Hc in Hk. by injection Hk.
Qed.

(** ** Reverting to the stored record *)

Lemma flags_add_old new : forall old, old ⊆ flags_add new old.
Proof.
  unfold flags_add. induction new as [|f new IH]; intros old; simpl; [done|].
  destruct (decide (f ∈ old)); [apply IH|].
  etransitivity; [|apply IH]. intros x Hx. apply elem_of_app. by left.
Qed.

Lemma flags_add_new new : forall old, new ⊆ flags_add new old.
Proof.
  unfold flags_add. induction new as [|f new IH]; intros old; simpl.
  - intros x Hx. by apply elem_of_nil in Hx.
  - intros x Hx. apply elem_of_cons in Hx as [->|Hx]; [|by apply IH].
    destruct (decide (f ∈ old)) as [Hin|Hin].
    + by apply (flags_add_old new old).
    + apply (flags_add_old new (old ++ [f])). apply elem_of_app. right.
      apply elem_of_cons. by left.
Qed.

Lemma entity_deserialize_shell r d w w' e :
  heap w !! r = Some e ->
  entity_deserialize r d w = (Ok tt, w') ->
  exists et,
    same_fields e et
    /\ _uid et = uid_of d e
             /\ flags e ⊆ flags et
    /\ deserialize r [] (blob_record d) (set_heap (<[r := et]> (heap w)) w)
       = (Ok tt, w').
Proof.
  intros Hr Hrun. unfold entity_deserialize in Hrun.
  apply bind_ok_inv in Hrun as (d1 & w1 & Huid & Hrun).
  assert (H1 : exists e1, same_fields e e1
             /\ _uid e1 = uid_of d e
             /\ flags e ⊆ flags e1
             /\ d1 = dict_del "uid" d
             /\ w1 = set_heap (<[r := e1]> (heap w)) w).
  { destruct (dict_get "uid" d) as [[u| |]|] eqn:Euid; try discriminate.
    - destruct (update_then_ret _ _ _ _ _ _ _ Hr Huid) as [-> ->].
      exists (with_uid e u). split; [by split|]. split; [|done].
      unfold uid_of. by rewrite Euid.
    - injection Huid as <- <-. exists e. split; [reflexivity|].
      split; [unfold uid_of; by rewrite Euid|]. split; [done|].
      split; [symmetry; by apply dict_del_absent|].
      symmetry. by apply set_heap_id. }
  destruct H1 as (e1 & Hsf1 & Hu1 & Hf1 & -> & ->).
  assert (Hr1 := heap_lookup_set r e1 w e Hr).
  apply bind_ok_inv in Hrun as (d2 & w2 & Hflags & Hrun).
  assert (H2 : exists e2, same_fields e e2
             /\ _uid e2 = uid_of d e
             /\ flags e ⊆ flags e2
             /\ d2 = dict_del "flags" (dict_del "uid" d)
             /\ w2 = set_heap (<[r := e2]> (heap w)) w).
  { destruct (dict_get "flags" (dict_del "uid" d)) as [[|fs|]|] eqn:Efl;
      try discriminate.
    - destruct (update_then_ret _ _ _ _ _ _ _ Hr1 Hflags) as [-> ->].
      rewrite set_heap_twice.
      eexists. split; [|split; [|split; [|split; reflexivity]]].
      + destruct Hsf1. by split.
      + exact Hu1.
      + cbn [flags with_flags]. etransitivity; [exact Hf1|].
        apply flags_add_old.
    - injection Hflags as <- <-. exists e1. split; [done|].
      split; [done|]. split; [done|].
      split; [symmetry; by apply dict_del_absent | done]. }
  destruct H2 as (e2 & Hsf2 & Hu2 & Hf2 & -> & ->).
  assert (Hr2 := heap_lookup_set r e2 w e Hr).
  apply bind_ok_inv in Hrun as (d3 & w3 & Htags & Hrun).
  assert (H3 : exists e3, same_fields e e3
             /\ _uid e3 = uid_of d e
             /\ flags e ⊆ flags e3
             /\ d3 = blob_record d
             /\ w3 = set_heap (<[r := e3]> (heap w)) w).
  { unfold blob_record.
    destruct (dict_get "tags" (dict_del "flags" (dict_del "uid" d)))
      as [[| |td]|] eqn:Etg; try discriminate.
    - apply bind_ok_inv in Htags as (t & wt & Ht & Htags).
      unfold lift in Ht. destruct (tags_of_data td); [|discriminate].
      injection Ht as -> <-.
      rewrite bind_run, (update_entity_run _ _ _ _ Hr2), set_heap_twice in Htags.
      match type of Htags with
      | context [set_heap (<[r := ?e']> (heap w)) w] =>
          assert (Hr3 := heap_lookup_set r e' w e Hr)
      end.
      destruct (update_then_ret _ _ _ _ _ _ _ Hr3 Htags) as [-> ->].
      rewrite set_heap_twice.
      eexists. split; [|split; [|split; [|split; reflexivity]]].
      + destruct Hsf2. by split.
      + exact Hu2.
      + exact Hf2.
    - injection Htags as <- <-. exists e2. split; [done|].
      split; [done|]. split; [done|].
      split; [symmetry; by apply dict_del_absent | done]. }
  destruct H3 as (e3 & Hsf3 & Hu3 & Hf3 & -> & ->).
  by exists e3.
Qed.

(** X20: a [revert] that returns has found, under the entity's current
    key, a record that carries the entity's own identifier; it has read
    that record into the entity's fields as [DataBlob.deserialize]
    does, left the entity clean with the identifier it had, dropped
    none of its flags, and changed neither a store nor another
    entity. *)
Theorem revert_reads_record r w w' e sid :
  heap w !! r = Some e ->
  c_store (e_class e) = Some sid ->
  revert r w = (Ok tt, w') ->
  exists key d e',
    entity_key w e = Ok key
    /\ store_get key (store_of w sid) = Some d
    /\ dict_get "uid" d = Some (DVal (_uid e))
    /\ heap w' !! r = Some e'
    /\ load_record (blob_record d) (base_blob w e) = Some (base_blob w' e')
    /\ _dirty e' = false
    /\ _uid e' = _uid e
    /\ flags e ⊆ flags e'
    /\ stores w' = stores w
    /\ (forall r', r' <> r -> heap w' !! r' = heap w !! r').
Proof.
  intros Hr Hstore Hrun. unfold revert in Hrun.
  rewrite bind_run, (get_entity_run _ _ _ Hr) in Hrun. rewrite Hstore in Hrun.
  rewrite bind_run, (key_of_run _ _ _ Hr) in Hrun.
  destruct (entity_key w e) as [key|] eqn:Hkey; [|discriminate].
  rewrite bind_run in Hrun. unfold get_world at 1 in Hrun.
  cbv beta iota in Hrun.
  destruct (store_get key (store_of w sid)) as [d|] eqn:Hget; [|discriminate].
  destruct (dict_get "uid" d) as [[u| |]|] eqn:Huid; try discriminate.
  destruct (decide (_uid e = u)) as [<-|]; [|discriminate].
  apply bind_ok_inv in Hrun as ([] & w1 & Hdes & Hclean).
  destruct (entity_deserialize_shell _ _ _ _ _ Hr Hdes)
    as (et & Hsf & Hut & Hft & Hblob).
  set (wt := set_heap (<[r := et]> (heap w)) w) in *.
  assert (Hrt : heap wt !! r = Some et) by (by eapply heap_lookup_set).
  destruct (deserialize_sim r _ [] _ _ _ _ Hrt eq_refl Hblob)
    as (b' & Hload & e1 & Hr1 & Hsh1 & Hb1).
  destruct (deserialize_spares _ _ _ _ _ _ Hblob)
    as (Hother & Hst & _ & _).
  rewrite (update_entity_run _ _ _ _ Hr1) in Hclean.
  injection Hclean as <-.
  assert (Hbt : base_blob wt et = base_blob w e).
  { unfold base_blob. destruct Hsf as [Hc Hv Hb _ _]. rewrite Hc, Hv, Hb.
    done. }
  exists key, d, (with_dirty e1 false).
  split; [done|]. split; [done|]. split; [done|].
  split; [by eapply heap_lookup_set|].
  split.
  { rewrite <- Hbt, Hload. f_equal. simpl in Hb1. rewrite <- Hb1. done. }
  split; [done|].
  split.
  { cbn [_uid with_dirty]. destruct Hsh1 as [_ _ _ Hu _]. rewrite Hu, Hut.
    unfold uid_of. by rewrite Huid. }
  split.
  { cbn [flags with_dirty]. destruct Hsh1 as [_ _ _ _ Hf]. by rewrite Hf. }
  split; [exact Hst|].
  intros r' Hne. cbn [heap set_heap].
  rewrite list_lookup_insert_ne by done. rewrite (Hother _ Hne).
  unfold wt. cbn [heap set_heap]. by rewrite list_lookup_insert_ne.
Qed.

(** ** Saving without a key change *)

Lemma save_plain_run r w e sid key bd :
  heap w !! r = Some e -> c_store (e_class e) = Some sid ->
  _savable e = true ->
  dict_get "_old_key" (tags e) = None ->
  entity_key w e = Ok key ->
  serialize (base_blob w e) = Ok bd ->
  save r w
  = (Ok tt,
     set_heap (<[r := with_dirty e false]> (heap w))
       (set_store sid (store_put key (entity_record e bd) (store_of w sid)) w)).
Proof.
  intros Hr Hstore Hsav Htag Hkey Hser.
  unfold save. rewrite bind_run, (get_entity_run _ _ _ Hr). cbv beta iota.
  rewrite Hstore, Hsav. cbn [negb]. rewrite Htag.
  rewrite bind_run. unfold mret at 1, Py_ret at 1. cbv beta iota.
  assert (Hes : entity_serialize r w = (Ok (entity_record e bd), w)).
  { unfold entity_serialize. rewrite bind_run, (get_entity_run _ _ _ Hr).
    rewrite bind_run. unfold get_world at 1. cbv beta iota.
    rewrite bind_run. unfold lift at 1. by rewrite Hser. }
  rewrite bind_run, Hes.
  rewrite bind_run, (key_of_run _ _ _ Hr), Hkey.
  rewrite bind_run. unfold update_store at 1, modify.
  match goal with |- context [update_entity r ?f ?w3] =>
    assert (Hr3 : heap w3 !! r = Some e) by exact Hr;
    rewrite (update_entity_run r f w3 e Hr3) end.
  reflexivity.
Qed.

(** X21: [Entity.save] of an entity that cannot be saved (its class has
    no store, or the instance is marked not savable) changes nothing.
    For a savable entity with no key change pending, it writes the
    entity's serialization under the entity's key, replacing what was
    there, clears the dirty flag, and changes no other record, store,
    entity or class; saving again right away changes nothing more. *)
Theorem save_writes_record r w e :
  heap w !! r = Some e ->
  (c_store (e_class e) = None \/ _savable e = false ->
   save r w = (Ok tt, w))
  /\ (forall sid key bd,
        c_store (e_class e) = Some sid -> _savable e = true ->
        dict_get "_old_key" (tags e) = None ->
        entity_key w e = Ok key ->
        serialize (base_blob w e) = Ok bd ->
        exists w',
          save r w = (Ok tt, w')
          /\ store_get key (store_of w' sid) = Some (entity_record e bd)
          /\ (forall k, k <> key ->
                store_get k (store_of w' sid) = store_get k (store_of w sid))
          /\ (forall sid', sid' <> sid -> store_of w' sid' = store_of w sid')
          /\ heap w' = <[r := with_dirty e false]> (heap w)
          /\ classes w' = classes w
          /\ uid_timecode w' = uid_timecode w
          /\ save r w' = (Ok tt, w')).
Proof.
  intros Hr. split.
  - intros Hno. unfold save. rewrite bind_run, (get_entity_run _ _ _ Hr).
    cbv beta iota. destruct (c_store (e_class e)) as [sid|]; [|done].
    destruct Hno as [Hno|Hno]; [discriminate|]. by rewrite Hno.
  - intros sid key bd Hstore Hsav Htag Hkey Hser.
    rewrite (save_plain_run _ _ _ _ _ _ Hr Hstore Hsav Htag Hkey Hser).
    eexists. split; [reflexivity|].
    split.
    { rewrite store_of_set_heap, store_of_set_eq. unfold store_get, store_put.
      apply dict_get_set_eq. }
    split.
    { intros k Hk. rewrite store_of_set_heap, store_of_set_eq.
      unfold store_get, store_put. by apply dict_get_set_ne. }
    split.
    { intros sid' Hne. unfold store_of, set_store, set_heap. cbn [stores].
      by rewrite lookup_insert_ne. }
    split; [reflexivity|]. split; [reflexivity|]. split; [reflexivity|].
    set (e1 := with_dirty e false).
    set (w0 := set_store sid _ w).
    set (w1 := set_heap _ w0).
    assert (Hr1 : heap w1 !! r = Some e1).
    { unfold w1. cbn [heap set_heap]. apply list_lookup_insert_eq.
      by eapply lookup_lt_Some. }
    assert (Hkey1 : entity_key w1 e1 = Ok key).
    { by rewrite (entity_key_ext w w1 e e1). }
    assert (Hser1 : serialize (base_blob w1 e1) = Ok bd) by exact Hser.
    rewrite (save_plain_run r w1 e1 sid key bd Hr1 Hstore Hsav Htag Hkey1 Hser1).
    f_equal. unfold w1, w0, set_heap, set_store. cbn [heap classes stores uid_timecode timers_time].
    f_equal.
    + rewrite list_insert_insert_eq. done.
    + unfold store_of. cbn [stores]. rewrite lookup_insert_eq. cbn [default].
      rewrite insert_insert_eq. unfold store_put, entity_record.
      cbn [tags flags _uid e1 with_dirty id]. by rewrite dict_set_set.
Qed.

(** ** Construction from a record with an identifier *)

(** X22: an entity constructed from a record that names an identifier
    (other than [None]) takes that identifier, draws no identifier of
    its own (the counter stays where it was), and is entered in the
    instance table of its class under the identifier, at a new address:
    an instance registered under that identifier before is no longer
    the one the table answers with. *)
Theorem init_adopts_record_uid cls d act sav w r w1 u :
  dict_get "uid" d = Some (DVal u) -> u <> VNone ->
  Entity_init cls (Some d) act sav w = (Ok r, w1) ->
  r = length (heap w)
  /\ heap w !! r = None
  /\ uid_timecode w1 = uid_timecode w
  /\ dict_get u (_instances (class_state_of w1 cls)) = Some r
  /\ exists e1, heap w1 !! r = Some e1 /\ _uid e1 = u.
Proof.
  intros Hd Hu Hrun. unfold Entity_init in Hrun.
  rewrite bind_run in Hrun. unfold get_world at 1 in Hrun.
  cbv beta iota zeta in Hrun.
  rewrite bind_run in Hrun. unfold alloc at 1 in Hrun. cbv beta iota in Hrun.
  set (e0 := {| e_class := cls |}) in Hrun.
  set (w0 := set_heap (heap w ++ [e0]) w) in Hrun.
  apply bind_ok_inv in Hrun as ([] & w2 & Hcons & Hrun).
  apply bind_ok_inv in Hrun as ([] & w4 & Hreg & Hrun).
  injection Hrun as <- <-.
  set (r := length (heap w)) in *.
  assert (Hr0 : heap w0 !! r = Some e0).
  { unfold w0, r. simpl. by rewrite lookup_app_r, Nat.sub_diag. }
  unfold construct in Hcons.
  apply bind_ok_inv in Hcons as (checked & wb & Hbuild & Hcons).
  assert (Hshell : forall {T} (obs : world -> T),
             entity_blind r same_shell obs -> class_blind table_change obs ->
             obs wb = obs w0).
  { intros T obs Hent Hcls.
    by eapply (build_base_blob_keeps_shell obs r Hent Hcls). }
  assert (Hlb : length (heap wb) = length (heap w0)).
  { apply (Hshell _ (fun w => length (heap w)));
      [apply blind_length_entity | apply (blind_heap_class _ length)]. }
  destruct (heap wb !! r) as [eb|] eqn:Hrb.
  2:{ apply lookup_ge_None in Hrb. apply lookup_lt_Some in Hr0. lia. }
  assert (Htb : uid_timecode wb = uid_timecode w).
  { apply (Hshell _ uid_timecode); by intros ????. }
  apply bind_ok_inv in Hcons as ([] & w3 & Hdes & Hcons).
  destruct (entity_deserialize_shell _ _ _ _ _ Hrb Hdes)
    as (et & Hsf & Hut & _ & Hblob).
  set (wt := set_heap (<[r := et]> (heap wb)) wb) in *.
  assert (Hrt : heap wt !! r = Some et) by (by eapply heap_lookup_set).
  destruct (deserialize_spares _ _ _ _ _ _ Hblob)
    as (_ & _ & Htc3 & Hsh).
  destruct (Hsh _ Hrt) as (e3 & Hr3 & Hsh3).
  assert (Hu3 : _uid e3 = u).
  { destruct Hsh3 as [_ _ _ Hu3 _]. rewrite Hu3, Hut. unfold uid_of.
    by rewrite Hd. }
  rewrite bind_run, (get_entity_run _ _ _ Hr3) in Hcons.
  rewrite decide_False in Hcons by (by rewrite Hu3).
  injection Hcons as <-.
  destruct (register_instance_inv _ _ _ _ _ Hr3 Hreg)
    as (Hheap & _ & Htc4 & Hinst & _ & _).
  split; [done|].
  split; [by apply lookup_ge_None|].
  split; [by rewrite Htc4, Htc3|].
  split; [rewrite Hinst, Hu3; apply dict_get_set_eq|].
  exists e3. by rewrite Hheap.
Qed.

(** ** The manager's save sweep *)

#[global] Instance swept_preorder : PreOrder swept.
Proof.
  split.
  - intros w. by split.
  - intros w1 w2 w3 [Hc1 Hl1 Hk1] [Hc2 Hl2 Hk2]. split.
    + congruence.
    + congruence.
    + intros r e Hr Hclean. apply Hk2; [|done]. by apply Hk1.
Qed.

Section SaveKeeps.
Context {T : Type} (obs : world -> T) (r : nat).
Hypothesis Hent : entity_blind r same_identity obs.
Hypothesis Hst : store_blind obs.

Lemma entity_serialize_keeps : keeps (kept obs) (entity_serialize r).
Proof. unfold entity_serialize. repeat keeps_step. Qed.

Lemma update_store_keeps sid f : keeps (kept obs) (update_store sid f).
Proof. apply keeps_modify. intros w. apply Hst. Qed.

Lemma key_of_keeps' r' : keeps (kept obs) (key_of r').
Proof. unfold key_of. repeat keeps_step. Qed.

Lemma save_keeps : keeps (kept obs) (save r).
Proof.
  unfold save.
  repeat (first [ apply entity_serialize_keeps | apply update_store_keeps
                | apply key_of_keeps'
                | eapply keeps_update_entity; [exact Hent | by split]
                | keeps_step ]).
Qed.
End SaveKeeps.

Lemma save_other r r' w res w' :
  r' <> r -> save r w = (res, w') -> heap w' !! r' = heap w !! r'.
Proof.
  intros Hne Hrun.
  eapply (save_keeps (fun w => heap w !! r') r); [| |exact Hrun].
  - by apply blind_other_entity.
  - by intros ???.
Qed.

Lemma save_swept r w e res w' :
  heap w !! r = Some e -> is_savable e && is_dirty e = true ->
  save r w = (res, w') -> swept w w'.
Proof.
  intros Hr Hdirty Hrun. split.
  - eapply (save_keeps classes r); [| |exact Hrun].
    + apply (blind_classes_entity r _ id).
    + by intros ???.
  - eapply (save_keeps (fun w => length (heap w)) r); [| |exact Hrun].
    + apply blind_length_entity.
    + by intros ???.
  - intros r0 e0 Hr0 Hclean.
    rewrite (save_other r r0 _ _ _ ltac:(congruence) Hrun). exact Hr0.
Qed.

Lemma save_cleans r w e w' :
  heap w !! r = Some e -> is_savable e = true ->
  save r w = (Ok tt, w') ->
  exists e', heap w' !! r = Some e' /\ is_dirty e' = false.
Proof.
  intros Hr Hsav Hrun. unfold is_savable in Hsav. unfold save in Hrun.
  rewrite bind_run, (get_entity_run _ _ _ Hr) in Hrun.
  destruct (c_store (e_class e)) as [sid|]; [|discriminate].
  rewrite Hsav in Hrun. cbn [negb] in Hrun.
  apply bind_ok_inv in Hrun as ([] & w1 & _ & Hrun).
  apply bind_ok_inv in Hrun as (d & w2 & _ & Hrun).
  apply bind_ok_inv in Hrun as (key & w3 & _ & Hrun).
  apply bind_ok_inv in Hrun as ([] & w4 & _ & Hrun).
  unfold update_entity in Hrun.
  destruct (heap w4 !! r) as [e4|] eqn:Hr4; [|discriminate].
  injection Hrun as <-. exists (with_dirty e4 false). split; [|done].
  cbn [heap set_heap]. apply list_lookup_insert_eq. by eapply lookup_lt_Some.
Qed.

Lemma save_savable r w e res w' e' :
  heap w !! r = Some e -> save r w = (res, w') -> heap w' !! r = Some e' ->
  is_savable e' = is_savable e.
Proof.
  intros Hr Hrun Hr'.
  assert (H : is_savable <$> heap w' !! r = is_savable <$> heap w !! r).
  { eapply (save_keeps (fun w => is_savable <$> heap w !! r) r);
      [| |exact Hrun].
    - apply blind_field_entity. intros e1 e2 [Hc Hs _]. unfold is_savable.
      by rewrite Hc, Hs.
    - by intros ???. }
  rewrite Hr, Hr' in H. by injection H.
Qed.

Lemma save_instances_swept refs : forall count w res w',
  save_instances refs count w = (res, w') -> swept w w'.
Proof.
  induction refs as [|r refs IH]; intros count w res w' Hrun; simpl in Hrun.
  - injection Hrun as _ <-. reflexivity.
  - rewrite bind_run in Hrun. unfold get_entity at 1 in Hrun.
    destruct (heap w !! r) as [e|] eqn:Hr.
    2:{ injection Hrun as _ <-. reflexivity. }
    destruct (is_savable e && is_dirty e) eqn:Hd; [|by eapply IH].
    rewrite bind_run in Hrun.
    destruct (save r w) as [[[]|ex] w1] eqn:Hsave.
    + etransitivity; [by eapply save_swept | by eapply IH].
    + injection Hrun as _ <-. by eapply save_swept.
Qed.

Lemma save_instances_done refs : forall count w n w',
  save_instances refs count w = (Ok n, w') ->
  forall r, r ∈ refs ->
    exists e', heap w' !! r = Some e' /\ is_savable e' && is_dirty e' = false.
Proof.
  induction refs as [|r refs IH]; intros count w n w' Hrun r0 Hin;
    simpl in Hrun.
  - by apply elem_of_nil in Hin.
  - rewrite bind_run in Hrun. unfold get_entity at 1 in Hrun.
    destruct (heap w !! r) as [e|] eqn:Hr; [|discriminate].
    destruct (is_savable e && is_dirty e) eqn:Hd.
    + rewrite bind_run in Hrun.
      destruct (save r w) as [[[]|ex] w1] eqn:Hsave; [|discriminate].
      apply elem_of_cons in Hin as [->|Hin]; [|by eapply IH].
      apply andb_true_iff in Hd as [Hsav _].
      destruct (save_cleans _ _ _ _ Hr Hsav Hsave) as (e1 & Hr1 & Hc1).
      exists e1. split; [|by rewrite Hc1, andb_false_r].
      apply (swept_clean _ _ (save_instances_swept _ _ _ _ _ Hrun));
        [done | by rewrite Hc1, andb_false_r].
    + apply elem_of_cons in Hin as [->|Hin]; [|by eapply IH].
      exists e. split; [|done].
      by apply (swept_clean _ _ (save_instances_swept _ _ _ _ _ Hrun)).
Qed.

Lemma class_state_of_classes w w' c :
  classes w' = classes w -> class_state_of w' c = class_state_of w c.
Proof. intros H. unfold class_state_of. by rewrite H. Qed.

Lemma save_entities_swept entities : forall count w res w',
  save_entities entities count w = (res, w') -> swept w w'.
Proof.
  induction entities as [|cls entities IH]; intros count w res w' Hrun;
    simpl in Hrun.
  - injection Hrun as _ <-. reflexivity.
  - rewrite bind_run in Hrun. unfold get_world at 1 in Hrun.
    cbv beta iota in Hrun. rewrite bind_run in Hrun.
    destruct (save_instances _ count w) as [[n|ex] w1] eqn:Hinst.
    + etransitivity; [by eapply save_instances_swept | by eapply IH].
    + injection Hrun as _ <-. by eapply save_instances_swept.
Qed.

Lemma save_entities_done entities : forall count w n w',
  save_entities entities count w = (Ok n, w') ->
  forall cls r, cls ∈ entities ->
    r ∈ dict_values (_instances (class_state_of w cls)) ->
    exists e', heap w' !! r = Some e' /\ is_savable e' && is_dirty e' = false.
Proof.
  induction entities as [|c entities IH]; intros count w n w' Hrun cls r Hcls Hr;
    simpl in Hrun.
  - by apply elem_of_nil in Hcls.
  - rewrite bind_run in Hrun. unfold get_world at 1 in Hrun.
    cbv beta iota in Hrun. rewrite bind_run in Hrun.
    destruct (save_instances _ count w) as [[n1|ex] w1] eqn:Hinst;
      [|discriminate].
    pose proof (save_instances_swept _ _ _ _ _ Hinst) as Hsw1.
    apply elem_of_cons in Hcls as [->|Hcls].
    + destruct (save_instances_done _ _ _ _ _ Hinst r Hr) as (e1 & Hr1 & Hc1).
      exists e1. split; [|done].
      by apply (swept_clean _ _ (save_entities_swept _ _ _ _ _ Hrun)).
    + apply (IH _ _ _ _ Hrun cls r Hcls).
      by rewrite (class_state_of_classes w w1 cls (swept_classes _ _ Hsw1)).
Qed.

(** X23: [EntityManager.save], whether it returns or an entity's save
    raises on the way, changes no class and leaves every entity that
    was clean or not savable exactly as it was; when it returns, no
    instance registered with a managed class is left both savable and
    dirty. *)
Theorem manager_save_sweep entities w res w' :
  EntityManager_save entities w = (res, w') ->
  classes w' = classes w
  /\ length (heap w') = length (heap w)
  /\ (forall r e, heap w !! r = Some e ->
        is_savable e && is_dirty e = false -> heap w' !! r = Some e)
  /\ (res = Ok tt ->
      forall cls r, cls ∈ dict_values entities ->
        r ∈ dict_values (_instances (class_state_of w cls)) ->
        exists e', heap w' !! r = Some e'
                   /\ is_savable e' && is_dirty e' = false).
Proof.
  intros Hrun. unfold EntityManager_save in Hrun. rewrite bind_run in Hrun.
  destruct (save_entities (dict_values entities) 0 w) as [[n|ex] w1] eqn:Hsw.
  - injection Hrun as <- <-.
    destruct (save_entities_swept _ _ _ _ _ Hsw) as [Hc Hl Hk].
    split; [done|]. split; [done|]. split; [done|].
    intros _ cls r Hcls Hr. by eapply save_entities_done.
  - injection Hrun as <- <-.
    destruct (save_entities_swept _ _ _ _ _ Hsw) as [Hc Hl Hk].
    split; [done|]. split; [done|]. split; [done|]. discriminate.
Qed.

(** ** Active instances; the command manager *)

Lemma active_instances_spec w refs : forall l,
  active_instances w refs = Ok l ->
  forall r, r ∈ l <-> r ∈ refs /\ exists e, heap w !! r = Some e
                                          /\ active e = true.
Proof.
  induction refs as [|r0 refs IH]; intros l Hrun r; simpl in Hrun.
  - injection Hrun as <-. split.
    + intros H. by apply elem_of_nil in H.
    + intros [H _]. by apply elem_of_nil in H.
  - destruct (heap w !! r0) as [e0|] eqn:Hr0; [|discriminate].
    destruct (active_instances w refs) as [l0|] eqn:Hl0; [|discriminate].
    injection Hrun as <-. specialize (IH l0 eq_refl r).
    destruct (active e0) eqn:Hact.
    + rewrite !elem_of_cons, IH. split.
      * intros [->|[Hin He]]; [split; [by left | by exists e0] |].
        split; [by right | done].
      * intros [[->|Hin] He]; [by left | right; by split].
    + rewrite elem_of_cons, IH. split.
      * intros [Hin He]. split; [by right | done].
      * intros [[->|Hin] (e & He & Ha)]; [|split; [done | by exists e]].
        rewrite Hr0 in He. injection He as <-. congruence.
Qed.

Lemma dict_values_get {K V} `{EqDecision K} (k : K) (v : V) d :
  dict_get k d = Some v -> v ∈ dict_values d.
Proof.
  induction d as [|[k' v'] d IH]; simpl; [done|].
  unfold dict_values. simpl. fold (dict_values d).
  destruct (decide (k = k')).
  - intros [= ->]. by left.
  - intros H. right. by apply IH.
Qed.

(** X24: [Entity.all] reads without changing anything and returns
    exactly the registered instances of the class that are active; an
    entity just constructed is among them if and only if it was
    constructed active, which [Entity.__init__] does not do unless it
    is asked to. *)
Theorem all_lists_active cls w l w' :
  Entity_all cls w = (Ok l, w') ->
  w' = w
  /\ (forall r, r ∈ l <->
        r ∈ dict_values (_instances (class_state_of w cls))
        /\ exists e, heap w !! r = Some e /\ active e = true)
  /\ (forall d act sav w0 r0,
        Entity_init cls d act sav w0 = (Ok r0, w) ->
        (r0 ∈ l <-> act = true)).
Proof.
  intros Hrun. unfold Entity_all in Hrun. rewrite bind_run in Hrun.
  unfold get_world, lift in Hrun. cbv beta iota in Hrun.
  destruct (active_instances w _) as [l0|] eqn:Hl; [|discriminate].
  injection Hrun as <- <-.
  pose proof (active_instances_spec _ _ _ Hl) as Hspec.
  split; [done|]. split; [exact Hspec|].
  intros d act sav w0 r0 Hinit.
  destruct (Entity_init_inv _ _ _ _ _ _ _ Hinit)
    as (_ & _ & _ & _ & _ & e1 & Hr1 & _ & _ & Hact & Hinst).
  rewrite Hspec. split.
  - intros (_ & e & He & Ha). rewrite Hr1 in He. injection He as <-.
    congruence.
  - intros ->. split; [by eapply dict_values_get|]. by exists e1.
Qed.

(** X25: a successful [CommandManager.register] files the class under
    its name: the manager then contains it and returns it, asked with
    the class or with its name, and answers for every other name as
    before.  The manager knows a command by its name only: asked with
    another class of that name it answers with the registered one, and
    it refuses to register a second class of that name with
    [AlreadyExists]. *)
Theorem command_register_lookup commands c commands' :
  CommandManager_register commands (CommandClass c) = Ok commands' ->
  issubclass c Command = true
  /\ CommandManager_contains commands (CommandClass c) = false
  /\ (forall ref, _get_name ref = c_name c ->
        CommandManager_contains commands' ref = true
        /\ CommandManager_getitem commands' ref = Ok c
        /\ CommandManager_register commands' ref
           = Raise (match ref with
                    | CommandClass c' =>
                        if issubclass c' Command then AlreadyExists
                        else TypeError
                    | CommandName _ => TypeError
                    end))
  /\ (forall ref, _get_name ref <> c_name c ->
        CommandManager_contains commands' ref
        = CommandManager_contains commands ref
        /\ CommandManager_getitem commands' ref
           = CommandManager_getitem commands ref).
Proof.
  unfold CommandManager_register.
  destruct (issubclass c Command) eqn:Hsub; [|discriminate]. cbn [negb].
  destruct (dict_has (c_name c) commands) eqn:Hhas; [discriminate|].
  intros [= <-]. split; [done|]. split; [exact Hhas|]. split.
  - intros ref Hname.
    unfold CommandManager_contains, CommandManager_getitem.
    rewrite Hname, dict_has_set_eq, dict_get_set_eq.
    split; [done|]. split; [done|].
    destruct ref as [c'|s]; [|done]. simpl in Hname.
    destruct (issubclass c' Command); [|done]. cbn [negb].
    by rewrite Hname, dict_has_set_eq.
  - intros ref Hname.
    unfold CommandManager_contains, CommandManager_getitem, dict_has.
    by rewrite dict_get_set_ne.
Qed.

(** ** Loading from the store *)

Lemma Entity_init_record_uid cls d act sav w r w1 u :
  dict_get "uid" d = Some (DVal u) -> u <> VNone ->
  Entity_init cls (Some d) act sav w = (Ok r, w1) ->
  uid_timecode w1 = uid_timecode w
  /\ exists e1, heap w1 !! r = Some e1 /\ _uid e1 = u.
Proof.
  intros Hd Hu Hrun. unfold Entity_init in Hrun.
  rewrite bind_run in Hrun. unfold get_world at 1 in Hrun.
  cbv beta iota zeta in Hrun.
  rewrite bind_run in Hrun. unfold alloc at 1 in Hrun. cbv beta iota in Hrun.
  set (e0 := {| e_class := cls |}) in Hrun.
  set (w0 := set_heap (heap w ++ [e0]) w) in Hrun.
  apply bind_ok_inv in Hrun as ([] & w2 & Hcons & Hrun).
  apply bind_ok_inv in Hrun as ([] & w4 & Hreg & Hrun).
  injection Hrun as <- <-.
  set (r := length (heap w)) in *.
  assert (Hr0 : heap w0 !! r = Some e0).
  { unfold w0, r. simpl. by rewrite lookup_app_r, Nat.sub_diag. }
  unfold construct in Hcons.
  apply bind_ok_inv in Hcons as (checked & wb & Hbuild & Hcons).
  assert (Hshell : forall {T} (obs : world -> T),
             entity_blind r same_shell obs -> class_blind table_change obs ->
             obs wb = obs w0).
  { intros T obs Hent Hcls.
    by eapply (build_base_blob_keeps_shell obs r Hent Hcls). }
  assert (Hlb : length (heap wb) = length (heap w0)).
  { apply (Hshell _ (fun w => length (heap w)));
      [apply blind_length_entity | apply (blind_heap_class _ length)]. }
  destruct (heap wb !! r) as [eb|] eqn:Hrb.
  2:{ apply lookup_ge_None in Hrb. apply lookup_lt_Some in Hr0. lia. }
  assert (Htb : uid_timecode wb = uid_timecode w).
  { apply (Hshell _ uid_timecode); by intros ????. }
  apply bind_ok_inv in Hcons as ([] & w3 & Hdes & Hcons).
  destruct (entity_deserialize_shell _ _ _ _ _ Hrb Hdes)
    as (et & Hsf & Hut & _ & Hblob).
  set (wt := set_heap (<[r := et]> (heap wb)) wb) in *.
  assert (Hrt : heap wt !! r = Some et) by (by eapply heap_lookup_set).
  destruct (deserialize_spares _ _ _ _ _ _ Hblob) as (_ & _ & Htc3 & Hsh).
  destruct (Hsh _ Hrt) as (e3 & Hr3 & Hsh3).
  assert (Hu3 : _uid e3 = u).
  { destruct Hsh3 as [_ _ _ Hu3 _]. rewrite Hu3, Hut. unfold uid_of.
    by rewrite Hd. }
  rewrite bind_run, (get_entity_run _ _ _ Hr3) in Hcons.
  rewrite decide_False in Hcons by (by rewrite Hu3).
  injection Hcons as <-.
  destruct (register_instance_inv _ _ _ _ _ Hr3 Hreg)
    as (Hheap & _ & Htc4 & _ & _ & _).
  split.
  { rewrite Htc4, Htc3. exact Htb. }
  exists e3. by rewrite Hheap.
Qed.

Lemma load_finish_tables cls key r w w' res :
  (w0 ← get_world;
   match key_cache w0 cls with
   | Some cache =>
       if lru_contains key cache then mret tt
       else update_cache cls (get_key_name cls) (lru_set key r)
   | None => mret tt
   end;;
   mret (LoadedEntity r)) w = (res, w') ->
  uid_timecode w' = uid_timecode w
  /\ (forall c, cs_attrs (class_state_of w' c) = cs_attrs (class_state_of w c)).
Proof.
  rewrite bind_run. unfold get_world at 1. cbv beta iota.
  destruct (key_cache w cls) as [cache|]; [|by intros [= _ <-]].
  destruct (lru_contains key cache); [by intros [= _ <-]|].
  rewrite bind_run. unfold update_cache, update_class, modify. cbv beta iota.
  intros [= _ <-]. split; [done|]. intros c.
  apply (blind_table_class cache_change cs_attrs c); [done | by intros ?? [] |].
  apply cache_change_relocate.
Qed.

Lemma fresh_blob_eq cls w eb :
  heap (fresh_world cls false true w) !! length (heap w) = Some eb ->
  fresh_blob cls w = base_blob (fresh_world cls false true w) eb.
Proof.
  intros Hrb. unfold fresh_blob. cbv zeta. unfold entity_at. by rewrite Hrb.
Qed.

(** C6: [load] with the cache permitted returns the instance registered
    under the identifier, else the one the key cache holds, else the
    first live instance with that key, and leaves every object and the
    store as they are; when the cache is not permitted, or holds
    nothing, a non-empty store record is materialized as a new object:
    its fields are those of a new instance with the record read into
    them, its identifier is the one the record names (and then none is
    drawn), its dirty flag is cleared and it is registered under its
    identifier, whatever instances exist already, while the stores stay
    as they are; and when there is no record either, the default is
    returned, or raised if it is an exception. *)
Theorem load_behaviour :
  (forall cls key default w r,
      get_key_name cls = "uid" ->
      dict_get key (_instances (class_state_of w cls)) = Some r ->
      exists w',
        load cls key true default w = (Ok (LoadedEntity r), w')
        /\ heap w' = heap w /\ stores w' = stores w)
  /\ (forall cls key default w cache r,
         (get_key_name cls = "uid" ->
          dict_get key (_instances (class_state_of w cls)) = None) ->
         key_cache w cls = Some cache -> lru_peek key cache = Some r ->
         exists w',
           load cls key true default w = (Ok (LoadedEntity r), w')
           /\ heap w' = heap w /\ stores w' = stores w)
  /\ (forall cls key default w r,
         get_key_name cls <> "uid" ->
         (forall cache, key_cache w cls = Some cache ->
                        lru_peek key cache = None) ->
         first_with_key w key (dict_values (_instances (class_state_of w cls)))
         = Ok (Some r) ->
         exists w',
           load cls key true default w = (Ok (LoadedEntity r), w')
           /\ heap w' = heap w /\ stores w' = stores w)
  /\ (forall cls key from_cache default w sid d r w1,
         from_cache = false \/ no_instance w cls key ->
         c_store cls = Some sid ->
         store_get key (store_of w sid) = Some d -> d <> [] ->
         Entity_init cls (Some d) false true w = (Ok r, w1) ->
         exists w' e',
           load cls key from_cache default w = (Ok (LoadedEntity r), w')
           /\ r = length (heap w)
           /\ heap w' !! r = Some e'
           /\ e_class e' = cls
           /\ _dirty e' = false
           /\ dict_get (_uid e') (_instances (class_state_of w' cls)) = Some r
           /\ (forall r', (r' < length (heap w))%nat ->
                          heap w' !! r' = heap w !! r')
           /\ load_record (blob_record d) (fresh_blob cls w)
              = Some (base_blob w' e')
           /\ (forall u, dict_get "uid" d = Some (DVal u) -> u <> VNone ->
                  _uid e' = u /\ uid_timecode w' = uid_timecode w)
           /\ stores w' = stores w)
  /\ (forall cls key from_cache default w,
         from_cache = false \/ no_instance w cls key ->
         match c_store cls with
         | None => True
         | Some sid => store_get key (store_of w sid) = None
                       \/ store_get key (store_of w sid) = Some []
         end ->
         load cls key from_cache default w
         = (match default with
            | DefaultExn e => Raise e
            | DefaultValue v => Ok (LoadedDefault v)
            end, w)).
Proof.
  split; [|split; [|split; [|split]]].
  - intros cls key default w r Hk Hinst.
    destruct (load_found cls key true default w r w) as (w' & Hrun & Hh & Hs & _).
    { unfold load_find.
      rewrite bind_run. unfold get_world at 1. cbv beta iota zeta.
      rewrite decide_True by done. by rewrite Hinst. }
    by exists w'.
  - intros cls key default w cache r Huid Hcache Hpeek.
    edestruct (load_found cls key true default w r) as (w' & Hrun & Hh & Hs & _).
    { unfold load_find.
      rewrite bind_run. unfold get_world at 1. cbv beta iota zeta.
      assert (Hmiss : (if decide (get_key_name cls = "uid")
                       then dict_get key (_instances (class_state_of w cls))
                       else None) = None).
      { destruct (decide _); [by apply Huid | done]. }
      rewrite Hmiss, Hcache, Hpeek. rewrite bind_run.
      unfold update_cache at 1, update_class, modify. cbv beta iota.
      reflexivity. }
    by exists w'.
  - intros cls key default w r Hk Hcache Hscan.
    destruct (load_found cls key true default w r w) as (w' & Hrun & Hh & Hs & _).
    { unfold load_find.
      rewrite bind_run. unfold get_world at 1. cbv beta iota zeta.
      rewrite decide_False by done.
      assert (Hmiss : match key_cache w cls with
                      | Some cache => match lru_peek key cache with
                                      | Some r => Some (r, cache) | None => None end
                      | None => None end = None).
      { destruct (key_cache w cls) as [cache|]; [by rewrite (Hcache _ eq_refl) | done]. }
      rewrite Hmiss. rewrite bind_run. rewrite decide_False by done.
      unfold lift at 1. by rewrite Hscan. }
    by exists w'.
  - intros cls key from_cache default w sid d r w1 Hfc Hstore Hget Hd Hinit.
    destruct (Entity_init_inv _ _ _ _ _ _ _ Hinit)
      as (-> & Hlen & Hold & Hst & Hdict & e1 & Hr1 & Hcls & Hsav & Hact & Hinst).
    destruct (Entity_init_data_inv _ _ _ _ _ _ _ Hinit)
      as (eb & e1' & Hrb & _ & _ & Hr1' & Hload & _).
    rewrite Hr1 in Hr1'. injection Hr1' as <-.
    rewrite <- (fresh_blob_eq _ _ _ Hrb) in Hload.
    destruct d as [|kx d]; [done|].
    set (w2 := set_heap (<[length (heap w) := with_dirty e1 false]> (heap w1))
                        w1).
    assert (Hfind : load_find cls key from_cache w
                    = (Ok (Some (length (heap w))), w2)).
    { rewrite (load_find_store _ _ _ _ Hfc).
      unfold load_from_store. rewrite Hstore.
      rewrite bind_run. unfold get_world at 1. cbv beta iota. rewrite Hget.
      cbv beta iota zeta. rewrite bind_run, Hinit.
      rewrite bind_run. unfold set_dirty_flag.
      rewrite (update_entity_run _ _ _ _ Hr1). reflexivity. }
    destruct (load_found cls key from_cache default w (length (heap w)) w2
                Hfind) as (w' & Hrun & Hheap & Hst' & Hinst').
    assert (Htab : uid_timecode w' = uid_timecode w2
                   /\ forall c, cs_attrs (class_state_of w' c)
                                = cs_attrs (class_state_of w2 c)).
    { unfold load in Hrun. rewrite bind_run, Hfind in Hrun.
      by eapply load_finish_tables. }
    destruct Htab as [Htc Hattrs].
    exists w', (with_dirty e1 false). split; [done|].
    split; [done|]. rewrite Hheap.
    split; [by eapply heap_lookup_set|]. split; [done|]. split; [done|].
    split; [rewrite Hinst'; exact Hinst|].
    split.
    { intros r' Hlt. simpl.
      rewrite list_lookup_insert_ne by lia. by apply Hold. }
    split.
    { rewrite Hload. f_equal. unfold base_blob. cbn [e_class e_values e_blobs with_dirty].
      by rewrite Hattrs. }
    split; [|by rewrite Hst'].
    intros u Hu Hne.
    destruct (Entity_init_record_uid _ _ _ _ _ _ _ _ Hu Hne Hinit)
      as (Htc1 & e1' & Hr1' & Huid).
    rewrite Hr1 in Hr1'. injection Hr1' as <-.
    split; [exact Huid|]. by rewrite Htc.
  - intros cls key from_cache default w Hfc Hnone.
    unfold load. rewrite bind_run, (load_find_store _ _ _ _ Hfc).
    unfold load_from_store. destruct (c_store cls) as [sid|].
    + rewrite bind_run. unfold get_world at 1. cbv beta iota.
      destruct Hnone as [->| ->]; by destruct default.
    + by destruct default.
Qed.

(** * Instances of the theorems *)


(** C2: two requests with clock readings a hundredth of a millisecond
    apart, 1700000000.00001 s and 1700000000.00002 s: the second
    candidate, 17000000000000.2, exceeds the counter, 17000000000000.1,
    and is adopted; the counters differ and the two identifiers are the
    same. *)
Theorem make_uid_fractional_collision :
  let calls := [((170000000000001 # 100000)%Q, Entity);
                ((170000000000002 # 100000)%Q, Entity)] in
  exists c1 c2 uid1 uid2 w',
    make_uids calls booted = (Ok [(c1, uid1); (c2, uid2)], w')
    /\ (c1 == 170000000000001 # 10)%Q /\ (c2 == 170000000000002 # 10)%Q
    /\ (c1 < c2)%Q
    /\ whole_part c1 = 17000000000000 /\ whole_part c2 = 17000000000000
    /\ uid1 = uid2
    /\ ~ List.NoDup [uid1; uid2].
Proof.
  intros calls. eexists _, _, _, _, _.
  split; [vm_compute; reflexivity|].
  split; [vm_compute; reflexivity|].
  split; [vm_compute; reflexivity|].
  split; [vm_compute; reflexivity|].
  split; [vm_compute; reflexivity|].
  split; [vm_compute; reflexivity|].
  split; [reflexivity|].
  intros Hnd. apply List.NoDup_cons_iff in Hnd as [Hin _]. apply Hin.
  left. reflexivity.
Qed.

(** C1: once the key has changed twice since the last save, the next
    save does not delete the stale record.  The entity saved under "A"
    is renamed to "B" and then to "C": the second write replaces the
    noted key "A" by "B", and the save leaves the record under "A"
    beside the new one.  For a key made of three fields one assignment
    to the key is three writes: the entity saved at "1,2,3" and moved
    to "4,5,6" is tagged "4,5,3", and its save leaves the record at
    "1,2,3". *)
Theorem key_change_twice_keeps_stale_record :
  (let w := twice_renamed_world in
   let w' := state_after (save 0) w in
   store_keys (store_of named_world 1) = [VStr "A"]
   /\ entity_key w (entity_at w 0) = Ok (VStr "C")
   /\ dict_get "_old_key" (tags (entity_at w 0)) = Some (VStr "B")
   /\ save 0 w = (Ok tt, w')
   /\ store_keys (store_of w' 1) = [VStr "A"; VStr "C"])
  /\ (let w := moved_world in
      let w' := state_after (save 0) w in
      store_keys (store_of grid_world 2) = [VStr "1,2,3"]
      /\ set_key 0 (VStr "4,5,6") grid_world = (Ok tt, w)
      /\ entity_key w (entity_at w 0) = Ok (VStr "4,5,6")
      /\ dict_get "_old_key" (tags (entity_at w 0)) = Some (VStr "4,5,3")
      /\ save 0 w = (Ok tt, w')
      /\ store_keys (store_of w' 2) = [VStr "1,2,3"; VStr "4,5,6"]).
Proof.
  split.
  - intros w w'.
    split; [vm_compute; reflexivity|]. split; [vm_compute; reflexivity|].
    split; [vm_compute; reflexivity|]. split; [vm_compute; reflexivity|].
    vm_compute; reflexivity.
  - intros w w'.
    split; [vm_compute; reflexivity|]. split; [vm_compute; reflexivity|].
    split; [vm_compute; reflexivity|]. split; [vm_compute; reflexivity|].
    split; [vm_compute; reflexivity|]. vm_compute; reflexivity.
Qed.

Lemma set_attr_val_validation_error_witness :
  heap named_world !! 0%nat = Some (entity_at named_world 0)
  /\ _validate NameAttribute (VInt 7)
               (getattr_field named_world (entity_at named_world 0))
     = Raise ValueError
  /\ _set_attr_val 0 [] "name" (VInt 7) true false named_world
     = (Raise ValueError, named_world).
Proof.
  split; [vm_compute; reflexivity|]. split; [vm_compute; reflexivity|].
  apply (set_attr_val_validation_error 0 [] "name" (VInt 7) false named_world
           (entity_at named_world 0)
           (base_blob named_world (entity_at named_world 0))
           NameAttribute ValueError).
  - vm_compute; reflexivity.
  - vm_compute; reflexivity.
  - vm_compute; reflexivity.
  - discriminate.
  - vm_compute; reflexivity.
Defined.

Lemma registration_collisions_witness :
  register [("Entity", Entity)] Entity = Raise AlreadyExists
  /\ register [("Entity", Entity)]
              (PyClass 10 "Other" true "E" (KeyName "uid") None [Entity])
     = Raise KeyError
  /\ register_attr Named "name" NameAttribute named_class_world
     = (Raise AlreadyExists, named_class_world).
Proof.
  destruct registration_collisions as (Hname & Hcode & Hattr).
  split; [|split].
  - apply (Hname [("Entity", Entity)] Entity); vm_compute; reflexivity.
  - apply (Hcode [("Entity", Entity)]
                 (PyClass 10 "Other" true "E" (KeyName "uid") None [Entity])
                 Entity "Entity"); vm_compute; reflexivity.
  - apply (Hattr Named "name" NameAttribute NameAttribute booted
                 named_class_world).
    vm_compute; reflexivity.
Defined.


Lemma load_behaviour_witness :
  (exists w',
      load SomeEntity (VStr "S-1") true (DefaultExn KeyError) some_world
      = (Ok (LoadedEntity 0), w')
      /\ heap w' = heap some_world /\ stores w' = stores some_world)
  /\ (exists w',
         load Named (VStr "A") true (DefaultExn KeyError) named_world
         = (Ok (LoadedEntity 0), w')
         /\ heap w' = heap named_world /\ stores w' = stores named_world)
  /\ (exists w',
         load Named (VStr "A") true (DefaultExn KeyError) named_uncached
         = (Ok (LoadedEntity 0), w')
         /\ heap w' = heap named_uncached
         /\ stores w' = stores named_uncached)
  /\ (exists w' e',
         load Named (VStr "A") false (DefaultExn KeyError) named_world
         = (Ok (LoadedEntity 1), w')
         /\ 1%nat = length (heap named_world)
         /\ heap w' !! 1%nat = Some e'
         /\ e_class e' = Named
         /\ _dirty e' = false
         /\ dict_get (_uid e') (_instances (class_state_of w' Named))
            = Some 1%nat
         /\ (forall r', (r' < length (heap named_world))%nat ->
                        heap w' !! r' = heap named_world !! r')
         /\ e_values e' = [("name", VStr "A"); ("version", VInt 1)]
         /\ _uid e' = VStr "N-1"
         /\ uid_timecode w' = uid_timecode named_world
         /\ stores w' = stores named_world)
  /\ load SomeEntity (VStr "S-9") false (DefaultValue VNone) some_world
     = (Ok (LoadedDefault VNone), some_world).
Proof.
  destruct load_behaviour as (Huid & Hcache & Hscan & Hstore & Hnone).
  split; [|split; [|split; [|split]]].
  - apply (Huid SomeEntity (VStr "S-1") (DefaultExn KeyError) some_world 0%nat);
      vm_compute; reflexivity.
  - apply (Hcache Named (VStr "A") (DefaultExn KeyError) named_world
                  (lru_set (VStr "A") 0 (lru_new 512)) 0%nat).
    + intros H. vm_compute in H. discriminate.
    + vm_compute; reflexivity.
    + vm_compute; reflexivity.
  - apply (Hscan Named (VStr "A") (DefaultExn KeyError) named_uncached 0%nat).
    + vm_compute. discriminate.
    + intros cache H. vm_compute in H. injection H as <-. reflexivity.
    + vm_compute; reflexivity.
  - set (d := [("name", DVal (VStr "A")); ("version", DVal (VInt 1));
               ("uid", DVal (VStr "N-1")); ("flags", DFlags []);
               ("tags", DDict [])]).
    assert (H1 : c_store Named = Some 1%nat) by reflexivity.
    assert (H2 : store_get (VStr "A") (store_of named_world 1) = Some d)
      by (vm_compute; reflexivity).
    assert (H3 : d <> []) by discriminate.
    assert (Hv : b_values <$> load_record (blob_record d)
                                          (fresh_blob Named named_world)
                 = Some [("name", VStr "A"); ("version", VInt 1)])
      by (vm_compute; reflexivity).
    assert (H4 : Entity_init Named (Some d) false true named_world
                 = (Ok 1%nat,
                    state_after (Entity_init Named (Some d) false true)
                                named_world))
      by (vm_compute; reflexivity).
    destruct (Hstore Named (VStr "A") false (DefaultExn KeyError)
                     named_world 1%nat d 1%nat _ (or_introl eq_refl)
                     H1 H2 H3 H4)
      as (w' & e' & Hrun & Hlen & Hr & Hcls & Hclean & Hreg & Hold & Hload
          & Hrec & Hst).
    assert (Hne : VStr "N-1" <> VNone) by discriminate.
    destruct (Hrec (VStr "N-1") eq_refl Hne) as [Hu Htc].
    rewrite Hload in Hv. apply (inj Some) in Hv.
    exists w', e'.
    split; [exact Hrun|]. split; [exact Hlen|]. split; [exact Hr|].
    split; [exact Hcls|]. split; [exact Hclean|]. split; [exact Hreg|].
    split; [exact Hold|]. split; [exact Hv|]. split; [exact Hu|].
    split; [exact Htc | exact Hst].
  - apply (Hnone SomeEntity (VStr "S-9") false (DefaultValue VNone) some_world).
    + by left.
    + left. vm_compute; reflexivity.
Defined.

(** C3 as stated fails for a descriptor whose hooks are not inverse:
    a fresh [Counter] holds 1, is stored as 2 and read back as 2. *)
Lemma round_trip_counterexample :
  let fresh := Entity_init Counter None false true in
  let w1 := state_after fresh counter_world in
  let w2 := state_after fresh w1 in
  let e1 := entity_at w1 0 in
  let d := [("n", DVal (VInt 2)); ("version", DVal (VInt 1))] in
  let w3 := state_after (deserialize 1 [] d) w2 in
  fresh counter_world = (Ok 0%nat, w1)
  /\ fresh w1 = (Ok 1%nat, w2)
  /\ heap w1 !! 0%nat = Some e1
  /\ b_attrs (base_blob w2 (entity_at w2 1)) = b_attrs (base_blob w1 e1)
  /\ serialize (base_blob w1 e1) = Ok d
  /\ deserialize 1 [] d w2 = (Ok tt, w3)
  /\ dict_get "n" (e_values e1) = Some (VInt 1)
  /\ dict_get "n" (e_values (entity_at w3 1)) = Some (VInt 2)
  /\ e_values (entity_at w3 1) <> e_values e1.
Proof.
  intros fresh w1 w2 e1 d w3.
  split; [vm_compute; reflexivity|].
  split; [vm_compute; reflexivity|].
  split; [vm_compute; reflexivity|].
  split; [vm_compute; reflexivity|].
  split; [vm_compute; reflexivity|].
  split; [vm_compute; reflexivity|].
  split; [vm_compute; reflexivity|].
  split; [vm_compute; reflexivity|].
  vm_compute. discriminate.
Qed.

Lemma serialize_deserialize_round_trip_witness :
  let fresh := Entity_init Named None false true in
  let w1 := state_after fresh named_class_world in
  let w2 := state_after fresh w1 in
  let e1 := entity_at w1 0 in
  fresh named_class_world = (Ok 0%nat, w1)
  /\ dict_get "name" (e_values e1) = Some Unset
  /\ exists d w3 e3,
       serialize (base_blob w1 e1) = Ok d
       /\ deserialize 1 [] d w2 = (Ok tt, w3)
       /\ heap w3 !! 1%nat = Some e3
       /\ base_blob w3 e3 = base_blob w1 e1
       /\ dict_get "name" d = Some (DVal Unset)
       /\ dict_get "name" (e_values e3) = Some Unset.
Proof.
  intros fresh w1 w2 e1.
  assert (Hsound : sound (base_blob w1 e1)).
  { replace (base_blob w1 e1)
      with (Blob [("name", NameAttribute); ("version", EntityVersion)]
                 [("name", Unset); ("version", VInt 1)] [])
      by (vm_compute; reflexivity).
    constructor.
    - apply (bool_decide_unpack (NoDup ["name"; "version"])).
      vm_compute. reflexivity.
    - constructor.
    - intros k _. apply not_elem_of_nil.
    - intros k a Hin.
      apply elem_of_cons in Hin as [Heq|Hin].
      { injection Heq as -> ->. intros H. exfalso. apply H. reflexivity. }
      apply elem_of_cons in Hin as [Heq|Hin].
      { injection Heq as -> ->. intros _. vm_compute.
        split; [discriminate | reflexivity]. }
      apply elem_of_nil in Hin. contradiction.
    - constructor. }
  assert (Hschema : same_schema (base_blob w2 (entity_at w2 1))
                                (base_blob w1 e1)).
  { replace (base_blob w1 e1)
      with (Blob [("name", NameAttribute); ("version", EntityVersion)]
                 [("name", Unset); ("version", VInt 1)] [])
      by (vm_compute; reflexivity).
    replace (base_blob w2 (entity_at w2 1))
      with (Blob [("name", NameAttribute); ("version", EntityVersion)]
                 [("name", Unset); ("version", VInt 1)] [])
      by (vm_compute; reflexivity).
    constructor; [reflexivity | constructor]. }
  assert (Hkey : key_total w2 (entity_at w2 1)).
  { intros values blobs. eexists. vm_compute. reflexivity. }
  assert (Hinit : fresh named_class_world = (Ok 0%nat, w1))
    by (vm_compute; reflexivity).
  assert (Hname : dict_get "name" (e_values e1) = Some Unset)
    by (vm_compute; reflexivity).
  assert (Hr1 : heap w1 !! 0%nat = Some e1) by (vm_compute; reflexivity).
  assert (Hr2 : heap w2 !! 1%nat = Some (entity_at w2 1))
    by (vm_compute; reflexivity).
  split; [exact Hinit|]. split; [exact Hname|].
  destruct (serialize_deserialize_round_trip
              Named false true named_class_world 0%nat w1 e1 1%nat w2
              (entity_at w2 1) Hinit Hr1 Hsound Hr2 Hschema Hkey)
    as (d & w3 & e3 & Hd & Hrun & Hr3 & Hb3 & Hunset & _).
  exists d, w3, e3.
  split; [exact Hd|]. split; [exact Hrun|]. split; [exact Hr3|].
  split; [exact Hb3|]. exact (Hunset "name" Hname).
Defined.

(** With a key made of three fields the setter writes them one after
    the other and each write notes the key before it: the clone of the
    [Grid] entity at "1,2,3" to "5,6,7" is tagged with "5,6,3", and its
    save leaves the record at "1,2,3" in the store. *)
Lemma clone_composite_key_example :
  let w := grid_world in
  let w' := state_after (clone 0 (VStr "5,6,7")) w in
  let w'' := state_after (save 1) w' in
  entity_key w (entity_at w 0) = Ok (VStr "1,2,3")
  /\ store_has (VStr "1,2,3") (store_of w 2) = true
  /\ clone 0 (VStr "5,6,7") w = (Ok 1%nat, w')
  /\ entity_key w' (entity_at w' 1) = Ok (VStr "5,6,7")
  /\ dict_get "_old_key" (tags (entity_at w' 1)) = Some (VStr "5,6,3")
  /\ dict_get "_old_key" (tags (entity_at w' 1)) <> Some (VStr "1,2,3")
  /\ save 1 w' = (Ok tt, w'')
  /\ store_has (VStr "1,2,3") (store_of w'' 2) = true.
Proof.
  intros w w' w''.
  split; [vm_compute; reflexivity|].
  split; [vm_compute; reflexivity|].
  split; [vm_compute; reflexivity|].
  split; [vm_compute; reflexivity|].
  split; [vm_compute; reflexivity|].
  split; [vm_compute; discriminate|].
  split; [vm_compute; reflexivity|].
  vm_compute; reflexivity.
Qed.

Lemma clone_retires_original_key_witness :
  let w := named_world in
  let w' := state_after (clone 0 (VStr "B")) w in
  let e' := entity_at w' 1 in
  entity_key w (entity_at w 0) = Ok (VStr "A")
  /\ clone 0 (VStr "B") w = (Ok 1%nat, w')
  /\ entity_key w' e' = Ok (VStr "B")
  /\ dict_get "_old_key" (tags e') = Some (VStr "A")
  /\ (forall cache',
        key_cache w' Named = Some cache' ->
        lru_peek (VStr "A") cache' = None)
  /\ exists w'' e'' rec,
       save 1 w' = (Ok tt, w'')
       /\ store_get (VStr "A") (store_of w'' 1) = None
       /\ store_get (VStr "B") (store_of w'' 1) = Some rec
       /\ heap w'' !! 1%nat = Some e''
       /\ dict_get "_old_key" (tags e'') = None.
Proof.
  intros w w' e'.
  assert (Hname : "name" ∉ ["uid"; "flags"; "tags"]).
  { apply (bool_decide_unpack _). vm_compute. reflexivity. }
  assert (Hinv : hooks_invert NameAttribute (VStr "A")).
  { intros _. split; [discriminate | reflexivity]. }
  assert (Hne : VStr "B" <> VStr "A") by discriminate.
  assert (Hr : heap w !! 0%nat = Some (entity_at w 0))
    by (vm_compute; reflexivity).
  assert (Hkn : c_store_key (e_class (entity_at w 0)) = KeyName "name")
    by (vm_compute; reflexivity).
  assert (Hold : entity_key w (entity_at w 0) = Ok (VStr "A"))
    by (vm_compute; reflexivity).
  assert (Ha : dict_get "name" (b_attrs (base_blob w (entity_at w 0)))
               = Some NameAttribute) by (vm_compute; reflexivity).
  assert (Hafresh : dict_get "name"
                      (b_attrs (fresh_blob (e_class (entity_at w 0)) w))
                    = Some NameAttribute) by (vm_compute; reflexivity).
  assert (Hclone : clone 0 (VStr "B") w = (Ok 1%nat, w'))
    by (vm_compute; reflexivity).
  assert (Hr' : heap w' !! 1%nat = Some e') by (vm_compute; reflexivity).
  assert (Hk' : entity_key w' e' = Ok (VStr "B")) by (vm_compute; reflexivity).
  assert (Hsid : c_store (e_class (entity_at w 0)) = Some 1%nat)
    by (vm_compute; reflexivity).
  assert (Hcls : e_class (entity_at w 0) = Named) by (vm_compute; reflexivity).
  assert (Hd : exists d, serialize (base_blob w' e') = Ok d)
    by (eexists; vm_compute; reflexivity).
  destruct Hd as [d Hd].
  split; [exact Hold|]. split; [exact Hclone|]. split; [exact Hk'|].
  destruct (clone_retires_original_key 0 (VStr "B") w 1%nat w'
              (entity_at w 0) "name" NameAttribute (VStr "A")
              Hr Hkn Hname Hold Ha Hafresh Hinv Hclone)
    as (e1 & Hr1 & _ & Hfacts).
 pose proof (eq_trans (eq_sym Hr') Hr1) as He. apply (inj Some) in He. rewrite <- He in Hfacts.
 destruct (Hfacts (VStr "B") Hk' Hne) as (Htag & Hcache & Hsave).
 split; [exact Htag|]. split.
  { intros cache' Hc'. apply Hcache. rewrite Hcls. exact Hc'. }
 exact (Hsave 1%nat d Hsid Hd).
Defined.

Lemma new_entity_holds_defaults_witness :
  let w := named_class_world in
  let w1 := state_after (Entity_init Named None false true) w in
  let e1 := entity_at w1 0 in
  Entity_init Named None false true w = (Ok 0%nat, w1)
  /\ e_values e1 = [("name", Unset); ("version", VInt 1)]
  /\ dict_get "version" (e_values e1) = Some (VInt 1)
  /\ _dirty e1 = false /\ flags e1 = [] /\ tags e1 = []
  /\ active e1 = false /\ _savable e1 = true.
Proof.
  intros w w1 e1.
  assert (Hinit : Entity_init Named None false true w = (Ok 0%nat, w1))
    by (vm_compute; reflexivity).
  assert (Hr1 : heap w1 !! 0%nat = Some e1) by (vm_compute; reflexivity).
  assert (Ha : dict_get "version" (cs_attrs (class_state_of w1 Named))
               = Some EntityVersion) by (vm_compute; reflexivity).
  assert (Hd : default_values (cs_attrs (class_state_of w1 Named))
               = [("name", Unset); ("version", VInt 1)])
    by (vm_compute; reflexivity).
  destruct (new_entity_holds_defaults Named false true w 0%nat w1 e1 Hinit Hr1)
    as (_ & Hv & Hk & Hrest).
  split; [exact Hinit|]. split; [exact (eq_trans Hv Hd)|].
  split; [exact (Hk "version" EntityVersion Ha)|]. exact Hrest.
Defined.

Lemma deserialize_ignores_unknown_keys_witness :
  deserialize 0 [] [("colour", DVal (VStr "red")); ("size", DVal (VInt 3))]
              named_world
  = (Ok tt, named_world).
Proof.
  apply (deserialize_ignores_unknown_keys 0 [] _ named_world
           (entity_at named_world 0)
           (base_blob named_world (entity_at named_world 0))).
  - vm_compute; reflexivity.
  - reflexivity.
  - intros k Hk. apply elem_of_cons in Hk as [->|Hk].
    { split; vm_compute; reflexivity. }
    apply elem_of_cons in Hk as [->|Hk].
    { split; vm_compute; reflexivity. }
    apply elem_of_nil in Hk. contradiction.
Defined.

Lemma deserialize_frame_witness :
  let d := [("name", DVal (VStr "Z"))] in
  let w' := state_after (deserialize 0 [] d) named_world in
  deserialize 0 [] d named_world = (Ok tt, w')
  /\ length (heap w') = length (heap named_world)
  /\ stores w' = stores named_world
  /\ uid_timecode w' = uid_timecode named_world.
Proof.
  intros d w'.
  assert (Hrun : deserialize 0 [] d named_world = (Ok tt, w'))
    by (vm_compute; reflexivity).
  destruct (deserialize_frame 0 [] d named_world (Ok tt) w' Hrun)
    as (Hlen & _ & Hst & Hu & _).
  split; [exact Hrun|]. split; [exact Hlen|]. split; [exact Hst | exact Hu].
Defined.

Lemma deserialize_field_is_raw_witness :
  let w := named_world in
  let e := entity_at w 0 in
  _validate EntityVersion (VStr "x") (getattr_field w e) = Raise TypeError
  /\ exists w' e',
       deserialize 0 [] [("version", DVal (VStr "x"))] w = (Ok tt, w')
       /\ heap w' !! 0%nat = Some e'
       /\ e_values e' = dict_set "version" (VStr "x") (e_values e)
       /\ e_blobs e' = e_blobs e
       /\ _dirty e' = true.
Proof.
  intros w e. split; [vm_compute; reflexivity|].
  apply (deserialize_field_is_raw 0 "version" (VStr "x") w e EntityVersion).
  - vm_compute; reflexivity.
  - intros values blobs. eexists. vm_compute. reflexivity.
  - vm_compute; reflexivity.
Defined.

Lemma set_attr_val_unknown_field_witness :
  _set_attr_val 0 [] "colour" (VStr "red") true false named_world
  = (Raise KeyError, named_world).
Proof.
  apply (set_attr_val_unknown_field 0 [] "colour" (VStr "red") true false
           named_world (entity_at named_world 0)
           (base_blob named_world (entity_at named_world 0))).
  - vm_compute; reflexivity.
  - reflexivity.
  - vm_compute; reflexivity.
Defined.

Lemma set_attr_val_unset_witness :
  let w := named_world in
  let e := entity_at w 0 in
  _validate EntityVersion Unset (getattr_field w e) = Raise TypeError
  /\ exists w' e',
       _set_attr_val 0 [] "version" Unset true false w = (Ok tt, w')
       /\ heap w' !! 0%nat = Some e'
       /\ base_blob w' e' = blob_write [] "version" Unset (base_blob w e)
       /\ _dirty e' = true.
Proof.
  intros w e. split; [vm_compute; reflexivity|].
  apply (set_attr_val_unset 0 [] "version" true false w e
           (base_blob w e) EntityVersion).
  - vm_compute; reflexivity.
  - intros values blobs. eexists. vm_compute. reflexivity.
  - reflexivity.
  - vm_compute; reflexivity.
Defined.

Lemma set_attr_val_same_key_witness :
  let w := named_world in
  let w' := state_after (_set_attr_val 0 [] "version" (VInt 2) true false) w in
  _set_attr_val 0 [] "version" (VInt 2) true false w = (Ok tt, w')
  /\ tags (entity_at w' 0) = tags (entity_at w 0)
  /\ _dirty (entity_at w' 0) = true
  /\ classes w' = classes w /\ stores w' = stores w.
Proof.
  intros w w'.
  assert (Hset : _set_attr_val 0 [] "version" (VInt 2) true false w
                 = (Ok tt, w')) by (vm_compute; reflexivity).
  split; [exact Hset|].
  apply (set_attr_val_same_key 0 [] "version" (VInt 2) true false w w'
           (entity_at w 0) (entity_at w' 0) (VStr "A")).
  - vm_compute; reflexivity.
  - exact Hset.
  - vm_compute; reflexivity.
  - vm_compute; reflexivity.
  - vm_compute; reflexivity.
Defined.

Lemma serialize_name_collision_witness :
  serialize (Blob [("f", plain_attribute (VInt 1)); ("g", plain_attribute VNone)]
                  [("f", VInt 1); ("g", VNone)]
                  [("g", Blob [] [] [])])
  = Raise KeyError.
Proof.
  apply (serialize_name_collision _ _ _ "g").
  - apply (bool_decide_unpack _). vm_compute. reflexivity.
  - apply (bool_decide_unpack _). vm_compute. reflexivity.
Defined.

Lemma serialize_record_shape_witness :
  let sub := Blob [("v", plain_attribute (VInt 2))] [("v", Unset)] [] in
  let b := Blob [("f", plain_attribute (VInt 1)); ("h", plain_attribute VNone)]
                [("f", VInt 7)] [("g", sub)] in
  let d := [("g", DDict [("v", DVal Unset)]); ("f", DVal (VInt 7));
            ("h", DVal VNone)] in
  serialize b = Ok d
  /\ dict_keys d = ["g"] ++ ["f"; "h"]
  /\ dict_get "h" d = Some (DVal VNone).
Proof.
  intros sub b d.
  assert (Hser : serialize b = Ok d) by (vm_compute; reflexivity).
  assert (Hnd : NoDup (dict_keys [("g", sub)])).
  { apply (bool_decide_unpack _). vm_compute. reflexivity. }
  destruct (serialize_record_shape _ _ _ d Hnd Hser) as (Hkeys & _ & Hattrs).
  split; [exact Hser|]. split; [exact Hkeys|].
  apply (Hattrs "h" (plain_attribute VNone)).
  right. left.
Defined.

Lemma new_entity_exists_witness :
  let w1 := state_after (Entity_init SomeEntity None false true) booted in
  Entity_init SomeEntity None false true booted = (Ok 0%nat, w1)
  /\ store_has (_uid (entity_at w1 0)) (store_of w1 0) = false
  /\ Entity_exists SomeEntity (_uid (entity_at w1 0)) w1 = (Ok true, w1).
Proof.
  intros w1.
  assert (Hinit : Entity_init SomeEntity None false true booted
                  = (Ok 0%nat, w1)) by (vm_compute; reflexivity).
  split; [exact Hinit|]. split; [vm_compute; reflexivity|].
  apply (new_entity_exists SomeEntity None false true booted 0%nat w1
           (entity_at w1 0)).
  - reflexivity.
  - exact Hinit.
  - vm_compute; reflexivity.
Defined.

Lemma delete_removes_record_only_witness :
  let w := some_world in
  let key := _uid (entity_at w 0) in
  store_has key (store_of w 0) = true
  /\ exists w',
       delete 0 w = (Ok tt, w')
       /\ heap w' = heap w /\ classes w' = classes w
       /\ store_get key (store_of w' 0) = None
       /\ Entity_exists SomeEntity key w' = (Ok true, w').
Proof.
  intros w key. split; [vm_compute; reflexivity|].
  assert (Hr : heap w !! 0%nat = Some (entity_at w 0))
    by (vm_compute; reflexivity).
  assert (Hsid : c_store (e_class (entity_at w 0)) = Some 0%nat)
    by (vm_compute; reflexivity).
  assert (Hkey : entity_key w (entity_at w 0) = Ok key)
    by (vm_compute; reflexivity).
  assert (Hkn : get_key_name (e_class (entity_at w 0)) = "uid")
    by (vm_compute; reflexivity).
  assert (Hinst : dict_has key (_instances (class_state_of w
                                   (e_class (entity_at w 0)))) = true)
    by (vm_compute; reflexivity).
  assert (Hcls : e_class (entity_at w 0) = SomeEntity)
    by (vm_compute; reflexivity).
  destruct (delete_removes_record_only 0 w (entity_at w 0) 0%nat key
              Hr Hsid Hkey)
    as (w' & Hdel & Hheap & Hclasses & _ & Hgone & _ & _ & Hexists).
  exists w'. split; [exact Hdel|]. split; [exact Hheap|].
  split; [exact Hclasses|]. split; [exact Hgone|].
  rewrite <- Hcls. exact (Hexists Hkn Hinst).
Defined.

Lemma revert_guards_witness :
  let w := renamed_world in
  entity_key w (entity_at w 0) = Ok (VStr "B")
  /\ store_has (VStr "A") (store_of w 1) = true
  /\ revert 0 w = (Raise KeyError, w).
Proof.
  intros w. split; [vm_compute; reflexivity|].
  split; [vm_compute; reflexivity|].
  assert (Hr : heap w !! 0%nat = Some (entity_at w 0))
    by (vm_compute; reflexivity).
  destruct (revert_guards 0 w (entity_at w 0) Hr) as (_ & Hmiss & _).
  apply (Hmiss 1%nat (VStr "B")).
  - vm_compute; reflexivity.
  - vm_compute; reflexivity.
  - vm_compute; reflexivity.
Defined.

Lemma register_keeps_manager_witness :
  let entities := [("Entity", Entity)] in
  let entities' := [("Entity", Entity); ("SomeEntity", SomeEntity)] in
  register entities SomeEntity = Ok entities'
  /\ manager_ok entities
  /\ dict_get "SomeEntity" entities' = Some SomeEntity
  /\ dict_get "Entity" entities' = Some Entity
  /\ manager_ok entities'.
Proof.
  intros entities entities'.
  assert (Hreg : register entities SomeEntity = Ok entities')
    by (vm_compute; reflexivity).
  assert (Hok : manager_ok entities).
  { split; [|split].
    - apply (bool_decide_unpack _). vm_compute. reflexivity.
    - apply (bool_decide_unpack _). vm_compute. reflexivity.
    - intros n c Hin. apply elem_of_cons in Hin as [Heq|Hin].
      + injection Heq as -> ->. reflexivity.
      + apply elem_of_nil in Hin. contradiction. }
  destruct (register_keeps_manager entities SomeEntity entities' Hreg)
    as (Hnew & Hold & _ & Hinv).
  split; [exact Hreg|]. split; [exact Hok|]. split; [exact Hnew|].
  split; [|exact (Hinv Hok)].
  rewrite (Hold "Entity"); [reflexivity | discriminate].
Defined.

Lemma registered_name_is_inherited_witness :
  let a := plain_attribute (VInt 1) in
  let w' := state_after (register_attr Parent "f" a) booted in
  register_attr Parent "f" a booted = (Ok tt, w')
  /\ register_attr Child "f" (plain_attribute (VInt 2)) w'
     = (Raise AlreadyExists, w')
  /\ register_blob Child "f" (BlobClass [] []) w'
     = (Raise AlreadyExists, w').
Proof.
  intros a w'.
  assert (Hreg : register_attr Parent "f" a booted = (Ok tt, w'))
    by (vm_compute; reflexivity).
  split; [exact Hreg|].
  apply (registered_name_is_inherited Parent Child "f" a
           (plain_attribute (VInt 2)) (BlobClass [] []) booted w').
  - apply (descends_step Parent 8 "Child" true "C" (KeyName "uid") None
             [Parent] Parent); [left | apply descends_refl].
  - exact Hreg.
Defined.

Lemma uid_key_cannot_be_set_witness :
  let w := some_world in
  let e := entity_at w 0 in
  set_key 0 (VStr "S-9") w = (Raise AttributeError, w)
  /\ exists w1,
       clone 0 (VStr "S-9") w = (Raise AttributeError, w1)
       /\ length (heap w1) = 2%nat
       /\ exists e', heap w1 !! 1%nat = Some e'
            /\ dict_get (_uid e') (_instances (class_state_of w1 SomeEntity))
               = Some 1%nat.
Proof.
  intros w e.
  assert (Hr : heap w !! 0%nat = Some e) by (vm_compute; reflexivity).
  assert (Hkn : c_store_key (e_class e) = KeyName "uid")
    by (vm_compute; reflexivity).
  assert (Hm : class_member w "uid" (e_class e) = None)
    by (vm_compute; reflexivity).
  destruct (uid_key_cannot_be_set 0 (VStr "S-9") w e Hr Hkn Hm)
    as (Hset & Hclone).
  split; [exact Hset|].
  assert (Hbd' : serialize (base_blob w e) = Ok [("version", DVal (VInt 1))])
    by (vm_compute; reflexivity).
  set (w1 := state_after
               (Entity_init (e_class e)
                  (Some (dict_del "uid"
                           (entity_record e [("version", DVal (VInt 1))])))
                  false true) w).
  assert (Hinit : Entity_init (e_class e)
                    (Some (dict_del "uid"
                             (entity_record e [("version", DVal (VInt 1))])))
                    false true w = (Ok 1%nat, w1))
    by (vm_compute; reflexivity).
  assert (Hlen : length (heap w1) = 2%nat) by (vm_compute; reflexivity).
  assert (Hcls : e_class e = SomeEntity) by (vm_compute; reflexivity).
  destruct (Hclone 0%nat [("version", DVal (VInt 1))] 1%nat w1)
    as (Hc & _ & e' & Hr' & Hinst).
  - vm_compute; reflexivity.
  - vm_compute; reflexivity.
  - exact Hbd'.
  - exact Hinit.
  - exists w1. split; [exact Hc|]. split; [exact Hlen|].
    exists e'. split; [exact Hr'|]. rewrite <- Hcls. exact Hinst.
Defined.

Lemma find_in_memory_witness :
  let w := two_named_world in
  let args := [VStr "name"; VStr "B"; VStr "version"; VInt 1] in
  let pairs := [(VStr "name", VStr "B"); (VStr "version", VInt 1)] in
  unpack_pairs args = Ok pairs
  /\ find Named args true false MatchAll 0 w = (Ok (FoundList [1%nat]), w)
  /\ matches w pairs MatchAll 1
  /\ (forall r, r ∈ dict_values (_instances (class_state_of w Named)) ->
      matches w pairs MatchAll r -> r ∈ [1%nat]).
Proof.
  intros w args pairs.
  assert (Hp : unpack_pairs args = Ok pairs) by (vm_compute; reflexivity).
  assert (Hf : find Named args true false MatchAll 0 w
               = (Ok (FoundList [1%nat]), w)) by (vm_compute; reflexivity).
  destruct (find_in_memory Named args pairs MatchAll 0 w _ w Hp Hf)
    as (_ & _ & _ & Hsound & Hall & _).
  split; [exact Hp|]. split; [exact Hf|]. split.
  - apply (Hsound 1%nat). apply elem_of_cons. left. reflexivity.
  - exact (Hall eq_refl).
Defined.

Lemma find_odd_arguments_witness :
  find Named [VStr "name"; VStr "B"; VStr "version"] true true MatchAll 0
       two_named_world
  = (Raise ValueError, two_named_world).
Proof.
  apply (find_odd_arguments Named [VStr "name"; VStr "B"; VStr "version"]).
  reflexivity.
Defined.

Lemma coord_str_round_trip_witness :
  let self : entity_view := fun name =>
    if decide (name = "x") then Some (VInt 3)
    else if decide (name = "y") then Some (VInt (-4))
    else if decide (name = "z") then Some (VInt 0) else None in
  get_coord_str self = Ok (VStr "3,-4,0")
  /\ set_coord_from_str (VStr "3,-4,0")
     = Ok [("x", VInt 3); ("y", VInt (-4)); ("z", VInt 0)].
Proof.
  intros self.
  destruct (coord_str_round_trip self 3 (-4) 0 eq_refl eq_refl eq_refl)
    as (s & Hget & Hset & _).
  assert (Hs : s = "3,-4,0").
  { assert (Hc : get_coord_str self = Ok (VStr "3,-4,0"))
      by (vm_compute; reflexivity).
    pose proof (eq_trans (eq_sym Hget) Hc) as He. by injection He. }
  rewrite Hs in Hget, Hset. split; [exact Hget | exact Hset].
Defined.

Lemma revert_reads_record_witness :
  let w := edited_world in
  let w' := state_after (revert 0) w in
  revert 0 w = (Ok tt, w')
  /\ dict_get "version" (e_values (entity_at w 0)) = Some (VInt 7)
  /\ dict_get "version" (e_values (entity_at w' 0)) = Some (VInt 1)
  /\ _dirty (entity_at w' 0) = false
  /\ "marked" ∈ flags (entity_at w' 0).
Proof.
  intros w w'.
  assert (Hr : heap w !! 0%nat = Some (entity_at w 0))
    by (vm_compute; reflexivity).
  assert (Hs : c_store (e_class (entity_at w 0)) = Some 1%nat)
    by (vm_compute; reflexivity).
  assert (Hrun : revert 0 w = (Ok tt, w')) by (vm_compute; reflexivity).
  destruct (revert_reads_record 0 w w' (entity_at w 0) 1 Hr Hs Hrun)
    as (key & d & e' & _ & _ & _ & Hr' & _ & Hclean & _ & Hflags & _).
  assert (Hr1 : heap w' !! 0%nat = Some (entity_at w' 0))
    by (vm_compute; reflexivity).
  pose proof (eq_trans (eq_sym Hr') Hr1) as He. apply (inj Some) in He.
  rewrite He in Hclean, Hflags.
  split; [exact Hrun|].
  split; [vm_compute; reflexivity|].
  split; [vm_compute; reflexivity|].
  split; [exact Hclean|].
  apply Hflags. vm_compute. apply elem_of_cons. left. reflexivity.
Defined.

Lemma save_writes_record_witness :
  let w := edited_world in
  let w' := state_after (save 0) w in
  let bd := [("name", DVal (VStr "A")); ("version", DVal (VInt 7))] in
  save 0 w = (Ok tt, w')
  /\ store_get (VStr "A") (store_of w' 1)
     = Some (entity_record (entity_at w 0) bd)
  /\ save 0 w' = (Ok tt, w').
Proof.
  intros w w' bd.
  assert (Hr : heap w !! 0%nat = Some (entity_at w 0))
    by (vm_compute; reflexivity).
  assert (H1 : c_store (e_class (entity_at w 0)) = Some 1%nat)
    by (vm_compute; reflexivity).
  assert (H2 : _savable (entity_at w 0) = true) by (vm_compute; reflexivity).
  assert (H3 : dict_get "_old_key" (tags (entity_at w 0)) = None)
    by (vm_compute; reflexivity).
  assert (H4 : entity_key w (entity_at w 0) = Ok (VStr "A"))
    by (vm_compute; reflexivity).
  assert (H5 : serialize (base_blob w (entity_at w 0)) = Ok bd)
    by (vm_compute; reflexivity).
  assert (Hw : save 0 w = (Ok tt, w')) by (vm_compute; reflexivity).
  destruct (save_writes_record 0 w (entity_at w 0) Hr) as [_ Hsave].
  destruct (Hsave 1%nat (VStr "A") bd H1 H2 H3 H4 H5)
    as (w1 & Hrun & Hget & _ & _ & _ & _ & _ & Hagain).
  pose proof (eq_trans (eq_sym Hrun) Hw) as He.
  apply pair_equal_spec in He as [_ Hw1].
  rewrite Hw1 in Hget, Hagain.
  split; [exact Hw|]. split; [exact Hget | exact Hagain].
Defined.

Lemma init_adopts_record_uid_witness :
  let d := [("uid", DVal (VStr "N-1")); ("name", DVal (VStr "A"))] in
  let w := named_world in
  let w1 := state_after (Entity_init Named (Some d) false true) w in
  dict_get (VStr "N-1") (_instances (class_state_of w Named)) = Some 0%nat
  /\ Entity_init Named (Some d) false true w = (Ok 1%nat, w1)
  /\ uid_timecode w1 = uid_timecode w
  /\ dict_get (VStr "N-1") (_instances (class_state_of w1 Named)) = Some 1%nat.
Proof.
  intros d w w1.
  assert (Hrun : Entity_init Named (Some d) false true w = (Ok 1%nat, w1))
    by (vm_compute; reflexivity).
  assert (Hne : VStr "N-1" <> VNone) by discriminate.
  destruct (init_adopts_record_uid Named d false true w 1 w1 (VStr "N-1")
              eq_refl Hne Hrun) as (_ & _ & Htc & Hinst & _).
  split; [vm_compute; reflexivity|].
  split; [exact Hrun|]. split; [exact Htc | exact Hinst].
Defined.

Lemma manager_save_sweep_witness :
  let entities := [("Named", Named)] in
  let w := two_named_world in
  let w' := state_after (EntityManager_save entities) w in
  EntityManager_save entities w = (Ok tt, w')
  /\ is_dirty (entity_at w 1) = true
  /\ heap w' !! 0%nat = Some (entity_at w 0)
  /\ exists e', heap w' !! 1%nat = Some e'
                /\ is_savable e' && is_dirty e' = false.
Proof.
  intros entities w w'.
  assert (Hrun : EntityManager_save entities w = (Ok tt, w'))
    by (vm_compute; reflexivity).
  destruct (manager_save_sweep entities w (Ok tt) w' Hrun)
    as (_ & _ & Hclean & Hdone).
  split; [exact Hrun|].
  split; [vm_compute; reflexivity|].
  split.
  - apply Hclean; vm_compute; reflexivity.
  - apply (Hdone eq_refl Named 1%nat).
    + apply elem_of_cons. left. reflexivity.
    + apply elem_of_cons. right. apply elem_of_cons. left. reflexivity.
Defined.

Lemma all_lists_active_witness :
  let w0 := named_world in
  let w := state_after (Entity_init Named None true true) w0 in
  Entity_init Named None true true w0 = (Ok 1%nat, w)
  /\ Entity_all Named w = (Ok [1%nat], w)
  /\ (1%nat ∈ [1%nat] <-> true = true).
Proof.
  intros w0 w.
  assert (Hinit : Entity_init Named None true true w0 = (Ok 1%nat, w))
    by (vm_compute; reflexivity).
  assert (Hall : Entity_all Named w = (Ok [1%nat], w))
    by (vm_compute; reflexivity).
  destruct (all_lists_active Named w [1%nat] w Hall) as (_ & _ & Hnew).
  split; [exact Hinit|]. split; [exact Hall|].
  exact (Hnew None true true w0 1%nat Hinit).
Defined.

Lemma command_register_lookup_witness :
  let commands' := [("Look", Look)] in
  CommandManager_register [] (CommandClass Look) = Ok commands'
  /\ CommandManager_contains commands' (CommandName "Look") = true
  /\ CommandManager_getitem commands' (CommandName "Look") = Ok Look
  /\ CommandManager_register commands' (CommandClass Look)
     = Raise AlreadyExists.
Proof.
  intros commands'.
  assert (Hreg : CommandManager_register [] (CommandClass Look) = Ok commands')
    by (vm_compute; reflexivity).
  destruct (command_register_lookup [] Look commands' Hreg)
    as (_ & _ & Hsame & _).
  destruct (Hsame (CommandName "Look") eq_refl) as (Hc & Hg & _).
  destruct (Hsame (CommandClass Look) eq_refl) as (_ & _ & Hr).
  split; [exact Hreg|]. split; [exact Hc|]. split; [exact Hg|]. exact Hr.
Defined.
